(** * ps2spi: PS/2 keyboard to SPI bridge (ATtiny85 firmware)

    A shallow embedding of [ps2spi.c] and the proofs of its specification.

    Conventions of the embedding.
    - A C [int] is a [Z]; the firmware keeps every [int] it owns (counts,
      indices, bit counters, scan codes) far inside the 16-bit range.  A
      [uint8_t] is a [Z] reduced by [uint8] wherever the C code stores one.
    - The globals are grouped in records by subsystem; the fields keep the
      names of the C variables.
    - [PINB] is the only input from the keyboard.  The interrupt handler
      receives the sampled value of [PINB] as its argument (it reads the
      register twice within the same low phase of the clock; the model
      takes both reads from one sample); the polling loops of [ps2_send]
      and the blocking read [ps2_recv_x] take the future samples of [PINB]
      as a list and hand back what they did not consume.  A busy-wait that
      the samples never release has no result ([None]).
    - The two interrupt handlers are functions on the state.  The receive
      handler is run where the foreground code waits for it, in
      [ps2_recv_x]; transfers with the host are not interleaved with an
      iteration of the main loop.
    - Delays have no effect on the state and are left out. *)

From Stdlib Require Import ZArith Lia Bool List.
From stdpp Require Import base option list.
Import ListNotations.

Local Open Scope Z_scope.

(** ** Constants *)

Definition PS2_CLOCK : Z := 0x08.
Definition PS2_DATA : Z := 0x10.

Definition PS2_BUFF_SIZE : Z := 32.
Definition KEY_BUFF_SIZE : Z := 32.

Definition USI_CNTR_OVRF : Z := 0x40.
Definition USI_COUNTER : Z := 0x0f.

Definition PS2_HK_LEDS : Z := 0xED.
Definition PS2_HK_ALTCODE : Z := 0xF0.
Definition PS2_HK_TMDELAY : Z := 0xF3.
Definition PS2_KH_ACK : Z := 0xFA.
Definition PS2_KH_RESEND : Z := 0xFE.
Definition PS2_LAST_CODE : Z := 0x50.

(** Conversion to [uint8_t]. *)
Definition uint8 (x : Z) : Z := x mod 256.

(** ** Types and globals *)

Inductive ps2_state_t : Set :=
| PS2_IDLE
| PS2_DATA_BITS
| PS2_PARITY
| PS2_STOP
| PS2_RX_ERR_START
| PS2_RX_ERR_OVERRUN
| PS2_RX_ERR_PARITY
| PS2_RX_ERR_STOP.

(** Circular buffer holding PS2 scan codes. *)
Record ps2_buffer : Type := mk_ps2_buffer {
  ps2_scan_codes : list Z;
  ps2_buffer_out : Z;
  ps2_buffer_in : Z;
  ps2_scan_code_count : Z
}.

(** State of the bit stream from the keyboard. *)
Record ps2_receiver : Type := mk_ps2_receiver {
  ps2_rx_state : ps2_state_t;
  ps2_rx_data_byte : Z;
  ps2_rx_bit_count : Z;
  ps2_rx_parity : Z
}.

(** Key code output buffer. *)
Record key_buffer : Type := mk_key_buffer {
  key_codes : list Z;
  key_code_count : Z;
  key_buffer_out : Z;
  key_buffer_in : Z
}.

(** The device registers the code writes, and the global interrupt flag
    set by [sei] and cleared by [cli]. *)
Record io_regs : Type := mk_io_regs {
  DDRB : Z;
  PORTB : Z;
  USIDR : Z;
  USISR : Z;
  SREG_I : bool
}.

Record state : Type := mk_state {
  scanq : ps2_buffer;
  rx : ps2_receiver;
  keyq : key_buffer;
  command_in : Z;
  kbd_lock_keys : Z;
  io : io_regs
}.

Definition with_scanq (q : ps2_buffer) (s : state) : state :=
  mk_state q (rx s) (keyq s) (command_in s) (kbd_lock_keys s) (io s).
Definition with_rx (r : ps2_receiver) (s : state) : state :=
  mk_state (scanq s) r (keyq s) (command_in s) (kbd_lock_keys s) (io s).
Definition with_keyq (q : key_buffer) (s : state) : state :=
  mk_state (scanq s) (rx s) q (command_in s) (kbd_lock_keys s) (io s).
Definition with_command_in (c : Z) (s : state) : state :=
  mk_state (scanq s) (rx s) (keyq s) c (kbd_lock_keys s) (io s).
Definition with_io (r : io_regs) (s : state) : state :=
  mk_state (scanq s) (rx s) (keyq s) (command_in s) (kbd_lock_keys s) r.

Definition with_rx_state (st : ps2_state_t) (s : state) : state :=
  with_rx (mk_ps2_receiver st (ps2_rx_data_byte (rx s))
             (ps2_rx_bit_count (rx s)) (ps2_rx_parity (rx s))) s.

Definition with_DDRB (v : Z) (r : io_regs) : io_regs :=
  mk_io_regs v (PORTB r) (USIDR r) (USISR r) (SREG_I r).
Definition with_PORTB (v : Z) (r : io_regs) : io_regs :=
  mk_io_regs (DDRB r) v (USIDR r) (USISR r) (SREG_I r).
Definition with_USIDR (v : Z) (r : io_regs) : io_regs :=
  mk_io_regs (DDRB r) (PORTB r) v (USISR r) (SREG_I r).
Definition with_USISR (v : Z) (r : io_regs) : io_regs :=
  mk_io_regs (DDRB r) (PORTB r) (USIDR r) v (SREG_I r).
Definition with_SREG_I (b : bool) (r : io_regs) : io_regs :=
  mk_io_regs (DDRB r) (PORTB r) (USIDR r) (USISR r) b.

(** Array read [a[i]] and write [a[i] = v].  The C code only indexes inside
    the array; outside, the read gives 0 and the write does nothing. *)
Definition array_get (a : list Z) (i : Z) : Z := default 0 (a !! Z.to_nat i).
Definition array_set (a : list Z) (i : Z) (v : Z) : list Z := <[Z.to_nat i := v]> a.

(** The initial values of the globals, with the registers as [ioinit]
    leaves them and interrupts disabled. *)
Definition initial_state : state :=
  mk_state (mk_ps2_buffer (replicate 32 0) 0 0 0)
           (mk_ps2_receiver PS2_IDLE 0 0 0)
           (mk_key_buffer (replicate 32 0) 0 0 0)
           0 0
           (mk_io_regs 0x02 0 0 0x40 false).

(** ** Ring buffer operations *)

(** [ps2_recv]: get a byte from the PS2 input buffer, -1 if it is empty. *)
Definition ps2_recv (s : state) : Z * state :=
  let q := scanq s in
  if 0 <? ps2_scan_code_count q then
    let result := array_get (ps2_scan_codes q) (ps2_buffer_out q) in
    let ps2_scan_code_count' := ps2_scan_code_count q - 1 in
    let ps2_buffer_out' := ps2_buffer_out q + 1 in
    let ps2_buffer_out'' :=
      if ps2_buffer_out' =? PS2_BUFF_SIZE then 0 else ps2_buffer_out' in
    (result,
     with_scanq (mk_ps2_buffer (ps2_scan_codes q) ps2_buffer_out''
                   (ps2_buffer_in q) ps2_scan_code_count') s)
  else (-1, s).

(** [read_key]: get a byte from the key code output buffer, -1 if it is
    empty. *)
Definition read_key (s : state) : Z * state :=
  let q := keyq s in
  if 0 <? key_code_count q then
    let result := array_get (key_codes q) (key_buffer_out q) in
    let key_code_count' := key_code_count q - 1 in
    let key_buffer_out' := key_buffer_out q + 1 in
    let key_buffer_out'' :=
      if key_buffer_out' =? KEY_BUFF_SIZE then 0 else key_buffer_out' in
    (result,
     with_keyq (mk_key_buffer (key_codes q) key_code_count' key_buffer_out''
                  (key_buffer_in q)) s)
  else (-1, s).

(** [write_key]: write a byte to the key code output buffer, -1 if it is
    full, otherwise the key code. *)
Definition write_key (key_code : Z) (s : state) : Z * state :=
  let q := keyq s in
  if key_code_count q <? KEY_BUFF_SIZE then
    let key_codes' := array_set (key_codes q) (key_buffer_in q) key_code in
    let result := key_code in
    let key_code_count' := key_code_count q + 1 in
    let key_buffer_in' := key_buffer_in q + 1 in
    let key_buffer_in'' :=
      if key_buffer_in' =? KEY_BUFF_SIZE then 0 else key_buffer_in' in
    (result,
     with_keyq (mk_key_buffer key_codes' key_code_count' (key_buffer_out q)
                  key_buffer_in'') s)
  else (-1, s).

(** ** The receive interrupt handler

    [ISR(PCINT0_vect)] runs when the keyboard clock pin changes.  [pinb] is
    the value of [PINB] the handler samples. *)
Definition PCINT0_vect (pinb : Z) (s : state) : state :=
  if Z.land pinb PS2_CLOCK =? 0 then
    let ps2_data_bit := Z.shiftr (Z.land pinb PS2_DATA) 4 in
    let r := rx s in
    match ps2_rx_state r with
    | PS2_RX_ERR_START
    | PS2_RX_ERR_OVERRUN
    | PS2_RX_ERR_PARITY
    | PS2_RX_ERR_STOP => s
    | PS2_IDLE =>
        if ps2_data_bit =? 0 then
          with_rx (mk_ps2_receiver PS2_DATA_BITS 0 0 0) s
        else
          with_rx_state PS2_RX_ERR_START s
    | PS2_DATA_BITS =>
        let ps2_rx_parity' := ps2_rx_parity r + ps2_data_bit in
        let ps2_data_bit' := uint8 (Z.shiftl ps2_data_bit (ps2_rx_bit_count r)) in
        let ps2_rx_data_byte' := uint8 (ps2_rx_data_byte r + ps2_data_bit') in
        let ps2_rx_bit_count' := ps2_rx_bit_count r + 1 in
        with_rx (mk_ps2_receiver
                   (if ps2_rx_bit_count' =? 8 then PS2_PARITY else PS2_DATA_BITS)
                   ps2_rx_data_byte' ps2_rx_bit_count' ps2_rx_parity') s
    | PS2_PARITY =>
        if negb (Z.land (ps2_rx_parity r + ps2_data_bit) 1 =? 0) then
          with_rx_state PS2_STOP s
        else
          with_rx_state PS2_RX_ERR_PARITY s
    | PS2_STOP =>
        if ps2_data_bit =? 1 then
          let q := scanq s in
          if ps2_scan_code_count q <? PS2_BUFF_SIZE then
            let ps2_scan_codes' :=
              array_set (ps2_scan_codes q) (ps2_buffer_in q) (ps2_rx_data_byte r) in
            let ps2_scan_code_count' := ps2_scan_code_count q + 1 in
            let ps2_buffer_in' := ps2_buffer_in q + 1 in
            let ps2_buffer_in'' :=
              if ps2_buffer_in' =? PS2_BUFF_SIZE then 0 else ps2_buffer_in' in
            with_rx_state PS2_IDLE
              (with_scanq (mk_ps2_buffer ps2_scan_codes' (ps2_buffer_out q)
                             ps2_buffer_in'' ps2_scan_code_count') s)
          else
            with_rx_state PS2_RX_ERR_OVERRUN s
        else
          with_rx_state PS2_RX_ERR_STOP s
    end
  else s.

(** The handler run over successive samples, one pin change each. *)
Definition run_PCINT0 (pinbs : list Z) (s : state) : state :=
  foldl (fun st pinb => PCINT0_vect pinb st) s pinbs.

(** ** The host exchange interrupt handler

    [ISR(USI_OVF_vect)] runs when the USI counter overflows: eight bits have
    been shifted out to the host and eight bits from the host are in
    [USIDR]. *)
Definition USI_OVF_vect (s : state) : state :=
  let s1 := with_command_in (USIDR (io s)) s in
  let '(data, s2) := read_key s1 in
  let s3 :=
    if data =? -1 then with_io (with_USIDR 0 (io s2)) s2
    else with_io (with_USIDR (uint8 data) (io s2)) s2 in
  let s4 := with_io (with_USISR (uint8 (Z.land (USISR (io s3)) (Z.lnot USI_COUNTER))) (io s3)) s3 in
  with_io (with_USISR (uint8 (Z.lor (USISR (io s4)) USI_CNTR_OVRF)) (io s4)) s4.

(** ** Transmission to the keyboard *)

(** [do {} while ( (PINB & PS2_CLOCK) );] reads [PINB] until the clock is
    low; the sample that ends the loop is consumed. *)
Fixpoint wait_clock_low (tr : list Z) : option (list Z) :=
  match tr with
  | [] => None
  | pinb :: tr' =>
      if negb (Z.land pinb PS2_CLOCK =? 0) then wait_clock_low tr' else Some tr'
  end.

(** [do {} while ( !(PINB & PS2_CLOCK) );] reads [PINB] until the clock is
    high. *)
Fixpoint wait_clock_high (tr : list Z) : option (list Z) :=
  match tr with
  | [] => None
  | pinb :: tr' =>
      if Z.land pinb PS2_CLOCK =? 0 then wait_clock_high tr' else Some tr'
  end.

(** The loop of [ps2_send] that clocks out eight data bits, the parity bit
    and the stop bit.  [fuel] bounds the number of iterations; ten are
    enough from [ps2_tx_bit_count = 0]. *)
Fixpoint ps2_send_loop (fuel : nat) (byte ps2_tx_parity ps2_tx_bit_count : Z)
    (s : state) (tr : list Z) : option (state * list Z) :=
  if ps2_tx_bit_count <? 10 then
    match fuel with
    | O => None
    | S fuel' =>
        let '(ps2_data_bit, ps2_tx_parity') :=
          if ps2_tx_bit_count <? 8 then
            (Z.land byte 0x01, ps2_tx_parity + Z.land byte 0x01)
          else if ps2_tx_bit_count =? 8 then
            (Z.land (uint8 ps2_tx_parity) 0x01, ps2_tx_parity)
          else
            (1, ps2_tx_parity) in
        tr1 ← wait_clock_low tr;
        let s1 :=
          if negb (ps2_data_bit =? 0) then
            with_io (with_PORTB (uint8 (Z.lor (PORTB (io s)) PS2_DATA)) (io s)) s
          else
            with_io (with_PORTB (uint8 (Z.land (PORTB (io s)) (Z.lnot PS2_DATA))) (io s)) s in
        tr2 ← wait_clock_high tr1;
        ps2_send_loop fuel' (uint8 (Z.shiftr byte 1)) ps2_tx_parity'
          (ps2_tx_bit_count + 1) s1 tr2
    end
  else Some (s, tr).

(** The part of [ps2_send] before the acknowledge: interrupts off, receiver
    reset, request to send, and the ten clocked bits. *)
Definition ps2_send_frame (byte : Z) (s : state) (tr : list Z)
    : option (state * list Z) :=
  let s := with_io (with_SREG_I false (io s)) s in
  let s := with_rx (mk_ps2_receiver PS2_IDLE 0 0 0) s in
  let s := with_io (with_DDRB (uint8 (Z.lor (DDRB (io s)) PS2_CLOCK)) (io s)) s in
  let s := with_io (with_PORTB (uint8 (Z.land (PORTB (io s)) (Z.lnot PS2_CLOCK))) (io s)) s in
  let s := with_io (with_DDRB (uint8 (Z.lor (DDRB (io s)) PS2_DATA)) (io s)) s in
  let s := with_io (with_PORTB (uint8 (Z.land (PORTB (io s)) (Z.lnot PS2_DATA))) (io s)) s in
  let s := with_io (with_DDRB (uint8 (Z.land (DDRB (io s)) (Z.lnot PS2_CLOCK))) (io s)) s in
  let s := with_io (with_PORTB (uint8 (Z.lor (PORTB (io s)) PS2_CLOCK)) (io s)) s in
  '(s, tr) ← ps2_send_loop 10 byte 1 0 s tr;
  let s := with_io (with_DDRB (uint8 (Z.land (DDRB (io s)) (Z.lnot PS2_DATA))) (io s)) s in
  let s := with_io (with_PORTB (uint8 (Z.lor (PORTB (io s)) PS2_DATA)) (io s)) s in
  Some (s, tr).

(** The acknowledge of [ps2_send]: wait for the clock to go low, read the
    data line from the next sample of [PINB], wait for the clock to go high,
    interrupts on. *)
Definition ps2_send_ack (s : state) (tr : list Z) : option (Z * state * list Z) :=
  tr ← wait_clock_low tr;
  match tr with
  | [] => None
  | pinb :: tr =>
      let result := -1 * Z.land pinb PS2_DATA in
      tr ← wait_clock_high tr;
      let s := with_io (with_SREG_I true (io s)) s in
      Some (result, s, tr)
  end.

(** [ps2_send]: send a command byte to the keyboard. *)
Definition ps2_send (byte : Z) (s : state) (tr : list Z)
    : option (Z * state * list Z) :=
  '(s, tr) ← ps2_send_frame byte s tr;
  ps2_send_ack s tr.

(** ** Blocking read

    [ps2_recv_x] repeats [ps2_recv] until it gives a byte.  The buffer is
    filled by the receive interrupt only: while the loop spins, each further
    sample of [PINB] is a pin change served by [PCINT0_vect], provided
    interrupts are enabled.  With interrupts disabled, or with no pin
    change to come, an empty buffer stays empty and the loop never ends. *)
Fixpoint ps2_recv_x (s : state) (tr : list Z) : option (Z * state * list Z) :=
  let '(result, s1) := ps2_recv s in
  if result =? -1 then
    match tr with
    | [] => None
    | pinb :: tr' =>
        if SREG_I (io s1) then ps2_recv_x (PCINT0_vect pinb s1) tr' else None
    end
  else Some (result, s1, tr).

(** ** Keyboard commands *)

(** [kdb_led_ctrl]: set the LED state. *)
Definition kdb_led_ctrl (state_bits : Z) (s : state) (tr : list Z)
    : option (Z * state * list Z) :=
  let state_bits := Z.land state_bits 0x07 in
  '(_, s, tr) ← ps2_send PS2_HK_LEDS s tr;
  '(temp_scan_code, s, tr) ← ps2_recv_x s tr;
  if temp_scan_code =? PS2_KH_ACK then
    '(_, s, tr) ← ps2_send state_bits s tr;
    ps2_recv_x s tr
  else Some (temp_scan_code, s, tr).

(** [kbd_code_set]: request the keyboard to change its scan code set. *)
Definition kbd_code_set (set : Z) (s : state) (tr : list Z)
    : option (Z * state * list Z) :=
  if (set <? 1) || (3 <? set) then Some (PS2_KH_RESEND, s, tr)
  else
    '(_, s, tr) ← ps2_send PS2_HK_ALTCODE s tr;
    '(temp_scan_code, s, tr) ← ps2_recv_x s tr;
    if temp_scan_code =? PS2_KH_ACK then
      '(_, s, tr) ← ps2_send (uint8 set) s tr;
      ps2_recv_x s tr
    else Some (temp_scan_code, s, tr).

(** [kbd_typematic_set]: set the typematic rate and delay. *)
Definition kbd_typematic_set (configuration : Z) (s : state) (tr : list Z)
    : option (Z * state * list Z) :=
  let configuration := Z.land configuration 0x7f in
  '(_, s, tr) ← ps2_send PS2_HK_TMDELAY s tr;
  '(temp_scan_code, s, tr) ← ps2_recv_x s tr;
  if temp_scan_code =? PS2_KH_ACK then
    '(_, s, tr) ← ps2_send configuration s tr;
    ps2_recv_x s tr
  else Some (temp_scan_code, s, tr).

(** ** The scan code translator: the body of the loop of [main] *)

(** The codes kept after the [0xe0] lead byte. *)
Definition e0_keep (scan_code : Z) : bool :=
  (scan_code =? 0x50) || (scan_code =? 0xd0) || (scan_code =? 0x4d) ||
  (scan_code =? 0xcd) || (scan_code =? 0x4b) || (scan_code =? 0xcb) ||
  (scan_code =? 0x48) || (scan_code =? 0xc8).

(** The case labels of the [switch] that end in [continue]. *)
Definition discard_table : list Z :=
  [15; 27; 29; 41; 40; 43; 55; 56; 58;
   69; 70; 71; 73; 74; 76; 78; 79; 81; 82; 83;
   85; 133; 134; 91; 92; 93].

Definition in_discard_table (code : Z) : bool :=
  existsb (Z.eqb code) discard_table.

(** The [0xe1] stage.  The result [None] is the [continue] of the C code;
    [Some scan_code] goes on to the next stage. *)
Definition main_e1 (scan_code : Z) (s : state) (tr : list Z)
    : option (option Z * state * list Z) :=
  if scan_code =? 0xe1 then
    '(scan_code, s, tr) ← ps2_recv_x s tr;
    if scan_code =? 0x1d then
      '(_, s, tr) ← ps2_recv_x s tr;
      Some (None, s, tr)
    else if scan_code =? 0x9d then
      '(_, s, tr) ← ps2_recv_x s tr;
      Some (None, s, tr)
    else Some (Some scan_code, s, tr)
  else Some (Some scan_code, s, tr).

(** The [0xe0] stage. *)
Definition main_e0 (scan_code : Z) (s : state) (tr : list Z)
    : option (option Z * state * list Z) :=
  if scan_code =? 0xe0 then
    '(scan_code, s, tr) ← ps2_recv_x s tr;
    if e0_keep scan_code then Some (Some scan_code, s, tr)
    else Some (None, s, tr)
  else Some (Some scan_code, s, tr).

(** The [switch] that removes unwanted scan codes and remaps code 54, and
    the range test after it. *)
Definition main_filter (scan_code : Z) : option Z :=
  let code := Z.land scan_code 0x7f in
  if in_discard_table code then None
  else
    let scan_code := if code =? 54 then Z.land scan_code 0x80 + 42 else scan_code in
    if (PS2_LAST_CODE <? Z.land (uint8 scan_code) 0x7f) || (scan_code =? 0) then None
    else Some scan_code.

(** What [main] does with a scan code it got from [ps2_recv], up to the call
    of [write_key]: the key code to store, if any. *)
Definition translate (scan_code : Z) (s : state) (tr : list Z)
    : option (option Z * state * list Z) :=
  '(r, s, tr) ← main_e1 scan_code s tr;
  match r with
  | None => Some (None, s, tr)
  | Some scan_code =>
      '(r, s, tr) ← main_e0 scan_code s tr;
      match r with
      | None => Some (None, s, tr)
      | Some scan_code => Some (main_filter scan_code, s, tr)
      end
  end.

(** One iteration of the [while ( 1 )] loop of [main].  [kdb_lock_state] is
    the local variable of [main]; its new value is returned with the
    state. *)
Definition main_loop_body (kdb_lock_state : Z) (s : state) (tr : list Z)
    : option (Z * state * list Z) :=
  let '(scan_code, s) := ps2_recv s in
  if negb (scan_code =? -1) then
    '(r, s, tr) ← translate scan_code s tr;
    match r with
    | None => Some (kdb_lock_state, s, tr)
    | Some scan_code =>
        let '(_, s) := write_key (uint8 scan_code) s in
        Some (kdb_lock_state, s, tr)
    end
  else if negb (kdb_lock_state =? kbd_lock_keys s) then
    '(_, s, tr) ← kdb_led_ctrl (uint8 (kbd_lock_keys s)) s tr;
    Some (uint8 (kbd_lock_keys s), s, tr)
  else Some (kdb_lock_state, s, tr).

(** The loop run [n] times. *)
Fixpoint main_loop (n : nat) (kdb_lock_state : Z) (s : state) (tr : list Z)
    : option (Z * state * list Z) :=
  match n with
  | O => Some (kdb_lock_state, s, tr)
  | S n' =>
      '(kdb_lock_state, s, tr) ← main_loop_body kdb_lock_state s tr;
      main_loop n' kdb_lock_state s tr
  end.

(** ** The host exchange

    One transfer on the host side: the shift register sends the byte staged
    in [USIDR] while it receives the byte of the host, then the overflow
    interrupt runs.  The result is the byte the host received and the new
    state. *)
Definition host_exchange (host_byte : Z) (s : state) : Z * state :=
  (USIDR (io s), USI_OVF_vect (with_io (with_USIDR (uint8 host_byte) (io s)) s)).

(** Successive transfers, with the bytes the host received in order. *)
Fixpoint host_exchanges (host_bytes : list Z) (s : state) : list Z * state :=
  match host_bytes with
  | [] => ([], s)
  | b :: bs =>
      let '(sent, s1) := host_exchange b s in
      let '(rest, s2) := host_exchanges bs s1 in
      (sent :: rest, s2)
  end.

(** ** Abstraction of the ring buffers *)

(** The index after [i] in a ring of [size] cells. *)
Definition ring_next (size i : Z) : Z := if i + 1 =? size then 0 else i + 1.

(** The [n] bytes stored from index [out] on, oldest first. *)
Fixpoint ring_contents (size : Z) (buf : list Z) (out : Z) (n : nat) : list Z :=
  match n with
  | O => []
  | S n' => array_get buf out :: ring_contents size buf (ring_next size out) n'
  end.

(** The scan codes waiting in the PS2 input buffer, oldest first. *)
Definition scan_contents (s : state) : list Z :=
  ring_contents PS2_BUFF_SIZE (ps2_scan_codes (scanq s)) (ps2_buffer_out (scanq s))
    (Z.to_nat (ps2_scan_code_count (scanq s))).

(** The key codes waiting in the output buffer, oldest first. *)
Definition key_contents (s : state) : list Z :=
  ring_contents KEY_BUFF_SIZE (key_codes (keyq s)) (key_buffer_out (keyq s))
    (Z.to_nat (key_code_count (keyq s))).

(** The representation invariant of a ring buffer. *)
Definition ring_wf (size : Z) (buf : list Z) (out inp count : Z) : Prop :=
  Z.of_nat (length buf) = size /\
  0 <= out < size /\
  0 <= count <= size /\
  inp = (out + count) mod size.

Definition scanq_wf (s : state) : Prop :=
  ring_wf PS2_BUFF_SIZE (ps2_scan_codes (scanq s)) (ps2_buffer_out (scanq s))
    (ps2_buffer_in (scanq s)) (ps2_scan_code_count (scanq s)).

Definition keyq_wf (s : state) : Prop :=
  ring_wf KEY_BUFF_SIZE (key_codes (keyq s)) (key_buffer_out (keyq s))
    (key_buffer_in (keyq s)) (key_code_count (keyq s)).

(** The ranges of the accumulators of the receiver: they stay far inside
    the C types that hold them. *)
Definition rx_wf (s : state) : Prop :=
  0 <= ps2_rx_bit_count (rx s) <= 8 /\
  0 <= ps2_rx_parity (rx s) <= ps2_rx_bit_count (rx s) /\
  0 <= ps2_rx_data_byte (rx s) < 256 /\
  (ps2_rx_state (rx s) = PS2_DATA_BITS -> ps2_rx_bit_count (rx s) < 8).

(** ** Frames on the keyboard wire

    The vocabulary of the receive protocol: a frame is a start bit, the data
    bits (least significant first), a parity bit and a stop bit, each
    presented on the data line at a falling edge of the clock. *)

Record frame : Type := mk_frame {
  start_bit : bool;
  data_bits : list bool;
  parity_bit : bool;
  stop_bit : bool
}.

Definition frame_bits (f : frame) : list bool :=
  start_bit f :: data_bits f ++ [parity_bit f; stop_bit f].

(** The value of a list of bits, least significant first. *)
Fixpoint byte_of_bits (bits : list bool) : Z :=
  match bits with
  | [] => 0
  | b :: bits' => Z.b2z b + 2 * byte_of_bits bits'
  end.

(** The number of 1s in a list of bits. *)
Fixpoint count_ones (bits : list bool) : Z :=
  match bits with
  | [] => 0
  | b :: bits' => Z.b2z b + count_ones bits'
  end.

(** Odd parity: the 1s among the data bits and the parity bit are odd in
    number. *)
Definition odd_parity (f : frame) : bool :=
  Z.odd (count_ones (data_bits f) + Z.b2z (parity_bit f)).

Definition valid_frame (f : frame) : Prop :=
  start_bit f = false /\
  length (data_bits f) = 8%nat /\
  odd_parity f = true /\
  stop_bit f = true.

(** The ways a frame of eight data bits can break the protocol. *)
Inductive frame_error : Set := BadStart | BadParity | BadStop.

Definition error_state (e : frame_error) : ps2_state_t :=
  match e with
  | BadStart => PS2_RX_ERR_START
  | BadParity => PS2_RX_ERR_PARITY
  | BadStop => PS2_RX_ERR_STOP
  end.

(** The frame breaks the rule [e] and keeps the other two. *)
Definition violates_only (e : frame_error) (f : frame) : Prop :=
  length (data_bits f) = 8%nat /\
  start_bit f = (match e with BadStart => true | _ => false end) /\
  odd_parity f = (match e with BadParity => false | _ => true end) /\
  stop_bit f = (match e with BadStop => false | _ => true end).

(** A sample of [PINB] taken at an active edge: the clock line (bit 3) is
    low and the data line (bit 4) carries [b]. *)
Definition low_edge (b : bool) (pinb : Z) : Prop :=
  Z.land pinb PS2_CLOCK = 0 /\ Z.testbit pinb 4 = b.

(** The four error states of the receiver. *)
Definition is_error (st : ps2_state_t) : bool :=
  match st with
  | PS2_RX_ERR_START | PS2_RX_ERR_OVERRUN | PS2_RX_ERR_PARITY | PS2_RX_ERR_STOP => true
  | _ => false
  end.

(** ** Vocabulary of the translator properties *)

(** The extended codes of the four navigation keys (0x48, 0x4B, 0x4D and
    0x50): the make codes and, with bit 7 set, the break codes. *)
Definition navigation_codes : list Z :=
  [0x48; 0x4B; 0x4D; 0x50; 0xC8; 0xCB; 0xCD; 0xD0].

(** The running firmware (interrupts enabled) with the scan codes [bytes],
    at most 32 of them, waiting in the PS2 input buffer. *)
Definition scan_loaded (bytes : list Z) : state :=
  with_io (with_SREG_I true (io initial_state))
    (with_scanq
       (mk_ps2_buffer (bytes ++ replicate (32 - length bytes) 0) 0
          (Z.of_nat (length bytes) mod PS2_BUFF_SIZE) (Z.of_nat (length bytes)))
       initial_state).

(** The running firmware with the key codes [keys], at most 32 of them,
    waiting in the output buffer. *)
Definition keys_loaded (keys : list Z) : state :=
  with_io (with_SREG_I true (io initial_state))
    (with_keyq
       (mk_key_buffer (keys ++ replicate (32 - length keys) 0)
          (Z.of_nat (length keys)) 0 (Z.of_nat (length keys) mod KEY_BUFF_SIZE))
       initial_state).

(** Both buffers full, the receiver about to sample a stop bit. *)
Definition full_state : state :=
  mk_state (mk_ps2_buffer (replicate 32 0x1E) 5 5 32)
           (mk_ps2_receiver PS2_STOP 0x1C 8 3)
           (mk_key_buffer (replicate 32 0x1E) 32 7 7)
           0 0
           (mk_io_regs 0x02 0 0 0x40 true).

(** The bytes staged in [USIDR] at the end of successive transfers. *)
Fixpoint staged_bytes (host_bytes : list Z) (s : state) : list Z :=
  match host_bytes with
  | [] => []
  | b :: bs =>
      let s1 := snd (host_exchange b s) in
      USIDR (io s1) :: staged_bytes bs s1
  end.

(** A list of bytes. *)
Definition all_bytes (l : list Z) : Prop := Forall (fun x => 0 <= x < 256) l.

(** ** A keyboard that answers

    What the keyboard does with the clock while the firmware sends: one
    pulse, a sample with the clock low and then one with the clock high, for
    each bit. *)
Definition good_pulse (p : Z * Z) : Prop :=
  Z.land (fst p) PS2_CLOCK = 0 /\ Z.land (snd p) PS2_CLOCK <> 0.

Definition pulse_train (ps : list (Z * Z)) : list Z :=
  flat_map (fun p => [fst p; snd p]) ps.

(** The globals and the registers that [ps2_send] leaves alone. *)
Definition same_but_pins (s s' : state) : Prop :=
  scanq s' = scanq s /\ keyq s' = keyq s /\
  command_in s' = command_in s /\ kbd_lock_keys s' = kbd_lock_keys s /\
  USIDR (io s') = USIDR (io s) /\ USISR (io s') = USISR (io s).

(** ** Vocabulary of the further properties *)

(** The bits of a byte, least significant first. *)
Definition bits_of_byte (byte : Z) : list bool :=
  map (fun i => Z.testbit byte (Z.of_nat i)) (seq 0 8).

(** The frame a conforming sender puts on the wire for a byte: start bit 0,
    the data bits, the bit that makes the parity odd, stop bit 1. *)
Definition frame_of_byte (byte : Z) : frame :=
  mk_frame false (bits_of_byte byte)
    (negb (Z.odd (count_ones (bits_of_byte byte)))) true.

(** Frames presented one after the other, each as its samples. *)
Definition frames_on_wire (fs : list frame) (pss : list (list Z)) : Prop :=
  Forall2 (fun f ps => Forall2 low_edge (frame_bits f) ps) fs pss.

(** [n] successive calls of [ps2_recv]: the results in order, and the state
    they leave. *)
Fixpoint ps2_recv_n (n : nat) (s : state) : list Z * state :=
  match n with
  | O => ([], s)
  | S n' =>
      let '(r, s1) := ps2_recv s in
      let '(rs, s2) := ps2_recv_n n' s1 in
      (r :: rs, s2)
  end.


(** The number of samples with the clock low. *)
Definition count_clock_low (tr : list Z) : nat :=
  length (List.filter (fun pinb => Z.land pinb PS2_CLOCK =? 0) tr).

(** A normalized key code: a nonzero byte whose low seven bits are at most
    0x50, are no case label of the discard [switch], and are not 54. *)
Definition key_code_okb (k : Z) : bool :=
  (0 <? k) && (k <? 256) && (Z.land k 0x7f <=? PS2_LAST_CODE) &&
  negb (in_discard_table (Z.land k 0x7f)) && negb (Z.land k 0x7f =? 54).

(** What a cell of the key code array, or the byte staged for the host, may
    hold: the initial 0 or a normalized key code. *)
Definition zero_or_key (k : Z) : Prop := k = 0 \/ key_code_okb k = true.

(** The invariant of the whole firmware: both rings well formed, the
    receiver's accumulators in range, bytes in the scan code array, and
    nothing but normalized key codes on the way to the host. *)
Definition firmware_ok (s : state) : Prop :=
  scanq_wf s /\ keyq_wf s /\ rx_wf s /\
  all_bytes (ps2_scan_codes (scanq s)) /\
  Forall zero_or_key (key_codes (keyq s)) /\
  zero_or_key (USIDR (io s)).

(** The parts of the state that only the host side and [ps2_send] write. *)
Definition scan_side_only (s s' : state) : Prop :=
  keyq s' = keyq s /\ io s' = io s /\
  command_in s' = command_in s /\ kbd_lock_keys s' = kbd_lock_keys s.

(** The loop of [ps2_send] with a record of the wire: the same loop, which
    also returns the values written to [PORTB], in order. *)
Fixpoint ps2_send_loop_wire (fuel : nat) (byte ps2_tx_parity ps2_tx_bit_count : Z)
    (s : state) (tr : list Z) : option (state * list Z * list Z) :=
  if ps2_tx_bit_count <? 10 then
    match fuel with
    | O => None
    | S fuel' =>
        let '(ps2_data_bit, ps2_tx_parity') :=
          if ps2_tx_bit_count <? 8 then
            (Z.land byte 0x01, ps2_tx_parity + Z.land byte 0x01)
          else if ps2_tx_bit_count =? 8 then
            (Z.land (uint8 ps2_tx_parity) 0x01, ps2_tx_parity)
          else
            (1, ps2_tx_parity) in
        tr1 ← wait_clock_low tr;
        let s1 :=
          if negb (ps2_data_bit =? 0) then
            with_io (with_PORTB (uint8 (Z.lor (PORTB (io s)) PS2_DATA)) (io s)) s
          else
            with_io (with_PORTB (uint8 (Z.land (PORTB (io s)) (Z.lnot PS2_DATA))) (io s)) s in
        tr2 ← wait_clock_high tr1;
        '(s2, tr3, wire) ← ps2_send_loop_wire fuel' (uint8 (Z.shiftr byte 1))
                             ps2_tx_parity' (ps2_tx_bit_count + 1) s1 tr2;
        Some (s2, tr3, PORTB (io s1) :: wire)
    end
  else Some (s, tr, []).

(** The level of the data line in a value of [PORTB] or [PINB]. *)
Definition data_line (portb : Z) : bool := Z.testbit portb 4.

(** The sample of the pins at a falling clock edge with the data line at
    level [b]. *)
Definition edge_sample (b : bool) : Z := if b then PS2_DATA else 0.

(** What a keyboard that answers does on the wire when the firmware sends
    it a byte: ten pulses of the clock, the acknowledge (a sample with the
    clock low, the sample read for the result, a sample with the clock
    high), and then the frame of its response. *)
Record reply : Type := mk_reply {
  reply_clocks : list (Z * Z);
  reply_ack_low : Z;
  reply_ack : Z;
  reply_ack_high : Z;
  reply_frame : frame;
  reply_samples : list Z
}.

Definition reply_ok (k : reply) : Prop :=
  length (reply_clocks k) = 10%nat /\
  Forall good_pulse (reply_clocks k) /\
  Z.land (reply_ack_low k) PS2_CLOCK = 0 /\
  Z.land (reply_ack_high k) PS2_CLOCK <> 0 /\
  valid_frame (reply_frame k) /\
  Forall2 low_edge (frame_bits (reply_frame k)) (reply_samples k).

Definition reply_trace (k : reply) : list Z :=
  pulse_train (reply_clocks k) ++
  reply_ack_low k :: reply_ack k :: reply_ack_high k :: reply_samples k.

Definition reply_byte (k : reply) : Z := byte_of_bits (data_bits (reply_frame k)).

(** The levels the loop of [ps2_send] puts on the data line, as the loop
    computes them: the same selection of [ps2_data_bit], without the waits
    and the port. *)
Fixpoint ps2_tx_bits (fuel : nat) (byte ps2_tx_parity ps2_tx_bit_count : Z)
    : list bool :=
  if ps2_tx_bit_count <? 10 then
    match fuel with
    | O => []
    | S fuel' =>
        let '(ps2_data_bit, ps2_tx_parity') :=
          if ps2_tx_bit_count <? 8 then
            (Z.land byte 0x01, ps2_tx_parity + Z.land byte 0x01)
          else if ps2_tx_bit_count =? 8 then
            (Z.land (uint8 ps2_tx_parity) 0x01, ps2_tx_parity)
          else
            (1, ps2_tx_parity) in
        negb (ps2_data_bit =? 0)
        :: ps2_tx_bits fuel' (uint8 (Z.shiftr byte 1)) ps2_tx_parity'
             (ps2_tx_bit_count + 1)
    end
  else [].

(** Equality of two lists of bits, as a test. *)
Fixpoint bits_eqb (a b : list bool) : bool :=
  match a, b with
  | [], [] => true
  | x :: a', y :: b' => Bool.eqb x y && bits_eqb a' b'
  | _, _ => false
  end.

(** ** The start of [main]

    The lock key masks of the LED command and the typematic setting that
    [main] requests. *)
Definition PS2_HK_SCRLOCK : Z := 1.
Definition PS2_HK_NUMLOCK : Z := 2.
Definition PS2_HK_CAPSLOCK : Z := 4.
Definition PS2_HK_TYPEMAT : Z := 0x7f.

(** [kbd_test_led]: the light test, ten LED commands whose results are
    dropped.  The delays between them take no samples. *)
Definition kbd_test_led (s : state) (tr : list Z) : option (state * list Z) :=
  '(_, s, tr) ← kdb_led_ctrl PS2_HK_SCRLOCK s tr;
  '(_, s, tr) ← kdb_led_ctrl 0 s tr;
  '(_, s, tr) ← kdb_led_ctrl PS2_HK_CAPSLOCK s tr;
  '(_, s, tr) ← kdb_led_ctrl 0 s tr;
  '(_, s, tr) ← kdb_led_ctrl PS2_HK_NUMLOCK s tr;
  '(_, s, tr) ← kdb_led_ctrl 0 s tr;
  '(_, s, tr) ← kdb_led_ctrl PS2_HK_CAPSLOCK s tr;
  '(_, s, tr) ← kdb_led_ctrl 0 s tr;
  '(_, s, tr) ← kdb_led_ctrl PS2_HK_SCRLOCK s tr;
  '(_, s, tr) ← kdb_led_ctrl 0 s tr;
  Some (s, tr).

(** What [main] does after [ioinit] and before its loop: the light test,
    the typematic setting, code set 1, and interrupts on. *)
Definition main_startup (s : state) (tr : list Z) : option (state * list Z) :=
  '(s, tr) ← kbd_test_led s tr;
  '(_, s, tr) ← kbd_typematic_set PS2_HK_TYPEMAT s tr;
  '(_, s, tr) ← kbd_code_set 1 s tr;
  Some (with_io (with_SREG_I true (io s)) s, tr).

(** The running firmware between two iterations of the loop of [main]:
    a change of the clock pin runs [PCINT0_vect], a completed transfer of
    the host runs [USI_OVF_vect], or the loop makes its next iteration. *)
Inductive event : Type :=
  | pin_change (pinb : Z)
  | host_transfer (host_byte : Z)
  | loop_iteration.

(** The firmware on a sequence of events.  The result has the bytes the
    host received, in order.  [tr] holds the samples of [PINB] taken inside
    the iterations, by [ps2_send] and the blocking reads. *)
Fixpoint firmware_run (evs : list event) (kdb_lock_state : Z) (s : state)
    (tr : list Z) : option (list Z * Z * state * list Z) :=
  match evs with
  | [] => Some ([], kdb_lock_state, s, tr)
  | pin_change pinb :: evs' =>
      firmware_run evs' kdb_lock_state (PCINT0_vect pinb s) tr
  | host_transfer host_byte :: evs' =>
      let '(sent, s) := host_exchange host_byte s in
      '(out, kdb_lock_state, s, tr) ← firmware_run evs' kdb_lock_state s tr;
      Some (sent :: out, kdb_lock_state, s, tr)
  | loop_iteration :: evs' =>
      '(kdb_lock_state, s, tr) ← main_loop_body kdb_lock_state s tr;
      firmware_run evs' kdb_lock_state s tr
  end.

(** [main] from the state [ioinit] leaves: the start, then the loop with
    the interrupts between its iterations; the local [kdb_lock_state]
    starts at 0. *)
Definition main (evs : list event) (tr : list Z)
    : option (list Z * Z * state * list Z) :=
  '(s, tr) ← main_startup initial_state tr;
  firmware_run evs 0 s tr.

(** LED commands one after the other, results dropped. *)
Fixpoint led_commands (args : list Z) (s : state) (tr : list Z)
    : option (state * list Z) :=
  match args with
  | [] => Some (s, tr)
  | arg :: args' =>
      '(_, s, tr) ← kdb_led_ctrl arg s tr;
      led_commands args' s tr
  end.

(** The two replies of a keyboard to a command with a parameter: to the
    command byte and to the parameter byte.  The command is acknowledged
    when the first reply carries 0xFA. *)
Definition exchange_trace (p : reply * reply) : list Z :=
  reply_trace (fst p) ++ reply_trace (snd p).

Definition command_acknowledged (p : reply * reply) : Prop :=
  reply_ok (fst p) /\ reply_ok (snd p) /\ reply_byte (fst p) = PS2_KH_ACK.

(** A reply on clean pulses to the byte [byte], with the acknowledge bit
    low. *)
Definition clean_reply (byte : Z) : reply :=
  mk_reply (replicate 10 (0, 8)) 0 0 8 (frame_of_byte byte)
    (map edge_sample (frame_bits (frame_of_byte byte))).

(** * Proofs *)

(** The invariant of a ring buffer in a concrete state holds by
    computation. *)
Ltac wf_by_computation :=
  repeat split; vm_compute; (reflexivity || discriminate).

(** ** Arithmetic of ring indices *)

Section Ring.

(** The number of cells of the ring. *)
Variable size : Z.

Lemma ring_index_mod (out n : Z) :
  0 <= out < size -> 0 <= n <= size ->
  (out + n) mod size = if out + n <? size then out + n else out + n - size.
Proof.
  intros Ho Hn. destruct (Z.ltb_spec (out + n) size) as [Hlt | Hge].
  - apply Z.mod_small. lia.
  - symmetry. apply (Z.mod_unique _ _ 1); lia.
Qed.

Lemma ring_next_mod (out : Z) :
  0 <= out < size -> ring_next size out = (out + 1) mod size.
Proof.
  intros Ho. unfold ring_next. rewrite ring_index_mod by lia.
  destruct (Z.eqb_spec (out + 1) size), (Z.ltb_spec (out + 1) size); lia.
Qed.

Lemma ring_next_range (out : Z) :
  0 <= out < size -> 0 <= ring_next size out < size.
Proof.
  intros Ho. unfold ring_next. destruct (Z.eqb_spec (out + 1) size); lia.
Qed.

Lemma ring_next_shift (out n : Z) :
  0 <= out < size -> 1 <= n <= size ->
  (ring_next size out + (n - 1)) mod size = (out + n) mod size.
Proof.
  intros Ho Hn. pose proof (ring_next_range out Ho) as Hr.
  rewrite !ring_index_mod by lia. unfold ring_next in *.
  destruct (Z.eqb_spec (out + 1) size);
    repeat match goal with |- context [?a <? ?b] => destruct (Z.ltb_spec a b) end; lia.
Qed.

(** ** Contents of a ring *)

Lemma array_get_set_eq (a : list Z) (i v : Z) :
  0 <= i < Z.of_nat (length a) -> array_get (array_set a i v) i = v.
Proof.
  intros Hi. unfold array_get, array_set.
  rewrite list_lookup_insert_eq by lia. reflexivity.
Qed.

Lemma array_get_set_ne (a : list Z) (i j v : Z) :
  0 <= i -> 0 <= j -> i <> j -> array_get (array_set a i v) j = array_get a j.
Proof.
  intros Hi Hj Hne. unfold array_get, array_set.
  rewrite list_lookup_insert_ne by lia. reflexivity.
Qed.

Lemma array_set_length (a : list Z) (i v : Z) :
  length (array_set a i v) = length a.
Proof. apply length_insert. Qed.

(** A write at the input index leaves the stored bytes alone. *)
Lemma ring_contents_set_free (buf : list Z) (v : Z) (n : nat) :
  forall out : Z,
    0 <= out < size -> Z.of_nat n < size ->
    ring_contents size (array_set buf ((out + Z.of_nat n) mod size) v) out n
    = ring_contents size buf out n.
Proof.
  induction n as [| n IH]; intros out Ho Hn; [reflexivity |].
  cbn [ring_contents]. f_equal.
  - apply array_get_set_ne; [| lia |].
    + apply Z.mod_pos_bound. lia.
    + rewrite ring_index_mod by lia.
      destruct (Z.ltb_spec (out + Z.of_nat (S n)) size); lia.
  - rewrite <- (ring_next_shift out (Z.of_nat (S n))) by lia.
    replace (Z.of_nat (S n) - 1) with (Z.of_nat n) by lia.
    apply IH; [apply ring_next_range; lia | lia].
Qed.

(** The newest byte is the last of the contents. *)
Lemma ring_contents_snoc (buf : list Z) (n : nat) :
  forall out : Z,
    0 <= out < size -> Z.of_nat n < size ->
    ring_contents size buf out (S n)
    = ring_contents size buf out n ++ [array_get buf ((out + Z.of_nat n) mod size)].
Proof.
  induction n as [| n IH]; intros out Ho Hn.
  - cbn. rewrite Z.add_0_r, Z.mod_small by lia. reflexivity.
  - change (ring_contents size buf out (S (S n)))
      with (array_get buf out :: ring_contents size buf (ring_next size out) (S n)).
    rewrite IH by (try apply ring_next_range; lia).
    rewrite <- (ring_next_shift out (Z.of_nat (S n))) by lia.
    replace (Z.of_nat (S n) - 1) with (Z.of_nat n) by lia.
    reflexivity.
Qed.

(** A push appends to the contents. *)
Lemma ring_contents_push (buf : list Z) (out v : Z) (n : nat) :
  Z.of_nat (length buf) = size -> 0 <= out < size -> Z.of_nat n < size ->
  ring_contents size (array_set buf ((out + Z.of_nat n) mod size) v) out (S n)
  = ring_contents size buf out n ++ [v].
Proof.
  intros Hlen Ho Hn. rewrite ring_contents_snoc by lia.
  rewrite ring_contents_set_free by lia. f_equal. f_equal.
  apply array_get_set_eq. rewrite Hlen. apply Z.mod_pos_bound. lia.
Qed.

Lemma ring_contents_length (buf : list Z) (n : nat) :
  forall out : Z, length (ring_contents size buf out n) = n.
Proof. induction n as [| n IH]; intros out; cbn; [reflexivity | now rewrite IH]. Qed.

(** The invariant and the contents under a pop and a push. *)
Lemma ring_pop (buf : list Z) (out inp count : Z) :
  ring_wf size buf out inp count -> 0 < count ->
  ring_wf size buf (ring_next size out) inp (count - 1) /\
  ring_contents size buf out (Z.to_nat count)
  = array_get buf out
    :: ring_contents size buf (ring_next size out) (Z.to_nat (count - 1)).
Proof.
  intros (Hlen & Ho & Hc & Hin) Hpos. split.
  - repeat split; try lia; try (apply ring_next_range; lia).
    rewrite ring_next_shift by lia. exact Hin.
  - replace (Z.to_nat count) with (S (Z.to_nat (count - 1))) by lia. reflexivity.
Qed.

Lemma ring_push (buf : list Z) (out inp count v : Z) :
  ring_wf size buf out inp count -> count < size ->
  ring_wf size (array_set buf inp v) out (ring_next size inp) (count + 1) /\
  ring_contents size (array_set buf inp v) out (Z.to_nat (count + 1))
  = ring_contents size buf out (Z.to_nat count) ++ [v].
Proof.
  intros (Hlen & Ho & Hc & Hin) Hroom. split.
  - repeat split; try lia.
    + rewrite array_set_length. exact Hlen.
    + assert (0 <= inp < size) as Hi by (subst inp; apply Z.mod_pos_bound; lia).
      rewrite ring_next_mod by exact Hi. subst inp.
      rewrite Z.add_mod_idemp_l by lia. f_equal. lia.
  - replace (Z.to_nat (count + 1)) with (S (Z.to_nat count)) by lia.
    subst inp. rewrite <- (Z2Nat.id count) at 1 by lia.
    apply ring_contents_push; lia.
Qed.

Lemma ring_contents_nil_count (buf : list Z) (out count : Z) :
  0 <= count -> ring_contents size buf out (Z.to_nat count) = [] -> count = 0.
Proof.
  intros Hc H. apply (f_equal (@length Z)) in H.
  rewrite ring_contents_length in H. cbn in H. lia.
Qed.

Lemma ring_contents_cons_count (buf : list Z) (out count x : Z) (l : list Z) :
  ring_contents size buf out (Z.to_nat count) = x :: l -> 0 < count.
Proof.
  intros H. apply (f_equal (@length Z)) in H.
  rewrite ring_contents_length in H. cbn in H. lia.
Qed.

End Ring.

(** ** The queue operations on the contents *)

Lemma ps2_recv_empty (s : state) :
  ps2_scan_code_count (scanq s) <= 0 -> ps2_recv s = (-1, s).
Proof.
  intros H. unfold ps2_recv.
  destruct (Z.ltb_spec 0 (ps2_scan_code_count (scanq s))); [lia | reflexivity].
Qed.

Lemma ps2_recv_cons (s : state) (x : Z) (rest : list Z) :
  scanq_wf s -> scan_contents s = x :: rest ->
  exists q, ps2_recv s = (x, with_scanq q s) /\
            scan_contents (with_scanq q s) = rest /\
            scanq_wf (with_scanq q s).
Proof.
  intros Hwf Hc. pose proof (ring_contents_cons_count _ _ _ _ _ _ Hc) as Hpos.
  destruct (ring_pop _ _ _ _ _ Hwf Hpos) as [Hwf' Heq].
  unfold scan_contents in Hc. rewrite Heq in Hc. injection Hc as Hx Hrest.
  unfold ps2_recv.
  destruct (Z.ltb_spec 0 (ps2_scan_code_count (scanq s))); [| lia].
  eexists. split; [rewrite Hx; reflexivity |]. split; [exact Hrest | exact Hwf'].
Qed.

Lemma read_key_empty (s : state) :
  key_code_count (keyq s) <= 0 -> read_key s = (-1, s).
Proof.
  intros H. unfold read_key.
  destruct (Z.ltb_spec 0 (key_code_count (keyq s))); [lia | reflexivity].
Qed.

Lemma read_key_cons (s : state) (x : Z) (rest : list Z) :
  keyq_wf s -> key_contents s = x :: rest ->
  exists q, read_key s = (x, with_keyq q s) /\
            key_contents (with_keyq q s) = rest /\
            keyq_wf (with_keyq q s).
Proof.
  intros Hwf Hc. pose proof (ring_contents_cons_count _ _ _ _ _ _ Hc) as Hpos.
  destruct (ring_pop _ _ _ _ _ Hwf Hpos) as [Hwf' Heq].
  unfold key_contents in Hc. rewrite Heq in Hc. injection Hc as Hx Hrest.
  unfold read_key.
  destruct (Z.ltb_spec 0 (key_code_count (keyq s))); [| lia].
  eexists. split; [rewrite Hx; reflexivity |]. split; [exact Hrest | exact Hwf'].
Qed.

Lemma write_key_full (key_code : Z) (s : state) :
  KEY_BUFF_SIZE <= key_code_count (keyq s) -> write_key key_code s = (-1, s).
Proof.
  intros H. unfold write_key.
  destruct (Z.ltb_spec (key_code_count (keyq s)) KEY_BUFF_SIZE); [lia | reflexivity].
Qed.

Lemma write_key_room (key_code : Z) (s : state) :
  keyq_wf s -> key_code_count (keyq s) < KEY_BUFF_SIZE ->
  exists q, write_key key_code s = (key_code, with_keyq q s) /\
            key_contents (with_keyq q s) = key_contents s ++ [key_code] /\
            keyq_wf (with_keyq q s).
Proof.
  intros Hwf Hroom.
  destruct (ring_push _ _ _ _ _ key_code Hwf Hroom) as [Hwf' Heq].
  unfold write_key.
  destruct (Z.ltb_spec (key_code_count (keyq s)) KEY_BUFF_SIZE); [| lia].
  eexists. split; [reflexivity |]. split; [exact Heq | exact Hwf'].
Qed.

(** ** The receive state machine *)

Lemma data_bit_of_pinb (pinb : Z) :
  Z.shiftr (Z.land pinb PS2_DATA) 4 = Z.b2z (Z.testbit pinb 4).
Proof.
  apply Z.bits_inj'. intros n Hn.
  rewrite Z.shiftr_spec, Z.land_spec by lia.
  unfold PS2_DATA. change 0x10 with (2 ^ 4). rewrite Z.pow2_bits_eqb by lia.
  destruct (Z.eqb_spec 4 (n + 4)) as [E | E].
  - assert (n = 0) by lia. subst n. change (0 + 4) with 4. rewrite andb_true_r.
    destruct (Z.testbit pinb 4); reflexivity.
  - rewrite andb_false_r. destruct (Z.testbit pinb 4); cbn [Z.b2z].
    + symmetry. change 1 with (2 ^ 0). rewrite Z.pow2_bits_eqb by lia.
      apply Z.eqb_neq. lia.
    + symmetry. apply Z.bits_0.
Qed.

Lemma odd_land_1 (x : Z) : (Z.land x 1 =? 0) = negb (Z.odd x).
Proof.
  change 1 with (Z.ones 1). rewrite Z.land_ones by lia.
  change (2 ^ 1) with 2. rewrite Zmod_odd. destruct (Z.odd x); reflexivity.
Qed.

(** A pin change that leaves the clock high is ignored. *)
Lemma PCINT0_clock_high (pinb : Z) (s : state) :
  Z.land pinb PS2_CLOCK <> 0 -> PCINT0_vect pinb s = s.
Proof.
  intros H. unfold PCINT0_vect.
  destruct (Z.eqb_spec (Z.land pinb PS2_CLOCK) 0); [contradiction | reflexivity].
Qed.

(** The error states latch: no sample changes anything. *)
Lemma PCINT0_error_latched (pinb : Z) (s : state) :
  is_error (ps2_rx_state (rx s)) = true -> PCINT0_vect pinb s = s.
Proof.
  intros H. unfold PCINT0_vect.
  destruct (Z.land pinb PS2_CLOCK =? 0); [| reflexivity].
  destruct (ps2_rx_state (rx s)); try discriminate; reflexivity.
Qed.

Lemma run_PCINT0_error_latched (pinbs : list Z) (s : state) :
  is_error (ps2_rx_state (rx s)) = true -> run_PCINT0 pinbs s = s.
Proof.
  intros H. induction pinbs as [| pinb pinbs IH]; [reflexivity |].
  unfold run_PCINT0 in *. cbn [foldl]. rewrite PCINT0_error_latched by exact H.
  exact IH.
Qed.

Lemma run_PCINT0_app (p1 p2 : list Z) (s : state) :
  run_PCINT0 (p1 ++ p2) s = run_PCINT0 p2 (run_PCINT0 p1 s).
Proof. unfold run_PCINT0. apply foldl_app. Qed.

Lemma PCINT0_idle (b : bool) (pinb : Z) (s : state) :
  ps2_rx_state (rx s) = PS2_IDLE -> low_edge b pinb ->
  PCINT0_vect pinb s =
  if b then with_rx_state PS2_RX_ERR_START s
  else with_rx (mk_ps2_receiver PS2_DATA_BITS 0 0 0) s.
Proof.
  intros Hst [Hclk Hbit]. unfold PCINT0_vect.
  rewrite Hclk, Hst, data_bit_of_pinb, Hbit. destruct b; reflexivity.
Qed.

Lemma PCINT0_parity (b : bool) (pinb : Z) (s : state) :
  ps2_rx_state (rx s) = PS2_PARITY -> low_edge b pinb ->
  PCINT0_vect pinb s =
  if Z.odd (ps2_rx_parity (rx s) + Z.b2z b) then with_rx_state PS2_STOP s
  else with_rx_state PS2_RX_ERR_PARITY s.
Proof.
  intros Hst [Hclk Hbit]. unfold PCINT0_vect.
  rewrite Hclk, Hst, data_bit_of_pinb, Hbit, odd_land_1, negb_involutive.
  reflexivity.
Qed.

Lemma PCINT0_stop (b : bool) (pinb : Z) (s : state) :
  ps2_rx_state (rx s) = PS2_STOP -> low_edge b pinb ->
  PCINT0_vect pinb s =
  if b then
    if ps2_scan_code_count (scanq s) <? PS2_BUFF_SIZE then
      with_rx_state PS2_IDLE
        (with_scanq
           (mk_ps2_buffer
              (array_set (ps2_scan_codes (scanq s)) (ps2_buffer_in (scanq s))
                 (ps2_rx_data_byte (rx s)))
              (ps2_buffer_out (scanq s))
              (ring_next PS2_BUFF_SIZE (ps2_buffer_in (scanq s)))
              (ps2_scan_code_count (scanq s) + 1)) s)
    else with_rx_state PS2_RX_ERR_OVERRUN s
  else with_rx_state PS2_RX_ERR_STOP s.
Proof.
  intros Hst [Hclk Hbit]. unfold PCINT0_vect.
  rewrite Hclk, Hst, data_bit_of_pinb, Hbit. destruct b; reflexivity.
Qed.

Lemma with_rx_same (s : state) : with_rx (rx s) s = s.
Proof. destruct s; reflexivity. Qed.

Lemma PCINT0_data_bit (b : bool) (pinb : Z) (s : state) (v k p : Z) :
  rx s = mk_ps2_receiver PS2_DATA_BITS v k p -> low_edge b pinb ->
  0 <= k < 8 -> 0 <= v < 2 ^ k ->
  PCINT0_vect pinb s =
  with_rx (mk_ps2_receiver (if k + 1 =? 8 then PS2_PARITY else PS2_DATA_BITS)
             (v + 2 ^ k * Z.b2z b) (k + 1) (p + Z.b2z b)) s.
Proof.
  intros Hrx [Hclk Hbit] Hk Hv. unfold PCINT0_vect.
  rewrite Hclk, Hrx, data_bit_of_pinb, Hbit. cbn [Z.eqb ps2_rx_state
    ps2_rx_data_byte ps2_rx_bit_count ps2_rx_parity].
  assert (2 ^ k * 2 = 2 ^ (k + 1)) as Hp by (rewrite Z.pow_add_r by lia; lia).
  assert (2 ^ (k + 1) <= 2 ^ 8) as Hle by (apply Z.pow_le_mono_r; lia).
  change (2 ^ 8) with 256 in Hle.
  assert (0 <= Z.b2z b <= 1) as Hb by (destruct b; cbn; lia).
  rewrite Z.shiftl_mul_pow2 by lia. unfold uint8.
  rewrite (Z.mod_small (Z.b2z b * 2 ^ k)) by nia.
  rewrite Z.mod_small by nia.
  rewrite (Z.mul_comm (Z.b2z b)). reflexivity.
Qed.

Lemma run_PCINT0_data_bits (bits : list bool) :
  forall (pinbs : list Z) (s : state) (v k p : Z),
    rx s = mk_ps2_receiver (if k =? 8 then PS2_PARITY else PS2_DATA_BITS) v k p ->
    Forall2 low_edge bits pinbs ->
    0 <= k -> k + Z.of_nat (length bits) <= 8 -> 0 <= v < 2 ^ k ->
    run_PCINT0 pinbs s =
    with_rx (mk_ps2_receiver
               (if k + Z.of_nat (length bits) =? 8 then PS2_PARITY else PS2_DATA_BITS)
               (v + 2 ^ k * byte_of_bits bits)
               (k + Z.of_nat (length bits))
               (p + count_ones bits)) s.
Proof.
  induction bits as [| b bits IH]; intros pinbs s v k p Hrx Hedges Hk Hlen Hv.
  - apply Forall2_nil_inv_l in Hedges. subst pinbs.
    cbn [length byte_of_bits count_ones Z.of_nat run_PCINT0 foldl].
    rewrite !Z.add_0_r, Z.mul_0_r, Z.add_0_r, <- Hrx. symmetry. apply with_rx_same.
  - apply Forall2_cons_inv_l in Hedges as (pinb & pinbs' & Hedge & Hedges & ->).
    cbn [length] in Hlen. assert (k < 8) as Hk8 by lia.
    destruct (Z.eqb_spec k 8) as [| _]; [lia |].
    unfold run_PCINT0. cbn [foldl]. fold (run_PCINT0 pinbs' (PCINT0_vect pinb s)).
    rewrite (PCINT0_data_bit b pinb s v k p Hrx Hedge) by lia.
    assert (2 ^ (k + 1) = 2 * 2 ^ k) as Hp by (rewrite Z.pow_add_r by lia; lia).
    assert (0 <= Z.b2z b <= 1) as Hb by (destruct b; cbn; lia).
    rewrite (IH pinbs' _ (v + 2 ^ k * Z.b2z b) (k + 1) (p + Z.b2z b));
      [| reflexivity | exact Hedges | lia | lia | nia].
    cbn [length byte_of_bits count_ones].
    replace (k + 1 + Z.of_nat (length bits)) with (k + Z.of_nat (S (length bits))) by lia.
    rewrite Hp. unfold with_rx. cbn [scanq keyq command_in kbd_lock_keys io].
    f_equal. f_equal; ring.
Qed.

(** From idle, a start bit and eight data bits leave the receiver waiting
    for the parity bit, with the byte assembled and the 1s counted. *)
Lemma run_PCINT0_start_data (s : state) (bits : list bool) (pinbs : list Z) :
  ps2_rx_state (rx s) = PS2_IDLE -> length bits = 8%nat ->
  Forall2 low_edge (false :: bits) pinbs ->
  run_PCINT0 pinbs s =
  with_rx (mk_ps2_receiver PS2_PARITY (byte_of_bits bits) 8 (count_ones bits)) s.
Proof.
  intros Hidle Hlen Hedges.
  apply Forall2_cons_inv_l in Hedges as (pinb & pinbs' & Hedge & Hedges & ->).
  unfold run_PCINT0. cbn [foldl]. fold (run_PCINT0 pinbs' (PCINT0_vect pinb s)).
  rewrite (PCINT0_idle false pinb s Hidle Hedge).
  rewrite (run_PCINT0_data_bits bits pinbs' _ 0 0 0);
    [| reflexivity | exact Hedges | lia | lia | cbn; lia].
  rewrite Hlen. cbn [Z.of_nat Pos.of_succ_nat Pos.succ Z.add Z.eqb Pos.eqb].
  change (2 ^ 0) with 1. rewrite Z.mul_1_l. reflexivity.
Qed.

Lemma byte_of_bits_range (bits : list bool) :
  0 <= byte_of_bits bits < 2 ^ Z.of_nat (length bits).
Proof.
  induction bits as [| b bits IH]; [cbn; lia |].
  cbn [byte_of_bits length]. rewrite Nat2Z.inj_succ, Z.pow_succ_r by lia.
  destruct b; cbn [Z.b2z]; lia.
Qed.

(** The 11 samples of a frame, split as the receiver consumes them. *)
Lemma frame_edges_split (f : frame) (pinbs : list Z) :
  Forall2 low_edge (frame_bits f) pinbs ->
  exists p_start p_data p_parity p_stop,
    pinbs = p_start :: p_data ++ [p_parity; p_stop] /\
    low_edge (start_bit f) p_start /\
    Forall2 low_edge (data_bits f) p_data /\
    low_edge (parity_bit f) p_parity /\
    low_edge (stop_bit f) p_stop.
Proof.
  unfold frame_bits. intros H.
  apply Forall2_cons_inv_l in H as (p_start & tl & Hs & H & ->).
  apply Forall2_app_inv_l in H as (p_data & tl2 & Hd & H & ->).
  apply Forall2_cons_inv_l in H as (p_parity & tl3 & Hp & H & ->).
  apply Forall2_cons_inv_l in H as (p_stop & tl4 & Ht & H & ->).
  apply Forall2_nil_inv_l in H as ->.
  exists p_start, p_data, p_parity, p_stop. auto 6.
Qed.

Lemma run_PCINT0_cons (pinb : Z) (pinbs : list Z) (s : state) :
  run_PCINT0 (pinb :: pinbs) s = run_PCINT0 pinbs (PCINT0_vect pinb s).
Proof. reflexivity. Qed.

(** The receive handler keeps the invariant of the scan code buffer. *)
Lemma PCINT0_scanq_wf (pinb : Z) (s : state) :
  scanq_wf s -> scanq_wf (PCINT0_vect pinb s).
Proof.
  intros Hwf. unfold PCINT0_vect.
  destruct (Z.land pinb PS2_CLOCK =? 0); [| exact Hwf].
  destruct (ps2_rx_state (rx s)); try exact Hwf.
  - destruct (_ =? 0); exact Hwf.
  - destruct (negb _); exact Hwf.
  - destruct (_ =? 1); [| exact Hwf].
    destruct (Z.ltb_spec (ps2_scan_code_count (scanq s)) PS2_BUFF_SIZE)
      as [Hroom |]; [| exact Hwf].
    exact (proj1 (ring_push _ _ _ _ _ (ps2_rx_data_byte (rx s)) Hwf Hroom)).
Qed.

(** C1.  A valid 11-bit frame (start bit 0, eight data bits, odd parity,
    stop bit 1), presented as successive low clock edges to a receiver that
    is idle and whose scan code buffer has room, leaves the receiver idle
    and the buffer longer by exactly one byte: the data bits read least
    significant first. *)
Theorem valid_frame_received (s : state) (f : frame) (pinbs : list Z) :
  ps2_rx_state (rx s) = PS2_IDLE ->
  scanq_wf s ->
  ps2_scan_code_count (scanq s) < PS2_BUFF_SIZE ->
  valid_frame f ->
  Forall2 low_edge (frame_bits f) pinbs ->
  let s' := run_PCINT0 pinbs s in
  ps2_rx_state (rx s') = PS2_IDLE /\
  scan_contents s' = scan_contents s ++ [byte_of_bits (data_bits f)] /\
  ps2_scan_code_count (scanq s') = ps2_scan_code_count (scanq s) + 1 /\
  0 <= byte_of_bits (data_bits f) < 256 /\
  scanq_wf s' /\
  keyq s' = keyq s.
Proof.
  intros Hidle Hwf Hroom (Hstart & Hlen & Hpar & Hstop) Hedges s'. subst s'.
  destruct (frame_edges_split f pinbs Hedges)
    as (p0 & pd & pp & pt & -> & E0 & Ed & Ep & Et).
  rewrite Hstart in E0. rewrite Hstop in Et.
  change (p0 :: pd ++ [pp; pt]) with ((p0 :: pd) ++ [pp; pt]).
  rewrite run_PCINT0_app, (run_PCINT0_start_data s (data_bits f) (p0 :: pd) Hidle Hlen)
    by (constructor; assumption).
  rewrite !run_PCINT0_cons.
  rewrite (PCINT0_parity (parity_bit f) pp) by (reflexivity || exact Ep).
  cbn [rx with_rx ps2_rx_parity]. unfold odd_parity in Hpar. rewrite Hpar.
  rewrite (PCINT0_stop true pt) by (reflexivity || exact Et).
  cbn [scanq with_rx_state with_rx with_scanq rx keyq ps2_scan_code_count
       ps2_rx_data_byte ps2_buffer_in ps2_buffer_out ps2_scan_codes].
  destruct (Z.ltb_spec (ps2_scan_code_count (scanq s)) PS2_BUFF_SIZE); [| lia].
  destruct (ring_push _ _ _ _ _ (byte_of_bits (data_bits f)) Hwf Hroom) as [Hwf' Hc].
  pose proof (byte_of_bits_range (data_bits f)) as Hr. rewrite Hlen in Hr.
  change (2 ^ Z.of_nat 8) with 256 in Hr.
  exact (conj eq_refl (conj Hc (conj eq_refl (conj Hr (conj Hwf' eq_refl))))).
Qed.

(** C1, at a frame: the byte 0x1C sent to the receiver after reset. *)
Lemma valid_frame_received_witness :
  let s' := run_PCINT0 [0; 0; 0; 16; 16; 16; 0; 0; 0; 0; 16] initial_state in
  ps2_rx_state (rx s') = PS2_IDLE /\
  scan_contents s' = scan_contents initial_state ++ [0x1C] /\
  ps2_scan_code_count (scanq s') = ps2_scan_code_count (scanq initial_state) + 1 /\
  0 <= 0x1C < 256 /\
  scanq_wf s' /\
  keyq s' = keyq initial_state.
Proof.
  apply (valid_frame_received initial_state
           (mk_frame false [false; false; true; true; true; false; false; false]
              false true)).
  - reflexivity.
  - wf_by_computation.
  - reflexivity.
  - repeat split.
  - repeat constructor.
Defined.

(** C2.  A frame of eight data bits that breaks exactly one of the three
    rules (start bit 0, odd parity, stop bit 1), presented to an idle
    receiver, leaves it in the error state of that rule with both buffers
    as they were; after that no sample of the pins changes the state. *)
Theorem malformed_frame_latches (s : state) (f : frame) (e : frame_error)
    (pinbs later : list Z) :
  ps2_rx_state (rx s) = PS2_IDLE ->
  violates_only e f ->
  Forall2 low_edge (frame_bits f) pinbs ->
  let s' := run_PCINT0 pinbs s in
  ps2_rx_state (rx s') = error_state e /\
  scanq s' = scanq s /\
  keyq s' = keyq s /\
  run_PCINT0 later s' = s'.
Proof.
  intros Hidle (Hlen & Hstart & Hpar & Hstop) Hedges s'.
  assert (ps2_rx_state (rx s') = error_state e /\ scanq s' = scanq s /\
          keyq s' = keyq s) as Hmain.
  { subst s'.
    destruct (frame_edges_split f pinbs Hedges)
      as (p0 & pd & pp & pt & -> & E0 & Ed & Ep & Et).
    destruct e.
    - rewrite Hstart in E0.
      rewrite run_PCINT0_cons, (PCINT0_idle true p0 s Hidle E0).
      rewrite run_PCINT0_error_latched by reflexivity. repeat split.
    - rewrite Hstart in E0. rewrite Hstop in Et.
      change (p0 :: pd ++ [pp; pt]) with ((p0 :: pd) ++ [pp; pt]).
      rewrite run_PCINT0_app,
        (run_PCINT0_start_data s (data_bits f) (p0 :: pd) Hidle Hlen)
        by (constructor; assumption).
      rewrite run_PCINT0_cons.
      rewrite (PCINT0_parity (parity_bit f) pp) by (reflexivity || exact Ep).
      cbn [rx with_rx ps2_rx_parity]. unfold odd_parity in Hpar. rewrite Hpar.
      rewrite run_PCINT0_error_latched by reflexivity. repeat split.
    - rewrite Hstart in E0. rewrite Hstop in Et.
      change (p0 :: pd ++ [pp; pt]) with ((p0 :: pd) ++ [pp; pt]).
      rewrite run_PCINT0_app,
        (run_PCINT0_start_data s (data_bits f) (p0 :: pd) Hidle Hlen)
        by (constructor; assumption).
      rewrite !run_PCINT0_cons.
      rewrite (PCINT0_parity (parity_bit f) pp) by (reflexivity || exact Ep).
      cbn [rx with_rx ps2_rx_parity]. unfold odd_parity in Hpar. rewrite Hpar.
      rewrite (PCINT0_stop false pt) by (reflexivity || exact Et).
      repeat split. }
  destruct Hmain as (Hst & Hq & Hk). repeat split; try assumption.
  apply run_PCINT0_error_latched. rewrite Hst. destruct e; reflexivity.
Qed.

(** C2, at a frame: the byte 0x1C sent with the wrong parity bit. *)
Lemma malformed_frame_latches_witness :
  let s' := run_PCINT0 [0; 0; 0; 16; 16; 16; 0; 0; 0; 16; 16] initial_state in
  ps2_rx_state (rx s') = PS2_RX_ERR_PARITY /\
  scanq s' = scanq initial_state /\
  keyq s' = keyq initial_state /\
  run_PCINT0 [0; 16; 8; 24; 0] s' = s'.
Proof.
  apply (malformed_frame_latches initial_state
           (mk_frame false [false; false; true; true; true; false; false; false]
              true true) BadParity).
  - reflexivity.
  - repeat split.
  - repeat constructor.
Defined.

(** ** Bounds and idempotence of the ring buffers *)

Lemma PCINT0_full (pinb : Z) (s : state) :
  PS2_BUFF_SIZE <= ps2_scan_code_count (scanq s) ->
  scanq (PCINT0_vect pinb s) = scanq s.
Proof.
  intros Hfull. unfold PCINT0_vect.
  destruct (Z.land pinb PS2_CLOCK =? 0); [| reflexivity].
  destruct (ps2_rx_state (rx s)); try reflexivity.
  - destruct (_ =? 0); reflexivity.
  - destruct (negb _); reflexivity.
  - destruct (_ =? 1); [| reflexivity].
    destruct (Z.ltb_spec (ps2_scan_code_count (scanq s)) PS2_BUFF_SIZE);
      [lia | reflexivity].
Qed.

Lemma run_PCINT0_full (pinbs : list Z) :
  forall s : state,
    PS2_BUFF_SIZE <= ps2_scan_code_count (scanq s) ->
    scanq (run_PCINT0 pinbs s) = scanq s.
Proof.
  induction pinbs as [| pinb pinbs IH]; intros s Hfull; [reflexivity |].
  rewrite run_PCINT0_cons, IH; rewrite PCINT0_full by exact Hfull;
    [reflexivity | exact Hfull].
Qed.

Lemma PCINT0_count_bounds (pinb : Z) (s : state) :
  0 <= ps2_scan_code_count (scanq s) <= PS2_BUFF_SIZE ->
  0 <= ps2_scan_code_count (scanq (PCINT0_vect pinb s)) <= PS2_BUFF_SIZE.
Proof.
  intros Hb. unfold PCINT0_vect.
  destruct (Z.land pinb PS2_CLOCK =? 0); [| exact Hb].
  destruct (ps2_rx_state (rx s)); try exact Hb.
  - destruct (_ =? 0); exact Hb.
  - destruct (negb _); exact Hb.
  - destruct (_ =? 1); [| exact Hb].
    destruct (Z.ltb_spec (ps2_scan_code_count (scanq s)) PS2_BUFF_SIZE);
      [| exact Hb].
    cbn. lia.
Qed.

Lemma ps2_recv_count_bounds (s : state) :
  0 <= ps2_scan_code_count (scanq s) <= PS2_BUFF_SIZE ->
  0 <= ps2_scan_code_count (scanq (snd (ps2_recv s))) <= PS2_BUFF_SIZE.
Proof.
  intros Hb. unfold ps2_recv.
  destruct (Z.ltb_spec 0 (ps2_scan_code_count (scanq s))); cbn; lia.
Qed.

Lemma write_key_count_bounds (key_code : Z) (s : state) :
  0 <= key_code_count (keyq s) <= KEY_BUFF_SIZE ->
  0 <= key_code_count (keyq (snd (write_key key_code s))) <= KEY_BUFF_SIZE.
Proof.
  intros Hb. unfold write_key.
  destruct (Z.ltb_spec (key_code_count (keyq s)) KEY_BUFF_SIZE); cbn; lia.
Qed.

Lemma read_key_count_bounds (s : state) :
  0 <= key_code_count (keyq s) <= KEY_BUFF_SIZE ->
  0 <= key_code_count (keyq (snd (read_key s))) <= KEY_BUFF_SIZE.
Proof.
  intros Hb. unfold read_key.
  destruct (Z.ltb_spec 0 (key_code_count (keyq s))); cbn; lia.
Qed.

Lemma iter_fixed {A : Type} (g : A -> A) (a : A) (n : nat) :
  g a = a -> Nat.iter n g a = a.
Proof.
  intros H. induction n as [| n IH]; [reflexivity |].
  rewrite Nat.iter_succ, IH. exact H.
Qed.

(** C5.  Both ring buffers keep [0 <= count <= capacity] under every push
    and every pop.  A push on a full buffer stores nothing: [write_key]
    returns -1 and the receive handler goes to the overrun state, and the
    entries, the indices and the count stay as they were, however often it
    is repeated.  A pop on an empty buffer returns -1 and changes nothing,
    however often it is repeated. *)
Theorem ring_buffers_bounded (s : state) (pinb key_code : Z) (pinbs : list Z)
    (n : nat) :
  (0 <= ps2_scan_code_count (scanq s) <= PS2_BUFF_SIZE ->
   0 <= ps2_scan_code_count (scanq (PCINT0_vect pinb s)) <= PS2_BUFF_SIZE /\
   0 <= ps2_scan_code_count (scanq (snd (ps2_recv s))) <= PS2_BUFF_SIZE) /\
  (0 <= key_code_count (keyq s) <= KEY_BUFF_SIZE ->
   0 <= key_code_count (keyq (snd (write_key key_code s))) <= KEY_BUFF_SIZE /\
   0 <= key_code_count (keyq (snd (read_key s))) <= KEY_BUFF_SIZE) /\
  (ps2_scan_code_count (scanq s) = PS2_BUFF_SIZE ->
   scanq (PCINT0_vect pinb s) = scanq s /\
   scanq (run_PCINT0 pinbs s) = scanq s /\
   (ps2_rx_state (rx s) = PS2_STOP -> low_edge true pinb ->
    ps2_rx_state (rx (PCINT0_vect pinb s)) = PS2_RX_ERR_OVERRUN)) /\
  (key_code_count (keyq s) = KEY_BUFF_SIZE ->
   write_key key_code s = (-1, s) /\
   Nat.iter n (fun st => snd (write_key key_code st)) s = s) /\
  (ps2_scan_code_count (scanq s) = 0 ->
   ps2_recv s = (-1, s) /\
   Nat.iter n (fun st => snd (ps2_recv st)) s = s) /\
  (key_code_count (keyq s) = 0 ->
   read_key s = (-1, s) /\
   Nat.iter n (fun st => snd (read_key st)) s = s).
Proof.
  repeat apply conj.
  - intros Hb. split; [apply PCINT0_count_bounds | apply ps2_recv_count_bounds];
      exact Hb.
  - intros Hb. split; [apply write_key_count_bounds | apply read_key_count_bounds];
      exact Hb.
  - intros Hfull. split; [apply PCINT0_full; lia |].
    split; [apply run_PCINT0_full; lia |].
    intros Hst Hedge. rewrite (PCINT0_stop true pinb s Hst Hedge).
    destruct (Z.ltb_spec (ps2_scan_code_count (scanq s)) PS2_BUFF_SIZE);
      [lia | reflexivity].
  - intros Hfull.
    assert (write_key key_code s = (-1, s)) as H by (apply write_key_full; lia).
    split; [exact H |]. apply iter_fixed. now rewrite H.
  - intros Hempty.
    assert (ps2_recv s = (-1, s)) as H by (apply ps2_recv_empty; lia).
    split; [exact H |]. apply iter_fixed. now rewrite H.
  - intros Hempty.
    assert (read_key s = (-1, s)) as H by (apply read_key_empty; lia).
    split; [exact H |]. apply iter_fixed. now rewrite H.
Qed.

(** C5, on the empty buffers after reset and on two full buffers. *)
Lemma ring_buffers_bounded_witness :
  (ps2_recv initial_state = (-1, initial_state) /\
   read_key initial_state = (-1, initial_state) /\
   0 <= key_code_count (keyq (snd (write_key 0x1E initial_state))) <= KEY_BUFF_SIZE) /\
  (write_key 0x1E full_state = (-1, full_state) /\
   scanq (PCINT0_vect 16 full_state) = scanq full_state /\
   ps2_rx_state (rx (PCINT0_vect 16 full_state)) = PS2_RX_ERR_OVERRUN /\
   0 <= ps2_scan_code_count (scanq (snd (ps2_recv full_state))) <= PS2_BUFF_SIZE).
Proof.
  destruct (ring_buffers_bounded initial_state 16 0x1E [16; 0] 3)
    as (_ & Hk & _ & _ & He1 & He2).
  destruct (ring_buffers_bounded full_state 16 0x1E [16; 0] 3)
    as (Hs & _ & Hf1 & Hf2 & _ & _).
  split.
  - split; [exact (proj1 (He1 eq_refl)) |].
    split; [exact (proj1 (He2 eq_refl)) |].
    apply Hk. vm_compute. split; discriminate.
  - split; [exact (proj1 (Hf2 eq_refl)) |].
    destruct (Hf1 eq_refl) as (Hq & _ & Ho).
    split; [exact Hq |].
    split; [apply Ho; [reflexivity | split; reflexivity] |].
    apply Hs. vm_compute. split; discriminate.
Defined.

(** ** The translator *)

(** The blocking read returns at once when a scan code is waiting. *)
Lemma ps2_recv_x_cons (s : state) (tr : list Z) (x : Z) (rest : list Z) :
  scanq_wf s -> scan_contents s = x :: rest -> x <> -1 ->
  exists q, ps2_recv_x s tr = Some (x, with_scanq q s, tr) /\
            scan_contents (with_scanq q s) = rest /\
            scanq_wf (with_scanq q s).
Proof.
  intros Hwf Hc Hx.
  destruct (ps2_recv_cons s x rest Hwf Hc) as (q & Hrecv & Hrest & Hwf').
  exists q. split; [| split; assumption].
  destruct (Z.eqb_spec x (-1)) as [| _]; [contradiction |].
  destruct tr; cbn [ps2_recv_x]; rewrite Hrecv;
    destruct (Z.eqb_spec x (-1)); (contradiction || reflexivity).
Qed.

Lemma e0_keep_navigation (b : Z) : e0_keep b = true <-> In b navigation_codes.
Proof.
  unfold e0_keep, navigation_codes. cbn [In].
  rewrite !orb_true_iff, !Z.eqb_eq. intuition congruence.
Qed.

Lemma in_discard_table_In (code : Z) :
  in_discard_table code = true <-> In code discard_table.
Proof.
  unfold in_discard_table. rewrite existsb_exists. split.
  - intros (x & Hin & Heq). apply Z.eqb_eq in Heq. now subst x.
  - intros Hin. exists code. split; [exact Hin | apply Z.eqb_refl].
Qed.

Lemma land_7f_range (c : Z) : 0 <= Z.land c 0x7f < 128.
Proof.
  change 0x7f with (Z.ones 7). rewrite Z.land_ones by lia.
  apply Z.mod_pos_bound. reflexivity.
Qed.

(** What the [switch] and the range test throw away. *)
Lemma main_filter_discards (c : Z) :
  0 <= c < 256 ->
  In (Z.land c 0x7f) discard_table \/ PS2_LAST_CODE < Z.land c 0x7f \/ c = 0 ->
  main_filter c = None.
Proof.
  intros Hc H. unfold main_filter.
  destruct (in_discard_table (Z.land c 0x7f)) eqn:Htab; [reflexivity |].
  destruct H as [H | [H | H]].
  - apply in_discard_table_In in H. congruence.
  - unfold PS2_LAST_CODE in *.
    destruct (Z.eqb_spec (Z.land c 0x7f) 54) as [E | _]; [lia |].
    unfold uint8. rewrite Z.mod_small by lia.
    destruct (Z.ltb_spec 0x50 (Z.land c 0x7f)); [reflexivity | lia].
  - subst c. reflexivity.
Qed.

(** Code 54 is stored as code 42 with bit 7 kept. *)
Lemma main_filter_54 (c : Z) :
  0 <= c < 256 -> Z.land c 0x7f = 54 ->
  (c = 0x36 \/ c = 0xB6) /\ main_filter c = Some (Z.land c 0x80 + 42).
Proof.
  intros Hc H.
  assert (c = 0x36 \/ c = 0xB6) as Hcases.
  { change 0x7f with (Z.ones 7) in H. rewrite Z.land_ones in H by lia.
    change (2 ^ 7) with 128 in H.
    pose proof (Z.div_mod c 128 ltac:(lia)) as Hdm.
    assert (0 <= c / 128 < 2) as Hq
      by (split; [apply Z.div_pos; lia | apply Z.div_lt_upper_bound; lia]).
    lia. }
  split; [exact Hcases |].
  destruct Hcases as [-> | ->]; reflexivity.
Qed.

(** The eight navigation codes pass the [switch] and the range test. *)
Lemma main_filter_navigation (b : Z) :
  In b navigation_codes -> main_filter b = Some b.
Proof.
  unfold navigation_codes. cbn [In].
  intros H. repeat (destruct H as [<- | H]; [reflexivity |]). contradiction.
Qed.

(** C3, as the code has it.  When the byte after the lead byte 0xE1 is 0x1D
    or 0x9D, the translator takes that byte and one more from the buffer
    and stores no key code: the three bytes are gone and the output buffer
    is as it was. *)
Theorem pause_break_discarded (kdb_lock_state : Z) (s : state) (tr : list Z)
    (b c : Z) (rest : list Z) :
  scanq_wf s ->
  scan_contents s = 0xE1 :: b :: c :: rest ->
  b = 0x1D \/ b = 0x9D ->
  0 <= c < 256 ->
  exists s',
    main_loop_body kdb_lock_state s tr = Some (kdb_lock_state, s', tr) /\
    scan_contents s' = rest /\
    keyq s' = keyq s /\
    scanq_wf s'.
Proof.
  intros Hwf Hc Hb Hbyte.
  destruct (ps2_recv_cons s _ _ Hwf Hc) as (q1 & H1 & Hc1 & Hwf1).
  assert (b <> -1) as Hb1 by lia.
  destruct (ps2_recv_x_cons _ tr _ _ Hwf1 Hc1 Hb1) as (q2 & H2 & Hc2 & Hwf2).
  assert (c <> -1) as Hc3 by lia.
  destruct (ps2_recv_x_cons _ tr _ _ Hwf2 Hc2 Hc3) as (q3 & H3 & Hc4 & Hwf3).
  exists (with_scanq q3 (with_scanq q2 (with_scanq q1 s))).
  split; [| split; [exact Hc4 | split; [reflexivity | exact Hwf3]]].
  unfold main_loop_body. rewrite H1.
  change (negb (0xE1 =? -1)) with true. cbv iota.
  unfold translate, main_e1. change (0xE1 =? 0xe1) with true. cbv iota.
  rewrite H2. cbn [mbind option_bind].
  destruct Hb as [-> | ->].
  - change (0x1D =? 0x1d) with true. cbv iota. rewrite H3. reflexivity.
  - change (0x9D =? 0x1d) with false. change (0x9D =? 0x9d) with true. cbv iota.
    rewrite H3. reflexivity.
Qed.

(** C3, at the two halves of the Pause/Break sequence of code set 1. *)
Lemma pause_break_discarded_witness :
  (exists s',
     main_loop_body 0 (scan_loaded [0xE1; 0x1D; 0x45; 0x1E]) []
     = Some (0, s', []) /\
     scan_contents s' = [0x1E] /\
     keyq s' = keyq (scan_loaded [0xE1; 0x1D; 0x45; 0x1E]) /\
     scanq_wf s') /\
  (exists s',
     main_loop_body 0 (scan_loaded [0xE1; 0x9D; 0xC5]) [] = Some (0, s', []) /\
     scan_contents s' = [] /\
     keyq s' = keyq (scan_loaded [0xE1; 0x9D; 0xC5]) /\
     scanq_wf s').
Proof.
  split.
  - apply (pause_break_discarded 0 (scan_loaded [0xE1; 0x1D; 0x45; 0x1E]) []
             0x1D 0x45 [0x1E]).
    + wf_by_computation.
    + reflexivity.
    + left; reflexivity.
    + lia.
  - apply (pause_break_discarded 0 (scan_loaded [0xE1; 0x9D; 0xC5]) []
             0x9D 0xC5 []).
    + wf_by_computation.
    + reflexivity.
    + right; reflexivity.
    + lia.
Defined.

(** C3 as the specification states it fails: after the lead byte 0xE1 a
    second byte other than 0x1D and 0x9D is not discarded.  On the bytes
    0xE1, 0x1E, 0x45 one iteration takes two bytes, stores the key code
    0x1E and leaves 0x45 in the buffer. *)
Lemma pause_break_not_unconditional :
  exists s',
    main_loop_body 0 (scan_loaded [0xE1; 0x1E; 0x45]) [] = Some (0, s', []) /\
    key_contents (scan_loaded [0xE1; 0x1E; 0x45]) = [] /\
    key_contents s' = [0x1E] /\
    scan_contents s' = [0x45].
Proof. eexists. repeat split. Qed.

(** One iteration on a scan code that is not a lead byte: the code goes
    through [main_filter], and what comes out is handed to [write_key]. *)
Lemma main_loop_body_plain (kdb_lock_state : Z) (s : state) (tr : list Z)
    (c : Z) (rest : list Z) :
  scanq_wf s -> scan_contents s = c :: rest ->
  0 <= c < 256 -> c <> 0xE0 -> c <> 0xE1 ->
  exists s1,
    scan_contents s1 = rest /\ keyq s1 = keyq s /\ scanq_wf s1 /\
    main_loop_body kdb_lock_state s tr =
    Some (kdb_lock_state,
          match main_filter c with
          | None => s1
          | Some code => snd (write_key (uint8 code) s1)
          end, tr).
Proof.
  intros Hwf Hc Hbyte H0 H1.
  destruct (ps2_recv_cons s _ _ Hwf Hc) as (q1 & Hr & Hc1 & Hwf1).
  exists (with_scanq q1 s). repeat (split; [assumption || reflexivity |]).
  unfold main_loop_body. rewrite Hr.
  destruct (Z.eqb_spec c (-1)) as [| _]; [lia |]. cbn [negb].
  unfold translate, main_e1, main_e0.
  destruct (Z.eqb_spec c 0xe1) as [| _]; [contradiction |].
  cbn [mbind option_bind].
  destruct (Z.eqb_spec c 0xe0) as [| _]; [contradiction |].
  cbn [mbind option_bind].
  destruct (main_filter c); [| reflexivity].
  destruct (write_key _ _); reflexivity.
Qed.

(** One iteration on the lead byte 0xE0 and the code after it. *)
Lemma main_loop_body_e0 (kdb_lock_state : Z) (s : state) (tr : list Z)
    (b : Z) (rest : list Z) :
  scanq_wf s -> scan_contents s = 0xE0 :: b :: rest -> 0 <= b < 256 ->
  exists s1,
    scan_contents s1 = rest /\ keyq s1 = keyq s /\ scanq_wf s1 /\
    main_loop_body kdb_lock_state s tr =
    Some (kdb_lock_state,
          match (if e0_keep b then main_filter b else None) with
          | None => s1
          | Some code => snd (write_key (uint8 code) s1)
          end, tr).
Proof.
  intros Hwf Hc Hbyte.
  destruct (ps2_recv_cons s _ _ Hwf Hc) as (q1 & H1 & Hc1 & Hwf1).
  assert (b <> -1) as Hb1 by lia.
  destruct (ps2_recv_x_cons _ tr _ _ Hwf1 Hc1 Hb1) as (q2 & H2 & Hc2 & Hwf2).
  exists (with_scanq q2 (with_scanq q1 s)).
  repeat (split; [assumption || reflexivity |]).
  unfold main_loop_body. rewrite H1.
  change (negb (0xE0 =? -1)) with true. cbv iota.
  unfold translate, main_e1, main_e0. change (0xE0 =? 0xe1) with false. cbv iota.
  cbn [mbind option_bind]. change (0xE0 =? 0xe0) with true. cbv iota.
  rewrite H2. cbn [mbind option_bind].
  destruct (e0_keep b); cbn [mbind option_bind]; [| reflexivity].
  destruct (main_filter b); [| reflexivity].
  destruct (write_key _ _); reflexivity.
Qed.

(** A key code handed to [write_key] when the output buffer has room is
    appended to it. *)
Lemma write_key_contents (code : Z) (s s1 : state) :
  keyq s1 = keyq s -> keyq_wf s -> key_code_count (keyq s) < KEY_BUFF_SIZE ->
  key_contents (snd (write_key code s1)) = key_contents s ++ [code] /\
  keyq_wf (snd (write_key code s1)).
Proof.
  intros Hk Hwf Hroom.
  assert (keyq_wf s1) as Hwf1 by (unfold keyq_wf; rewrite Hk; exact Hwf).
  rewrite <- Hk in Hroom.
  destruct (write_key_room code s1 Hwf1 Hroom) as (q & Hw & Hc & Hwf').
  rewrite Hw. cbn [snd]. split; [| exact Hwf'].
  rewrite Hc. unfold key_contents. rewrite Hk. reflexivity.
Qed.

(** C6.  On the lead byte 0xE0 followed by a byte [b], the translator takes
    both bytes from the buffer.  When [b] is one of the eight navigation
    codes it hands exactly [b] to [write_key], which appends it to the
    output buffer when that has room; any other [b] is dropped and the
    output buffer stays as it was. *)
Theorem extended_codes_filtered (kdb_lock_state : Z) (s : state) (tr : list Z)
    (b : Z) (rest : list Z) :
  scanq_wf s -> keyq_wf s ->
  scan_contents s = 0xE0 :: b :: rest ->
  0 <= b < 256 ->
  exists s' s1,
    main_loop_body kdb_lock_state s tr = Some (kdb_lock_state, s', tr) /\
    scan_contents s' = rest /\
    scan_contents s1 = rest /\ keyq s1 = keyq s /\
    (In b navigation_codes ->
     s' = snd (write_key b s1) /\
     (key_code_count (keyq s) < KEY_BUFF_SIZE ->
      key_contents s' = key_contents s ++ [b])) /\
    (~ In b navigation_codes -> s' = s1).
Proof.
  intros Hwf Hkwf Hc Hbyte.
  destruct (main_loop_body_e0 kdb_lock_state s tr b rest Hwf Hc Hbyte)
    as (s1 & Hc1 & Hk1 & Hwf1 & Hrun).
  destruct (e0_keep b) eqn:Hkeep.
  - apply e0_keep_navigation in Hkeep.
    rewrite (main_filter_navigation b Hkeep) in Hrun.
    unfold uint8 in Hrun. rewrite Z.mod_small in Hrun by lia.
    exists (snd (write_key b s1)), s1.
    split; [exact Hrun |].
    split; [| split; [exact Hc1 | split; [exact Hk1 |]]].
    + unfold write_key. destruct (_ <? _); exact Hc1.
    + split; [| contradiction].
      intros _. split; [reflexivity |].
      intros Hroom. apply (write_key_contents b s s1 Hk1 Hkwf Hroom).
  - exists s1, s1. split; [exact Hrun |].
    split; [exact Hc1 | split; [exact Hc1 | split; [exact Hk1 |]]].
    split; [| reflexivity].
    intros Hin. apply e0_keep_navigation in Hin. congruence.
Qed.

(** C6, at the codes 0x50 (kept) and 0x1C (dropped). *)
Lemma extended_codes_filtered_witness :
  (exists s',
     main_loop_body 0 (scan_loaded [0xE0; 0x50]) [] = Some (0, s', []) /\
     key_contents s' = key_contents (scan_loaded [0xE0; 0x50]) ++ [0x50]) /\
  (exists s',
     main_loop_body 0 (scan_loaded [0xE0; 0x1C]) [] = Some (0, s', []) /\
     keyq s' = keyq (scan_loaded [0xE0; 0x1C])).
Proof.
  split.
  - destruct (extended_codes_filtered 0 (scan_loaded [0xE0; 0x50]) [] 0x50 [])
      as (s' & s1 & Hrun & _ & _ & _ & Hin & _).
    + wf_by_computation.
    + wf_by_computation.
    + reflexivity.
    + lia.
    + exists s'. split; [exact Hrun |].
      apply Hin; [cbn; tauto | reflexivity].
  - destruct (extended_codes_filtered 0 (scan_loaded [0xE0; 0x1C]) [] 0x1C [])
      as (s' & s1 & Hrun & _ & _ & Hk & _ & Hout).
    + wf_by_computation.
    + wf_by_computation.
    + reflexivity.
    + lia.
    + exists s'. split; [exact Hrun |].
      rewrite Hout; [exact Hk |].
      cbn. intros H. repeat (destruct H as [H | H]; [discriminate H |]). exact H.
Defined.

(** C7.  A scan code [c] whose low seven bits are in the discard table of
    the [switch], or exceed 0x50, or that is 0 itself, gives no key code:
    the translator takes it from the buffer and leaves the output buffer as
    it was.  This holds for [c] alone (a byte that is not a lead byte) and
    for [c] after the lead byte 0xE0. *)
Theorem unwanted_codes_discarded (kdb_lock_state : Z) (s : state) (tr : list Z)
    (c : Z) (rest : list Z) :
  scanq_wf s ->
  0 <= c < 256 ->
  In (Z.land c 0x7f) discard_table \/ PS2_LAST_CODE < Z.land c 0x7f \/ c = 0 ->
  (c <> 0xE0 -> c <> 0xE1 -> scan_contents s = c :: rest ->
   exists s',
     main_loop_body kdb_lock_state s tr = Some (kdb_lock_state, s', tr) /\
     scan_contents s' = rest /\ keyq s' = keyq s) /\
  (scan_contents s = 0xE0 :: c :: rest ->
   exists s',
     main_loop_body kdb_lock_state s tr = Some (kdb_lock_state, s', tr) /\
     scan_contents s' = rest /\ keyq s' = keyq s).
Proof.
  intros Hwf Hbyte Hdis.
  pose proof (main_filter_discards c Hbyte Hdis) as Hnone. split.
  - intros H0 H1 Hc.
    destruct (main_loop_body_plain kdb_lock_state s tr c rest Hwf Hc Hbyte H0 H1)
      as (s1 & Hc1 & Hk1 & _ & Hrun).
    rewrite Hnone in Hrun. exists s1. auto.
  - intros Hc.
    destruct (main_loop_body_e0 kdb_lock_state s tr c rest Hwf Hc Hbyte)
      as (s1 & Hc1 & Hk1 & _ & Hrun).
    rewrite Hnone in Hrun. exists s1.
    destruct (e0_keep c); auto.
Qed.

(** C7, at the Tab key (make code 0x0F and break code 0x8F) and at the
    right Ctrl key (0xE0, 0x1D). *)
Lemma unwanted_codes_discarded_witness :
  (exists s',
     main_loop_body 0 (scan_loaded [0x0F; 0x1E]) [] = Some (0, s', []) /\
     scan_contents s' = [0x1E] /\ keyq s' = keyq (scan_loaded [0x0F; 0x1E])) /\
  (exists s',
     main_loop_body 0 (scan_loaded [0x8F]) [] = Some (0, s', []) /\
     scan_contents s' = [] /\ keyq s' = keyq (scan_loaded [0x8F])) /\
  (exists s',
     main_loop_body 0 (scan_loaded [0xE0; 0x1D]) [] = Some (0, s', []) /\
     scan_contents s' = [] /\ keyq s' = keyq (scan_loaded [0xE0; 0x1D])).
Proof.
  split; [| split].
  - destruct (unwanted_codes_discarded 0 (scan_loaded [0x0F; 0x1E]) [] 0x0F [0x1E])
      as [H _].
    + wf_by_computation.
    + lia.
    + left. cbn. tauto.
    + apply H; [discriminate | discriminate | reflexivity].
  - destruct (unwanted_codes_discarded 0 (scan_loaded [0x8F]) [] 0x8F [])
      as [H _].
    + wf_by_computation.
    + lia.
    + left. cbn. tauto.
    + apply H; [discriminate | discriminate | reflexivity].
  - destruct (unwanted_codes_discarded 0 (scan_loaded [0xE0; 0x1D]) [] 0x1D [])
      as [_ H].
    + wf_by_computation.
    + lia.
    + left. cbn. tauto.
    + apply H. reflexivity.
Defined.

(** C8.  A scan code whose low seven bits are 54 (that is 0x36 or 0xB6) is
    handed to [write_key] as code 42 with bit 7 kept: 0x36 becomes 0x2A and
    0xB6 becomes 0xAA.  With room in the output buffer that key code is
    appended to it. *)
Theorem code_54_remapped (kdb_lock_state : Z) (s : state) (tr : list Z)
    (c : Z) (rest : list Z) :
  scanq_wf s -> keyq_wf s ->
  scan_contents s = c :: rest ->
  0 <= c < 256 ->
  Z.land c 0x7f = 54 ->
  exists s' s1 code,
    main_loop_body kdb_lock_state s tr = Some (kdb_lock_state, s', tr) /\
    scan_contents s1 = rest /\ keyq s1 = keyq s /\
    s' = snd (write_key code s1) /\
    Z.land code 0x7f = 42 /\
    Z.testbit code 7 = Z.testbit c 7 /\
    (c = 0x36 /\ code = 0x2A \/ c = 0xB6 /\ code = 0xAA) /\
    (key_code_count (keyq s) < KEY_BUFF_SIZE ->
     key_contents s' = key_contents s ++ [code]).
Proof.
  intros Hwf Hkwf Hc Hbyte H54.
  destruct (main_filter_54 c Hbyte H54) as [Hcases Hf].
  assert (c <> 0xE0 /\ c <> 0xE1) as [H0 H1] by lia.
  destruct (main_loop_body_plain kdb_lock_state s tr c rest Hwf Hc Hbyte H0 H1)
    as (s1 & Hc1 & Hk1 & _ & Hrun).
  rewrite Hf in Hrun.
  exists (snd (write_key (Z.land c 0x80 + 42) s1)), s1, (Z.land c 0x80 + 42).
  split.
  - rewrite Hrun. destruct Hcases as [-> | ->]; reflexivity.
  - split; [exact Hc1 |]. split; [exact Hk1 |]. split; [reflexivity |].
    split; [destruct Hcases as [-> | ->]; reflexivity |].
    split; [destruct Hcases as [-> | ->]; reflexivity |].
    split; [destruct Hcases as [-> | ->]; [left | right]; split; reflexivity |].
    intros Hroom. apply (write_key_contents _ s s1 Hk1 Hkwf Hroom).
Qed.

(** C8, at the make code 0x36 and the break code 0xB6. *)
Lemma code_54_remapped_witness :
  (exists s',
     main_loop_body 0 (scan_loaded [0x36]) [] = Some (0, s', []) /\
     key_contents s' = key_contents (scan_loaded [0x36]) ++ [0x2A]) /\
  (exists s',
     main_loop_body 0 (scan_loaded [0xB6]) [] = Some (0, s', []) /\
     key_contents s' = key_contents (scan_loaded [0xB6]) ++ [0xAA]).
Proof.
  split.
  - destruct (code_54_remapped 0 (scan_loaded [0x36]) [] 0x36 [])
      as (s' & s1 & code & Hrun & _ & _ & _ & _ & _ & Hcode & Hroom).
    + wf_by_computation.
    + wf_by_computation.
    + reflexivity.
    + lia.
    + reflexivity.
    + exists s'. split; [exact Hrun |].
      destruct Hcode as [[_ ->] | [Hc _]]; [| discriminate Hc].
      apply Hroom. reflexivity.
  - destruct (code_54_remapped 0 (scan_loaded [0xB6]) [] 0xB6 [])
      as (s' & s1 & code & Hrun & _ & _ & _ & _ & _ & Hcode & Hroom).
    + wf_by_computation.
    + wf_by_computation.
    + reflexivity.
    + lia.
    + reflexivity.
    + exists s'. split; [exact Hrun |].
      destruct Hcode as [[Hc _] | [_ ->]]; [discriminate Hc |].
      apply Hroom. reflexivity.
Defined.

(** ** The host exchange *)

Lemma USI_OVF_cons (s : state) (k : Z) (rest : list Z) :
  keyq_wf s -> key_contents s = k :: rest -> 0 <= k < 256 ->
  let s' := USI_OVF_vect s in
  command_in s' = USIDR (io s) /\
  USIDR (io s') = k /\
  key_contents s' = rest /\
  keyq_wf s' /\
  key_code_count (keyq s') = key_code_count (keyq s) - 1.
Proof.
  intros Hwf Hc Hk s'. subst s'. unfold USI_OVF_vect.
  destruct (read_key_cons (with_command_in (USIDR (io s)) s) k rest Hwf Hc)
    as (q & Hr & Hc' & Hwf').
  rewrite Hr. cbv beta iota zeta.
  destruct (Z.eqb_spec k (-1)) as [| _]; [lia |].
  cbn [command_in io with_io with_command_in with_keyq with_USIDR with_USISR USIDR].
  split; [reflexivity |]. split; [apply Z.mod_small; lia |].
  split; [exact Hc' |]. split; [exact Hwf' |].
  unfold read_key in Hr.
  destruct (0 <? key_code_count (keyq (with_command_in (USIDR (io s)) s))) eqn:E.
  - injection Hr as _ Hq. rewrite <- Hq. reflexivity.
  - injection Hr as Hk1 _. lia.
Qed.

Lemma USI_OVF_empty (s : state) :
  key_code_count (keyq s) <= 0 ->
  let s' := USI_OVF_vect s in
  command_in s' = USIDR (io s) /\
  USIDR (io s') = 0 /\
  keyq s' = keyq s.
Proof.
  intros He s'. subst s'. unfold USI_OVF_vect.
  rewrite read_key_empty by exact He. repeat split.
Qed.

Lemma host_exchange_fst (h : Z) (s : state) : fst (host_exchange h s) = USIDR (io s).
Proof. reflexivity. Qed.

Lemma host_exchanges_cons (h : Z) (hs : list Z) (s : state) :
  host_exchanges (h :: hs) s =
  (USIDR (io s) :: fst (host_exchanges hs (snd (host_exchange h s))),
   snd (host_exchanges hs (snd (host_exchange h s)))).
Proof.
  cbn [host_exchanges]. unfold host_exchange at 1.
  unfold host_exchange. destruct (host_exchanges hs _). reflexivity.
Qed.

(** The host receives in a transfer what the transfer before it staged. *)
Lemma host_exchanges_staged (hs : list Z) :
  forall (h : Z) (s : state),
    fst (host_exchanges (hs ++ [h]) s) = USIDR (io s) :: staged_bytes hs s.
Proof.
  induction hs as [| h0 hs IH]; intros h s.
  - reflexivity.
  - cbn [app]. rewrite host_exchanges_cons. cbn [fst staged_bytes].
    rewrite IH. reflexivity.
Qed.

Lemma staged_bytes_app (hs1 : list Z) :
  forall (hs2 : list Z) (s : state),
    staged_bytes (hs1 ++ hs2) s =
    staged_bytes hs1 s ++ staged_bytes hs2 (snd (host_exchanges hs1 s)).
Proof.
  induction hs1 as [| h hs1 IH]; intros hs2 s; [reflexivity |].
  cbn [app staged_bytes]. rewrite IH, host_exchanges_cons. reflexivity.
Qed.

(** With the output buffer empty every transfer stages 0. *)
Lemma staged_bytes_empty (hs : list Z) :
  forall s : state,
    key_code_count (keyq s) <= 0 ->
    staged_bytes hs s = replicate (length hs) 0 /\
    keyq (snd (host_exchanges hs s)) = keyq s.
Proof.
  induction hs as [| h hs IH]; intros s He; [split; reflexivity |].
  cbn [staged_bytes length replicate]. rewrite host_exchanges_cons. cbn [snd].
  unfold host_exchange. cbn [snd].
  destruct (USI_OVF_empty (with_io (with_USIDR (uint8 h) (io s)) s) He)
    as (_ & Hu & Hq).
  rewrite Hu. destruct (IH (USI_OVF_vect (with_io (with_USIDR (uint8 h) (io s)) s)))
    as [IH1 IH2]; [rewrite Hq; exact He |].
  rewrite IH1, IH2, Hq. split; reflexivity.
Qed.

(** With [keys] in the output buffer, as many transfers stage them in
    order and empty the buffer. *)
Lemma staged_bytes_keys (keys : list Z) :
  forall (hs : list Z) (s : state),
    keyq_wf s -> key_contents s = keys -> all_bytes keys ->
    length hs = length keys ->
    staged_bytes hs s = keys /\
    key_code_count (keyq (snd (host_exchanges hs s))) = 0.
Proof.
  induction keys as [| k keys IH]; intros hs s Hwf Hc Hb Hlen.
  - destruct hs; [| discriminate]. split; [reflexivity |].
    cbn [host_exchanges snd]. destruct Hwf as (_ & _ & Hcount & _).
    apply (ring_contents_nil_count _ _ _ _ (proj1 Hcount) Hc).
  - destruct hs as [| h hs]; [discriminate |].
    apply Forall_cons in Hb as [Hk Hb].
    cbn [staged_bytes]. rewrite host_exchanges_cons. cbn [snd].
    unfold host_exchange. cbn [snd].
    destruct (USI_OVF_cons (with_io (with_USIDR (uint8 h) (io s)) s) k keys Hwf Hc Hk)
      as (_ & Hu & Hc' & Hwf' & _).
    rewrite Hu.
    destruct (IH hs _ Hwf' Hc' Hb) as [IH1 IH2]; [cbn in Hlen; lia |].
    rewrite IH1. split; [reflexivity | exact IH2].
Qed.

Lemma host_exchanges_app_snd (hs1 : list Z) :
  forall (hs2 : list Z) (s : state),
    snd (host_exchanges (hs1 ++ hs2) s) =
    snd (host_exchanges hs2 (snd (host_exchanges hs1 s))).
Proof.
  induction hs1 as [| h hs1 IH]; intros hs2 s; [reflexivity |].
  cbn [app]. rewrite !host_exchanges_cons. cbn [snd]. apply IH.
Qed.

Lemma key_contents_empty (s : state) :
  key_code_count (keyq s) = 0 -> key_contents s = [].
Proof. intros H. unfold key_contents. rewrite H. reflexivity. Qed.

(** C4.  Each completed transfer latches the byte of the host in
    [command_in] and takes one key code from the output buffer, staging it
    in [USIDR] for the next transfer, or stages 0 when the buffer is empty.
    So with N key codes waiting, N transfers stage them oldest first and
    every later transfer stages 0; the host receives each staged byte in
    the transfer after it, that is: the byte staged before, then the N key
    codes in order, then zeros. *)
Theorem host_exchange_fifo (s : state) (keys hs1 hs2 : list Z) (h : Z) :
  keyq_wf s ->
  key_contents s = keys ->
  all_bytes keys ->
  length hs1 = length keys ->
  (let s' := snd (host_exchange h s) in
   command_in s' = uint8 h /\
   match keys with
   | [] => USIDR (io s') = 0 /\ key_contents s' = []
   | k :: rest => USIDR (io s') = k /\ key_contents s' = rest
   end) /\
  staged_bytes (hs1 ++ hs2) s = keys ++ replicate (length hs2) 0 /\
  fst (host_exchanges (hs1 ++ hs2 ++ [h]) s)
  = USIDR (io s) :: keys ++ replicate (length hs2) 0 /\
  key_contents (snd (host_exchanges (hs1 ++ hs2) s)) = [].
Proof.
  intros Hwf Hc Hb Hlen.
  destruct (staged_bytes_keys keys hs1 s Hwf Hc Hb Hlen) as [Hkeys Hcount].
  destruct (staged_bytes_empty hs2 (snd (host_exchanges hs1 s))) as [Hz Hq];
    [lia |].
  assert (staged_bytes (hs1 ++ hs2) s = keys ++ replicate (length hs2) 0) as Hst
    by (rewrite staged_bytes_app, Hkeys, Hz; reflexivity).
  split; [| split; [exact Hst | split]].
  - unfold host_exchange. cbn [snd]. destruct keys as [| k rest].
    + destruct Hwf as (Hl & Ho & Hcnt & Hi).
      pose proof (ring_contents_nil_count _ _ _ _ (proj1 Hcnt) Hc) as H0.
      destruct (USI_OVF_empty (with_io (with_USIDR (uint8 h) (io s)) s))
        as (Hcmd & Hu & Hk); [cbn; lia |].
      split; [exact Hcmd |]. split; [exact Hu |].
      apply key_contents_empty. rewrite Hk. exact H0.
    + apply Forall_cons in Hb as [Hk Hb].
      destruct (USI_OVF_cons (with_io (with_USIDR (uint8 h) (io s)) s) k rest
                  Hwf Hc Hk) as (Hcmd & Hu & Hc' & _).
      split; [exact Hcmd |]. split; [exact Hu | exact Hc'].
  - rewrite app_assoc, host_exchanges_staged, Hst. reflexivity.
  - apply key_contents_empty. rewrite host_exchanges_app_snd, Hq. exact Hcount.
Qed.

(** C4, with three key codes waiting and six transfers. *)
Lemma host_exchange_fifo_witness :
  let s := keys_loaded [0x1E; 0x9E; 0x30] in
  (command_in (snd (host_exchange 0x55 s)) = 0x55 /\
   USIDR (io (snd (host_exchange 0x55 s))) = 0x1E /\
   key_contents (snd (host_exchange 0x55 s)) = [0x9E; 0x30]) /\
  staged_bytes [1; 2; 3; 4; 5] s = [0x1E; 0x9E; 0x30; 0; 0] /\
  fst (host_exchanges [1; 2; 3; 4; 5; 0x55] s) = [0; 0x1E; 0x9E; 0x30; 0; 0] /\
  key_contents (snd (host_exchanges [1; 2; 3; 4; 5] s)) = [].
Proof.
  apply (host_exchange_fifo (keys_loaded [0x1E; 0x9E; 0x30]) [0x1E; 0x9E; 0x30]
           [1; 2; 3] [4; 5] 0x55).
  - wf_by_computation.
  - reflexivity.
  - repeat constructor; lia.
  - reflexivity.
Defined.

(** ** Transmission *)

Lemma land_data_testbit (pinb : Z) :
  Z.land pinb PS2_DATA = if Z.testbit pinb 4 then 16 else 0.
Proof.
  apply Z.bits_inj'. intros n Hn. rewrite Z.land_spec.
  unfold PS2_DATA. change 0x10 with (2 ^ 4). rewrite Z.pow2_bits_eqb by lia.
  destruct (Z.eqb_spec 4 n) as [<- | Hne].
  - rewrite andb_true_r. destruct (Z.testbit pinb 4); reflexivity.
  - rewrite andb_false_r. destruct (Z.testbit pinb 4).
    + change 16 with (2 ^ 4). rewrite Z.pow2_bits_eqb by lia.
      symmetry. apply Z.eqb_neq. exact Hne.
    + symmetry. apply Z.bits_0.
Qed.

Lemma wait_clock_low_length (tr tr' : list Z) :
  wait_clock_low tr = Some tr' -> (length tr' < length tr)%nat.
Proof.
  revert tr'. induction tr as [| pinb tr IH]; intros tr' H; [discriminate |].
  cbn [wait_clock_low] in H. destruct (negb _).
  - apply IH in H. cbn [length]. lia.
  - injection H as <-. cbn [length]. lia.
Qed.

Lemma wait_clock_high_length (tr tr' : list Z) :
  wait_clock_high tr = Some tr' -> (length tr' < length tr)%nat.
Proof.
  revert tr'. induction tr as [| pinb tr IH]; intros tr' H; [discriminate |].
  cbn [wait_clock_high] in H. destruct (_ =? 0).
  - apply IH in H. cbn [length]. lia.
  - injection H as <-. cbn [length]. lia.
Qed.

Lemma ps2_send_loop_length (fuel : nat) :
  forall (byte par cnt : Z) (s : state) (tr : list Z) (s' : state) (tr' : list Z),
    ps2_send_loop fuel byte par cnt s tr = Some (s', tr') ->
    (length tr' <= length tr)%nat.
Proof.
  induction fuel as [| fuel IH]; intros byte par cnt s tr s' tr' H;
    cbn [ps2_send_loop] in H; destruct (cnt <? 10); try discriminate;
    try (injection H as _ <-; lia).
  destruct (if cnt <? 8 then _ else _) as [bit par'].
  destruct (wait_clock_low tr) as [tr1 |] eqn:H1; [| discriminate].
  cbn [mbind option_bind] in H.
  destruct (wait_clock_high tr1) as [tr2 |] eqn:H2; [| discriminate].
  cbn [mbind option_bind] in H.
  apply IH in H. apply wait_clock_low_length in H1.
  apply wait_clock_high_length in H2. lia.
Qed.

(** [ps2_send] samples the pins: what it hands back is shorter than what
    it was given. *)
Lemma ps2_send_length (byte : Z) (s : state) (tr : list Z) (r : Z) (s' : state)
    (tr' : list Z) :
  ps2_send byte s tr = Some (r, s', tr') -> (length tr' < length tr)%nat.
Proof.
  unfold ps2_send, ps2_send_frame, ps2_send_ack. intros H.
  destruct (ps2_send_loop _ _ _ _ _ _) as [[s1 tr1] |] eqn:Hloop; [| discriminate].
  apply ps2_send_loop_length in Hloop.
  cbn [mbind option_bind] in H.
  destruct (wait_clock_low tr1) as [tr2 |] eqn:H1; [| discriminate].
  cbn [mbind option_bind] in H. apply wait_clock_low_length in H1.
  destruct tr2 as [| pinb tr2]; [discriminate |].
  destruct (wait_clock_high tr2) as [tr3 |] eqn:H2; [| discriminate].
  cbn [mbind option_bind] in H. apply wait_clock_high_length in H2.
  injection H as _ _ <-. cbn [length] in H1. lia.
Qed.

Lemma ps2_recv_x_length (tr : list Z) :
  forall (s : state) (r : Z) (s' : state) (tr' : list Z),
    ps2_recv_x s tr = Some (r, s', tr') -> (length tr' <= length tr)%nat.
Proof.
  induction tr as [| pinb tr IH]; intros s r s' tr' H; cbn [ps2_recv_x] in H;
    destruct (ps2_recv s) as [res s1]; destruct (res =? -1);
    try discriminate; try (injection H as _ _ <-; cbn [length]; lia).
  destruct (SREG_I (io s1)); [| discriminate].
  apply IH in H. cbn [length]. lia.
Qed.

(** C9.  When [ps2_send] returns, its result comes from one sample of the
    pins, the one taken after the clock went low past the ten bits: the
    result is negative exactly when the data line (bit 4) is high in that
    sample and 0 exactly when it is low; no other result exists (the
    negative one is -16). *)
Theorem ps2_send_result (byte : Z) (s : state) (tr : list Z) (result : Z)
    (s' : state) (tr' : list Z) :
  ps2_send byte s tr = Some (result, s', tr') ->
  exists (s1 : state) (tr1 : list Z) (pinb : Z) (tr2 : list Z),
    ps2_send_frame byte s tr = Some (s1, tr1) /\
    wait_clock_low tr1 = Some (pinb :: tr2) /\
    wait_clock_high tr2 = Some tr' /\
    (result < 0 <-> Z.testbit pinb 4 = true) /\
    (result = 0 <-> Z.testbit pinb 4 = false) /\
    (result = 0 \/ result = -16).
Proof.
  unfold ps2_send. intros H.
  destruct (ps2_send_frame byte s tr) as [[s1 tr1] |]; [| discriminate].
  cbn [mbind option_bind] in H. unfold ps2_send_ack in H.
  destruct (wait_clock_low tr1) as [tr2 |] eqn:H1; [| discriminate].
  cbn [mbind option_bind] in H.
  destruct tr2 as [| pinb tr2]; [discriminate |].
  destruct (wait_clock_high tr2) as [tr3 |] eqn:H2; [| discriminate].
  cbn [mbind option_bind] in H. injection H as <- _ <-.
  exists s1, tr1, pinb, tr2.
  split; [reflexivity |]. split; [exact H1 |]. split; [exact H2 |].
  rewrite land_data_testbit. destruct (Z.testbit pinb 4); cbn; intuition lia.
Qed.

Lemma wait_clock_low_now (lo : Z) (tr : list Z) :
  Z.land lo PS2_CLOCK = 0 -> wait_clock_low (lo :: tr) = Some tr.
Proof. intros H. cbn [wait_clock_low]. rewrite H. reflexivity. Qed.

Lemma wait_clock_high_now (hi : Z) (tr : list Z) :
  Z.land hi PS2_CLOCK <> 0 -> wait_clock_high (hi :: tr) = Some tr.
Proof.
  intros H. cbn [wait_clock_high].
  destruct (Z.eqb_spec (Z.land hi PS2_CLOCK) 0); [contradiction | reflexivity].
Qed.

(** With a pulse of the clock for each bit still to send, the loop of
    [ps2_send] ends, and only the port registers have changed. *)
Lemma ps2_send_loop_pulses (ps : list (Z * Z)) :
  forall (byte par cnt : Z) (s : state) (rest : list Z),
    Forall good_pulse ps -> cnt + Z.of_nat (length ps) = 10 ->
    exists s',
      ps2_send_loop (length ps) byte par cnt s (pulse_train ps ++ rest)
      = Some (s', rest) /\
      same_but_pins s s' /\ rx s' = rx s /\ SREG_I (io s') = SREG_I (io s).
Proof.
  induction ps as [| [lo hi] ps IH]; intros byte par cnt s rest Hps Hcnt.
  - cbn [length Z.of_nat] in Hcnt. assert (cnt = 10) as -> by lia.
    exists s. repeat split.
  - apply Forall_cons in Hps as [[Hlo Hhi] Hps]. cbn [fst snd] in Hlo, Hhi.
    cbn [length] in Hcnt.
    cbn [length ps2_send_loop pulse_train flat_map app fst snd].
    fold (pulse_train ps).
    destruct (Z.ltb_spec cnt 10) as [_ |]; [| lia].
    destruct (if cnt <? 8 then _ else _) as [bit par'].
    rewrite (wait_clock_low_now lo _ Hlo). cbn [mbind option_bind].
    rewrite (wait_clock_high_now hi _ Hhi). cbn [mbind option_bind].
    match goal with
    | |- context [ps2_send_loop _ ?b ?p ?c ?s1 _] =>
        destruct (IH b p c s1 rest Hps ltac:(lia)) as (s' & Hrun & Hsame & Hrx & Hi)
    end.
    exists s'. split; [exact Hrun |].
    destruct (negb (bit =? 0)); unfold same_but_pins in Hsame |- *;
      cbn in Hsame, Hrx, Hi; intuition congruence.
Qed.

(** [ps2_send] returns when the keyboard clocks the ten bits and the
    acknowledge: the result is taken from the sample [ack], interrupts are
    enabled, the receiver is idle and the buffers are untouched. *)
Lemma ps2_send_returns (byte : Z) (s : state) (ps : list (Z * Z))
    (lo ack hi : Z) (rest : list Z) :
  length ps = 10%nat -> Forall good_pulse ps ->
  Z.land lo PS2_CLOCK = 0 -> Z.land hi PS2_CLOCK <> 0 ->
  exists s',
    ps2_send byte s (pulse_train ps ++ lo :: ack :: hi :: rest)
    = Some (-1 * Z.land ack PS2_DATA, s', rest) /\
    same_but_pins s s' /\
    rx s' = mk_ps2_receiver PS2_IDLE 0 0 0 /\
    SREG_I (io s') = true.
Proof.
  intros Hlen Hps Hlo Hhi. unfold ps2_send, ps2_send_frame.
  match goal with
  | |- context [ps2_send_loop 10 ?b ?p ?c ?s1 _] =>
      destruct (ps2_send_loop_pulses ps b p c s1 (lo :: ack :: hi :: rest) Hps)
        as (s' & Hrun & Hsame & Hrx & Hi); [rewrite Hlen; reflexivity |]
  end.
  rewrite Hlen in Hrun. rewrite Hrun. cbn [mbind option_bind].
  unfold ps2_send_ack. rewrite (wait_clock_low_now lo _ Hlo).
  cbn [mbind option_bind]. rewrite (wait_clock_high_now hi _ Hhi).
  cbn [mbind option_bind]. eexists. split; [reflexivity |].
  unfold same_but_pins in Hsame |- *. cbn in Hsame, Hrx, Hi |- *.
  intuition congruence.
Qed.

(** C9, on an exchange where the keyboard acknowledges the byte 0xED and on
    one where it leaves the data line high. *)
Lemma ps2_send_result_witness :
  let clocks := pulse_train (replicate 10 (0, 8)) in
  (exists s1 tr1 pinb tr2,
     ps2_send_frame 0xED initial_state (clocks ++ [0; 0; 8]) = Some (s1, tr1) /\
     wait_clock_low tr1 = Some (pinb :: tr2) /\
     wait_clock_high tr2 = Some [] /\
     (0 < 0 <-> Z.testbit pinb 4 = true) /\
     (0 = 0 <-> Z.testbit pinb 4 = false) /\
     (0 = 0 \/ 0 = -16)) /\
  (exists s1 tr1 pinb tr2,
     ps2_send_frame 0xED initial_state (clocks ++ [0; 16; 24]) = Some (s1, tr1) /\
     wait_clock_low tr1 = Some (pinb :: tr2) /\
     wait_clock_high tr2 = Some [] /\
     (-16 < 0 <-> Z.testbit pinb 4 = true) /\
     (-16 = 0 <-> Z.testbit pinb 4 = false) /\
     (-16 = 0 \/ -16 = -16)).
Proof.
  split.
  - eapply (ps2_send_result 0xED initial_state
              (pulse_train (replicate 10 (0, 8)) ++ [0; 0; 8]) 0).
    vm_compute. reflexivity.
  - eapply (ps2_send_result 0xED initial_state
              (pulse_train (replicate 10 (0, 8)) ++ [0; 16; 24]) (-16)).
    vm_compute. reflexivity.
Defined.

(** ** Keyboard commands *)

(** C10.  For a code set below 1 or above 3, [kbd_code_set] returns the
    resend code 0xFE with the state and the pending samples of the pins as
    they were: nothing was sent and no scan code was taken from the buffer.
    Whenever [kbd_code_set] returns having sampled the pins, the code set
    is 1, 2 or 3, and in that case the command byte 0xF0 was sent first. *)
Theorem kbd_code_set_guard (set : Z) (s : state) (tr : list Z) :
  (set < 1 \/ 3 < set -> kbd_code_set set s tr = Some (PS2_KH_RESEND, s, tr)) /\
  (forall (r : Z) (s' : state) (tr' : list Z),
     kbd_code_set set s tr = Some (r, s', tr') ->
     (1 <= set <= 3 <-> (length tr' < length tr)%nat) /\
     (1 <= set <= 3 ->
      exists r1 s1 tr1, ps2_send PS2_HK_ALTCODE s tr = Some (r1, s1, tr1))).
Proof.
  unfold kbd_code_set.
  destruct (Z.ltb_spec set 1) as [Hlo | Hlo];
    [| destruct (Z.ltb_spec 3 set) as [Hhi | Hhi]]; cbn [orb].
  - split; [reflexivity |]. intros r s' tr' H. injection H as _ _ <-.
    split; [split |]; lia.
  - split; [reflexivity |]. intros r s' tr' H. injection H as _ _ <-.
    split; [split |]; lia.
  - split; [lia |]. intros r s' tr' H.
    destruct (ps2_send PS2_HK_ALTCODE s tr) as [[[r1 s1] tr1] |] eqn:H1;
      [| discriminate].
    cbn [mbind option_bind] in H. apply ps2_send_length in H1.
    destruct (ps2_recv_x s1 tr1) as [[[r2 s2] tr2] |] eqn:H2; [| discriminate].
    cbn [mbind option_bind] in H. apply ps2_recv_x_length in H2.
    assert (length tr' <= length tr2)%nat as Hle.
    { destruct (r2 =? PS2_KH_ACK).
      - destruct (ps2_send (uint8 set) s2 tr2) as [[[r3 s3] tr3] |] eqn:H3;
          [| discriminate].
        cbn [mbind option_bind] in H. apply ps2_send_length in H3.
        apply ps2_recv_x_length in H. lia.
      - injection H as _ _ <-. lia. }
    split; [split; intros _; lia |]. intros _. eauto.
Qed.

(** C10, at the code sets 0 and 4, and at the code set 1 with a keyboard
    that acknowledges both bytes with 0xFA. *)
Lemma kbd_code_set_guard_witness :
  kbd_code_set 0 (scan_loaded [0xFA]) [0; 16] = Some (0xFE, scan_loaded [0xFA], [0; 16]) /\
  kbd_code_set 4 (scan_loaded [0xFA]) [0; 16] = Some (0xFE, scan_loaded [0xFA], [0; 16]) /\
  (let sent := pulse_train (replicate 10 (0, 8)) ++ [0; 0; 8] in
   let ack := [0; 0; 16; 0; 16; 16; 16; 16; 16; 16; 16] in
   exists s',
     kbd_code_set 1 initial_state (sent ++ ack ++ sent ++ ack) = Some (0xFA, s', []) /\
     (1 <= 1 <= 3 <-> (length (@nil Z) < length (sent ++ ack ++ sent ++ ack))%nat)).
Proof.
  split; [| split].
  - apply (proj1 (kbd_code_set_guard 0 (scan_loaded [0xFA]) [0; 16])). left. lia.
  - apply (proj1 (kbd_code_set_guard 4 (scan_loaded [0xFA]) [0; 16])). right. lia.
  - intros sent ack. eexists. split; [vm_compute; reflexivity |].
    eapply (proj2 (kbd_code_set_guard 1 initial_state (sent ++ ack ++ sent ++ ack))).
    vm_compute. reflexivity.
Defined.

(** ** The blocking read and the receiver together *)

(** Pin changes that leave the clock high can be dropped from a run. *)
Lemma run_PCINT0_ignores_high (pinbs : list Z) :
  forall s : state,
    run_PCINT0 pinbs s
    = run_PCINT0 (List.filter (fun pinb => Z.land pinb PS2_CLOCK =? 0) pinbs) s.
Proof.
  induction pinbs as [| pinb pinbs IH]; intros s; [reflexivity |].
  cbn [List.filter]. destruct (Z.eqb_spec (Z.land pinb PS2_CLOCK) 0) as [E | E].
  - rewrite !run_PCINT0_cons. apply IH.
  - rewrite run_PCINT0_cons, PCINT0_clock_high by exact E. apply IH.
Qed.

(** While the buffer is empty the blocking read lets the handler serve the
    next pin change. *)
Lemma ps2_recv_x_spin (s : state) (pinb : Z) (tr : list Z) :
  ps2_scan_code_count (scanq s) <= 0 -> SREG_I (io s) = true ->
  ps2_recv_x s (pinb :: tr) = ps2_recv_x (PCINT0_vect pinb s) tr.
Proof.
  intros He Hi. cbn [ps2_recv_x]. rewrite ps2_recv_empty by exact He.
  cbn [Z.eqb Pos.eqb]. rewrite Hi. reflexivity.
Qed.

Lemma ps2_recv_x_data_bits (bits : list bool) :
  forall (pinbs : list Z) (s : state) (v k p : Z) (tr : list Z),
    rx s = mk_ps2_receiver (if k =? 8 then PS2_PARITY else PS2_DATA_BITS) v k p ->
    Forall2 low_edge bits pinbs ->
    0 <= k -> k + Z.of_nat (length bits) <= 8 -> 0 <= v < 2 ^ k ->
    ps2_scan_code_count (scanq s) <= 0 -> SREG_I (io s) = true ->
    ps2_recv_x s (pinbs ++ tr) = ps2_recv_x (run_PCINT0 pinbs s) tr.
Proof.
  induction bits as [| b bits IH]; intros pinbs s v k p tr Hrx Hedges Hk Hlen Hv He Hi.
  - apply Forall2_nil_inv_l in Hedges. subst pinbs. reflexivity.
  - apply Forall2_cons_inv_l in Hedges as (pinb & pinbs' & Hedge & Hedges & ->).
    cbn [length] in Hlen. destruct (Z.eqb_spec k 8) as [| _]; [lia |].
    cbn [app]. rewrite ps2_recv_x_spin, run_PCINT0_cons by assumption.
    rewrite (PCINT0_data_bit b pinb s v k p Hrx Hedge) by lia.
    assert (2 ^ (k + 1) = 2 * 2 ^ k) as Hp by (rewrite Z.pow_add_r by lia; lia).
    assert (0 <= Z.b2z b <= 1) as Hb by (destruct b; cbn; lia).
    apply (IH pinbs' _ (v + 2 ^ k * Z.b2z b) (k + 1) (p + Z.b2z b));
      try assumption; try reflexivity; try lia; nia.
Qed.

(** The blocking read on an empty buffer returns the byte of the next valid
    frame, and has consumed the samples of that frame. *)
Lemma ps2_recv_x_frame (s : state) (f : frame) (pinbs tr : list Z) :
  ps2_rx_state (rx s) = PS2_IDLE ->
  scanq_wf s ->
  ps2_scan_code_count (scanq s) = 0 ->
  SREG_I (io s) = true ->
  valid_frame f ->
  Forall2 low_edge (frame_bits f) pinbs ->
  exists s',
    ps2_recv_x s (pinbs ++ tr) = Some (byte_of_bits (data_bits f), s', tr) /\
    scan_contents s' = [] /\
    scanq_wf s' /\
    keyq s' = keyq s /\
    ps2_rx_state (rx s') = PS2_IDLE.
Proof.
  intros Hidle Hwf H0 Hi (Hstart & Hlen & Hpar & Hstop) Hedges.
  destruct (frame_edges_split f pinbs Hedges)
    as (p0 & pd & pp & pt & -> & E0 & Ed & Ep & Et).
  rewrite Hstart in E0. rewrite Hstop in Et.
  cbn [app]. rewrite ps2_recv_x_spin by (assumption || lia).
  rewrite (PCINT0_idle false p0 s Hidle E0). rewrite <- app_assoc.
  rewrite (ps2_recv_x_data_bits (data_bits f) pd _ 0 0 0);
    [| reflexivity | exact Ed | lia | lia | cbn; lia | cbn; lia | exact Hi].
  pose proof (run_PCINT0_start_data s (data_bits f) (p0 :: pd) Hidle Hlen
                ltac:(constructor; assumption)) as Hsd.
  rewrite run_PCINT0_cons, (PCINT0_idle false p0 s Hidle E0) in Hsd.
  rewrite Hsd. cbn [app].
  rewrite ps2_recv_x_spin by (cbn; (assumption || lia)).
  rewrite (PCINT0_parity (parity_bit f) pp) by (reflexivity || exact Ep).
  cbn [rx with_rx ps2_rx_parity]. unfold odd_parity in Hpar. rewrite Hpar.
  rewrite ps2_recv_x_spin by (cbn; (assumption || lia)).
  rewrite (PCINT0_stop true pt) by (reflexivity || exact Et).
  cbn [scanq with_rx_state with_rx with_scanq rx keyq ps2_scan_code_count
       ps2_rx_data_byte ps2_buffer_in ps2_buffer_out ps2_scan_codes].
  destruct (Z.ltb_spec (ps2_scan_code_count (scanq s)) PS2_BUFF_SIZE) as [Hroom |];
    [| unfold PS2_BUFF_SIZE in *; lia].
  destruct (ring_push _ _ _ _ _ (byte_of_bits (data_bits f)) Hwf Hroom) as [Hwf' Hc].
  pose proof (byte_of_bits_range (data_bits f)) as Hr. rewrite Hlen in Hr.
  replace (ring_contents PS2_BUFF_SIZE (ps2_scan_codes (scanq s))
             (ps2_buffer_out (scanq s)) (Z.to_nat (ps2_scan_code_count (scanq s))))
    with (@nil Z) in Hc by (rewrite H0; reflexivity).
  match goal with
  | |- context [ps2_recv_x ?s4 tr] =>
      destruct (ps2_recv_x_cons s4 tr (byte_of_bits (data_bits f)) [] Hwf' Hc)
        as (q & Hrun & Hc' & Hwf''); [lia |]
  end.
  rewrite Hrun. eexists. split; [reflexivity |].
  split; [exact Hc' |]. split; [exact Hwf'' |]. split; reflexivity.
Qed.

(** The translator waiting for the rest of a Pause/Break sequence: with
    only the lead byte in the buffer, the bytes 0x1D and 0x45 arrive as
    frames while [main] is in the blocking read.  Nothing is stored. *)
Example pause_break_blocking :
  let frame_1D := [0; 16; 0; 16; 16; 16; 0; 0; 0; 16; 16] in
  let frame_45 := [0; 16; 0; 16; 0; 0; 0; 16; 0; 0; 16] in
  match main_loop_body 0 (scan_loaded [0xE1]) (frame_1D ++ frame_45) with
  | Some (kdb_lock_state, s', tr') =>
      tr' = [] /\ scan_contents s' = [] /\ key_contents s' = [] /\
      ps2_rx_state (rx s') = PS2_IDLE
  | None => False
  end.
Proof. vm_compute. repeat split. Qed.

(** ** Ranges of the C integers *)

Lemma uint8_range (x : Z) : 0 <= uint8 x < 256.
Proof. apply Z.mod_pos_bound. reflexivity. Qed.

(** The receive handler keeps its accumulators in range. *)
Lemma PCINT0_rx_wf (pinb : Z) (s : state) : rx_wf s -> rx_wf (PCINT0_vect pinb s).
Proof.
  intros (Hc & Hp & Hb & Hd). unfold PCINT0_vect.
  destruct (Z.land pinb PS2_CLOCK =? 0); [| repeat split; tauto || lia].
  rewrite data_bit_of_pinb.
  assert (0 <= Z.b2z (Z.testbit pinb 4) <= 1) as Hbit
    by (destruct (Z.testbit pinb 4); cbn; lia).
  set (bit := Z.b2z (Z.testbit pinb 4)) in *. clearbody bit.
  destruct (ps2_rx_state (rx s)) eqn:Hst; unfold rx_wf.
  - destruct (_ =? 0); cbn; repeat split; try lia; intros; try discriminate; try lia.
  - specialize (Hd eq_refl). cbn.
    match goal with
    | |- context [uint8 (ps2_rx_data_byte (rx s) + ?x)] =>
        pose proof (uint8_range (ps2_rx_data_byte (rx s) + x))
    end.
    destruct (Z.eqb_spec (ps2_rx_bit_count (rx s) + 1) 8);
      repeat split; try lia; intros; try discriminate; try lia.
  - destruct (negb _); cbn; repeat split; try lia; intros; try discriminate; try lia.
  - destruct (_ =? 1); [destruct (_ <? _) |]; cbn; repeat split; try lia;
      intros; try discriminate; try lia.
  - rewrite Hst. repeat split; try lia; intros; try discriminate; try lia.
  - rewrite Hst. repeat split; try lia; intros; try discriminate; try lia.
  - rewrite Hst. repeat split; try lia; intros; try discriminate; try lia.
  - rewrite Hst. repeat split; try lia; intros; try discriminate; try lia.
Qed.

(** ** The whole path, on an example

    Nine scan codes wait in the input buffer: the A key pressed, the down
    arrow (extended), Tab, the key of code 54 released, the first half of
    Pause/Break, and the A key released.  Six iterations of the main loop
    leave four key codes, which the host then reads one per transfer. *)
Example keyboard_to_host :
  match main_loop 6 0
          (scan_loaded [0x1E; 0xE0; 0x50; 0x0F; 0xB6; 0xE1; 0x1D; 0x45; 0x9E]) []
  with
  | Some (kdb_lock_state, s, tr) =>
      scan_contents s = [] /\
      key_contents s = [0x1E; 0x50; 0xAA; 0x9E] /\
      fst (host_exchanges [0; 0; 0; 0; 0; 0] s) = [0; 0x1E; 0x50; 0xAA; 0x9E; 0]
  | None => False
  end.
Proof. vm_compute. repeat split. Qed.

(** * Further properties of the code *)

(** ** Reception of several frames *)

(** The state a valid frame leaves, when the buffer has room. *)
Lemma run_PCINT0_frame (s : state) (f : frame) (pinbs : list Z) :
  ps2_rx_state (rx s) = PS2_IDLE ->
  scanq_wf s ->
  ps2_scan_code_count (scanq s) < PS2_BUFF_SIZE ->
  valid_frame f ->
  Forall2 low_edge (frame_bits f) pinbs ->
  exists q,
    run_PCINT0 pinbs s
    = with_rx (mk_ps2_receiver PS2_IDLE (byte_of_bits (data_bits f)) 8
                 (count_ones (data_bits f)))
        (with_scanq q s) /\
    scan_contents (with_scanq q s)
    = scan_contents s ++ [byte_of_bits (data_bits f)] /\
    ps2_scan_code_count q = ps2_scan_code_count (scanq s) + 1 /\
    scanq_wf (with_scanq q s).
Proof.
  intros Hidle Hwf Hroom (Hstart & Hlen & Hpar & Hstop) Hedges.
  destruct (frame_edges_split f pinbs Hedges)
    as (p0 & pd & pp & pt & -> & E0 & Ed & Ep & Et).
  rewrite Hstart in E0. rewrite Hstop in Et.
  change (p0 :: pd ++ [pp; pt]) with ((p0 :: pd) ++ [pp; pt]).
  rewrite run_PCINT0_app, (run_PCINT0_start_data s (data_bits f) (p0 :: pd) Hidle Hlen)
    by (constructor; assumption).
  rewrite !run_PCINT0_cons.
  rewrite (PCINT0_parity (parity_bit f) pp) by (reflexivity || exact Ep).
  cbn [rx with_rx ps2_rx_parity]. unfold odd_parity in Hpar. rewrite Hpar.
  rewrite (PCINT0_stop true pt) by (reflexivity || exact Et).
  cbn [scanq with_rx_state with_rx with_scanq rx keyq ps2_scan_code_count
       ps2_rx_data_byte ps2_buffer_in ps2_buffer_out ps2_scan_codes].
  destruct (Z.ltb_spec (ps2_scan_code_count (scanq s)) PS2_BUFF_SIZE); [| lia].
  destruct (ring_push _ _ _ _ _ (byte_of_bits (data_bits f)) Hwf Hroom) as [Hwf' Hc].
  eexists. split; [reflexivity |]. split; [exact Hc |]. split; [reflexivity | exact Hwf'].
Qed.

(** X1.  Valid frames received one after the other, as long as the buffer
    has room for all of them, are stored in the order of arrival: the
    contents of the scan code buffer grow by the bytes of the frames, in
    order, and the receiver is idle again. *)
Theorem frames_received_in_order (fs : list frame) :
  forall (pss : list (list Z)) (s : state),
    ps2_rx_state (rx s) = PS2_IDLE ->
    scanq_wf s ->
    ps2_scan_code_count (scanq s) + Z.of_nat (length fs) <= PS2_BUFF_SIZE ->
    Forall valid_frame fs ->
    frames_on_wire fs pss ->
    let s' := run_PCINT0 (concat pss) s in
    ps2_rx_state (rx s') = PS2_IDLE /\
    scan_contents s' = scan_contents s ++ map (fun f => byte_of_bits (data_bits f)) fs /\
    scanq_wf s' /\
    keyq s' = keyq s.
Proof.
  induction fs as [| f fs IH]; intros pss s Hidle Hwf Hroom Hvalid Hwire.
  - apply Forall2_nil_inv_l in Hwire. subst pss. cbn [concat map].
    rewrite app_nil_r. auto.
  - apply Forall2_cons_inv_l in Hwire as (ps & pss' & Hps & Hwire & ->).
    apply Forall_cons in Hvalid as [Hf Hvalid]. cbn [length] in Hroom.
    destruct (run_PCINT0_frame s f ps Hidle Hwf ltac:(lia) Hf Hps)
      as (q & Hrun & Hc & Hcount & Hwf').
    cbn [concat]. rewrite run_PCINT0_app, Hrun.
    match goal with
    | |- context [run_PCINT0 (concat pss') ?s1] =>
        destruct (IH pss' s1) as (Hi & Hcs & Hw & Hk);
          [reflexivity | exact Hwf' | cbn; lia | exact Hvalid | exact Hwire |]
    end.
    cbv zeta. split; [exact Hi |]. split; [| split; [exact Hw | exact Hk]].
    rewrite Hcs. change (scan_contents (with_rx _ (with_scanq q s)))
      with (scan_contents (with_scanq q s)).
    rewrite Hc, <- app_assoc. reflexivity.
Qed.

(** X1, at the frames of 0x1D and 0x45 after reset. *)
Lemma frames_received_in_order_witness :
  let f1 := mk_frame false [true; false; true; true; true; false; false; false] true true in
  let f2 := mk_frame false [true; false; true; false; false; false; true; false] false true in
  let s' := run_PCINT0 (concat [[0; 16; 0; 16; 16; 16; 0; 0; 0; 16; 16];
                                [0; 16; 0; 16; 0; 0; 0; 16; 0; 0; 16]])
              initial_state in
  ps2_rx_state (rx s') = PS2_IDLE /\
  scan_contents s' = scan_contents initial_state ++ [0x1D; 0x45] /\
  scanq_wf s' /\
  keyq s' = keyq initial_state.
Proof.
  intros f1 f2.
  apply (frames_received_in_order [f1; f2]).
  - reflexivity.
  - wf_by_computation.
  - vm_compute. discriminate.
  - repeat constructor.
  - repeat constructor.
Defined.

(** X2.  A valid frame that arrives while the scan code buffer is full is
    lost: the receiver ends in the overrun state, the buffer is as it was,
    and no later sample changes the state. *)
Theorem frame_lost_on_overrun (s : state) (f : frame) (pinbs later : list Z) :
  ps2_rx_state (rx s) = PS2_IDLE ->
  PS2_BUFF_SIZE <= ps2_scan_code_count (scanq s) ->
  valid_frame f ->
  Forall2 low_edge (frame_bits f) pinbs ->
  let s' := run_PCINT0 pinbs s in
  ps2_rx_state (rx s') = PS2_RX_ERR_OVERRUN /\
  scanq s' = scanq s /\
  keyq s' = keyq s /\
  run_PCINT0 later s' = s'.
Proof.
  intros Hidle Hfull (Hstart & Hlen & Hpar & Hstop) Hedges s'.
  assert (ps2_rx_state (rx s') = PS2_RX_ERR_OVERRUN /\ scanq s' = scanq s /\
          keyq s' = keyq s) as (Hst & Hq & Hk).
  { subst s'.
    destruct (frame_edges_split f pinbs Hedges)
      as (p0 & pd & pp & pt & -> & E0 & Ed & Ep & Et).
    rewrite Hstart in E0. rewrite Hstop in Et.
    change (p0 :: pd ++ [pp; pt]) with ((p0 :: pd) ++ [pp; pt]).
    rewrite run_PCINT0_app,
      (run_PCINT0_start_data s (data_bits f) (p0 :: pd) Hidle Hlen)
      by (constructor; assumption).
    rewrite !run_PCINT0_cons.
    rewrite (PCINT0_parity (parity_bit f) pp) by (reflexivity || exact Ep).
    cbn [rx with_rx ps2_rx_parity]. unfold odd_parity in Hpar. rewrite Hpar.
    rewrite (PCINT0_stop true pt) by (reflexivity || exact Et).
    cbn [scanq with_rx_state with_rx].
    destruct (Z.ltb_spec (ps2_scan_code_count (scanq s)) PS2_BUFF_SIZE); [lia |].
    repeat split. }
  repeat split; try assumption.
  apply run_PCINT0_error_latched. rewrite Hst. reflexivity.
Qed.

(** X2, at the frame of 0x1C sent to a receiver whose buffer is full. *)
Lemma frame_lost_on_overrun_witness :
  let s := with_rx (mk_ps2_receiver PS2_IDLE 0 0 0) full_state in
  let s' := run_PCINT0 [0; 0; 0; 16; 16; 16; 0; 0; 0; 0; 16] s in
  ps2_rx_state (rx s') = PS2_RX_ERR_OVERRUN /\
  scanq s' = scanq s /\
  keyq s' = keyq s /\
  run_PCINT0 [0; 16; 8] s' = s'.
Proof.
  intros s.
  apply (frame_lost_on_overrun s
           (mk_frame false [false; false; true; true; true; false; false; false]
              false true)).
  - reflexivity.
  - vm_compute. discriminate.
  - repeat split.
  - repeat constructor.
Defined.

(** ** The buffers as first-in first-out queues *)

Lemma ps2_recv_n_empty (m : nat) (s : state) :
  ps2_scan_code_count (scanq s) <= 0 ->
  ps2_recv_n m s = (replicate m (-1), s).
Proof.
  intros He. induction m as [| m IH]; [reflexivity |].
  cbn [ps2_recv_n replicate]. rewrite ps2_recv_empty by exact He.
  rewrite IH. reflexivity.
Qed.

Lemma ps2_recv_n_contents (l : list Z) :
  forall (m : nat) (s : state),
    scanq_wf s -> scan_contents s = l ->
    exists s',
      ps2_recv_n (length l + m) s = (l ++ replicate m (-1), s') /\
      ps2_scan_code_count (scanq s') = 0 /\
      scanq_wf s' /\ keyq s' = keyq s /\ rx s' = rx s.
Proof.
  induction l as [| x l IH]; intros m s Hwf Hc.
  - assert (ps2_scan_code_count (scanq s) = 0) as H0.
    { destruct Hwf as (_ & _ & Hcnt & _).
      apply (ring_contents_nil_count _ _ _ _ (proj1 Hcnt) Hc). }
    exists s. rewrite ps2_recv_n_empty by lia. auto.
  - destruct (ps2_recv_cons s x l Hwf Hc) as (q & Hr & Hc' & Hwf').
    destruct (IH m _ Hwf' Hc') as (s' & Hrun & H0 & Hwf'' & Hk & Hrx).
    exists s'. cbn [length Nat.add ps2_recv_n app]. rewrite Hr, Hrun. auto.
Qed.

(** X3.  [ps2_recv] hands out the waiting scan codes oldest first, one per
    call, and then -1 on every further call; the buffer ends empty and the
    key code buffer is not touched. *)
Theorem ps2_recv_oldest_first (s : state) (m : nat) :
  scanq_wf s ->
  fst (ps2_recv_n (length (scan_contents s) + m) s)
  = scan_contents s ++ replicate m (-1) /\
  scan_contents (snd (ps2_recv_n (length (scan_contents s) + m) s)) = [] /\
  scanq_wf (snd (ps2_recv_n (length (scan_contents s) + m) s)) /\
  keyq (snd (ps2_recv_n (length (scan_contents s) + m) s)) = keyq s.
Proof.
  intros Hwf.
  destruct (ps2_recv_n_contents (scan_contents s) m s Hwf eq_refl)
    as (s' & Hrun & H0 & Hwf' & Hk & _).
  rewrite Hrun. cbn [fst snd]. split; [reflexivity |].
  split; [| split; assumption].
  unfold scan_contents. rewrite H0. reflexivity.
Qed.

(** X3, with three scan codes waiting and five calls. *)
Lemma ps2_recv_oldest_first_witness :
  fst (ps2_recv_n 5 (scan_loaded [0x1E; 0xE0; 0x50])) = [0x1E; 0xE0; 0x50; -1; -1] /\
  scan_contents (snd (ps2_recv_n 5 (scan_loaded [0x1E; 0xE0; 0x50]))) = [] /\
  scanq_wf (snd (ps2_recv_n 5 (scan_loaded [0x1E; 0xE0; 0x50]))) /\
  keyq (snd (ps2_recv_n 5 (scan_loaded [0x1E; 0xE0; 0x50])))
  = keyq (scan_loaded [0x1E; 0xE0; 0x50]).
Proof.
  apply (ps2_recv_oldest_first (scan_loaded [0x1E; 0xE0; 0x50]) 2).
  wf_by_computation.
Defined.




(** ** The two interrupt handlers *)

(** The receive handler leaves the key code buffer, the latched command,
    the lock keys and the registers alone. *)
Lemma PCINT0_other_fields (pinb : Z) (s : state) :
  keyq (PCINT0_vect pinb s) = keyq s /\
  command_in (PCINT0_vect pinb s) = command_in s /\
  kbd_lock_keys (PCINT0_vect pinb s) = kbd_lock_keys s /\
  io (PCINT0_vect pinb s) = io s.
Proof.
  unfold PCINT0_vect.
  destruct (Z.land pinb PS2_CLOCK =? 0); [| auto].
  destruct (ps2_rx_state (rx s)); auto.
  - destruct (_ =? 0); auto.
  - destruct (negb _); auto.
  - destruct (_ =? 1); [destruct (_ <? _) |]; auto.
Qed.

(** The host handler leaves the scan code buffer, the receiver and the lock
    keys alone. *)
Lemma USI_OVF_other_fields (s : state) :
  scanq (USI_OVF_vect s) = scanq s /\
  rx (USI_OVF_vect s) = rx s /\
  kbd_lock_keys (USI_OVF_vect s) = kbd_lock_keys s.
Proof.
  unfold USI_OVF_vect, read_key. cbn [keyq with_command_in].
  destruct (0 <? key_code_count (keyq s)); cbv beta iota zeta;
    destruct (_ =? -1); auto.
Qed.

(** What the receive handler does to the receiver and the scan code buffer
    depends on these two alone. *)
Lemma PCINT0_local (pinb : Z) (s1 s2 : state) :
  rx s1 = rx s2 -> scanq s1 = scanq s2 ->
  rx (PCINT0_vect pinb s1) = rx (PCINT0_vect pinb s2) /\
  scanq (PCINT0_vect pinb s1) = scanq (PCINT0_vect pinb s2).
Proof.
  intros Hr Hq. unfold PCINT0_vect. rewrite Hr.
  destruct (Z.land pinb PS2_CLOCK =? 0); [| auto].
  unfold with_rx_state, with_rx, with_scanq. cbn [rx scanq]. rewrite Hr, Hq.
  destruct (ps2_rx_state (rx s2)); auto.
  - destruct (_ =? 0); auto.
  - destruct (negb _); auto.
  - destruct (_ =? 1); [destruct (_ <? _) |]; auto.
Qed.

Lemma state_shape (s1 s : state) :
  keyq s1 = keyq s -> command_in s1 = command_in s ->
  kbd_lock_keys s1 = kbd_lock_keys s -> io s1 = io s ->
  s1 = with_rx (rx s1) (with_scanq (scanq s1) s).
Proof. destruct s1, s. cbn. intros -> -> -> ->. reflexivity. Qed.

Lemma USI_OVF_with_rx_scanq (r : ps2_receiver) (q : ps2_buffer) (s : state) :
  USI_OVF_vect (with_rx r (with_scanq q s)) = with_rx r (with_scanq q (USI_OVF_vect s)).
Proof.
  unfold USI_OVF_vect, read_key. cbn [keyq with_rx with_scanq with_command_in].
  destruct (0 <? key_code_count (keyq s)); cbv beta iota zeta;
    destruct (_ =? -1); reflexivity.
Qed.

(** X5.  The two interrupt handlers work on disjoint parts of the state:
    served in either order, a pin change and a completed host transfer
    leave the same state. *)
Theorem interrupt_handlers_commute (pinb : Z) (s : state) :
  USI_OVF_vect (PCINT0_vect pinb s) = PCINT0_vect pinb (USI_OVF_vect s).
Proof.
  destruct (PCINT0_other_fields pinb s) as (Hk & Hc & Hl & Hi).
  rewrite (state_shape (PCINT0_vect pinb s) s Hk Hc Hl Hi) at 1.
  rewrite USI_OVF_with_rx_scanq.
  destruct (PCINT0_other_fields pinb (USI_OVF_vect s)) as (Hk' & Hc' & Hl' & Hi').
  rewrite (state_shape (PCINT0_vect pinb (USI_OVF_vect s)) (USI_OVF_vect s)
             Hk' Hc' Hl' Hi').
  destruct (USI_OVF_other_fields s) as (Hq & Hr & _).
  destruct (PCINT0_local pinb (USI_OVF_vect s) s Hr Hq) as [-> ->].
  reflexivity.
Qed.

(** ** What a transmission does to the state *)

Lemma same_but_pins_refl (s : state) : same_but_pins s s.
Proof. repeat split. Qed.

Lemma same_but_pins_trans (s1 s2 s3 : state) :
  same_but_pins s1 s2 -> same_but_pins s2 s3 -> same_but_pins s1 s3.
Proof. unfold same_but_pins. intuition congruence. Qed.

Lemma ps2_send_loop_same (fuel : nat) :
  forall (byte par cnt : Z) (s : state) (tr : list Z) (s' : state) (tr' : list Z),
    ps2_send_loop fuel byte par cnt s tr = Some (s', tr') ->
    same_but_pins s s' /\ rx s' = rx s /\ SREG_I (io s') = SREG_I (io s).
Proof.
  induction fuel as [| fuel IH]; intros byte par cnt s tr s' tr' H;
    cbn [ps2_send_loop] in H; destruct (cnt <? 10); try discriminate;
    try (injection H as <- _; split; [apply same_but_pins_refl | auto]).
  destruct (if cnt <? 8 then _ else _) as [bit par'].
  destruct (wait_clock_low tr) as [tr1 |]; [| discriminate].
  cbn [mbind option_bind] in H.
  destruct (wait_clock_high tr1) as [tr2 |]; [| discriminate].
  cbn [mbind option_bind] in H.
  apply IH in H. destruct H as (Hsame & Hrx & Hi).
  destruct (negb (bit =? 0)); unfold same_but_pins in Hsame |- *;
    cbn in Hsame, Hrx, Hi; intuition congruence.
Qed.

(** Whatever the state before, a [ps2_send] that returns leaves the
    receiver idle and cleared and interrupts enabled, and has not touched
    the buffers. *)
Lemma ps2_send_effect (byte : Z) (s : state) (tr : list Z) (r : Z) (s' : state)
    (tr' : list Z) :
  ps2_send byte s tr = Some (r, s', tr') ->
  same_but_pins s s' /\
  rx s' = mk_ps2_receiver PS2_IDLE 0 0 0 /\
  SREG_I (io s') = true.
Proof.
  unfold ps2_send, ps2_send_frame. intros H.
  destruct (ps2_send_loop _ _ _ _ _ _) as [[s1 tr1] |] eqn:Hloop; [| discriminate].
  apply ps2_send_loop_same in Hloop. destruct Hloop as (Hsame & Hrx & Hi).
  cbn [mbind option_bind] in H. unfold ps2_send_ack in H.
  destruct (wait_clock_low tr1) as [tr2 |]; [| discriminate].
  cbn [mbind option_bind] in H.
  destruct tr2 as [| pinb tr2]; [discriminate |].
  destruct (wait_clock_high tr2) as [tr3 |]; [| discriminate].
  cbn [mbind option_bind] in H. injection H as _ <- _.
  unfold same_but_pins in Hsame |- *. cbn in Hsame, Hrx, Hi |- *.
  intuition congruence.
Qed.

(** X6.  A [ps2_send] that returns also revives the receiver: whatever
    state the receiver was in before, a latched error included, it is idle
    afterwards, with interrupts enabled and both buffers as they were, and
    the next valid frame is stored if the buffer has room. *)
Theorem ps2_send_revives_receiver (byte : Z) (s : state) (tr : list Z) (r : Z)
    (s' : state) (tr' : list Z) (f : frame) (pinbs : list Z) :
  ps2_send byte s tr = Some (r, s', tr') ->
  scanq_wf s ->
  ps2_scan_code_count (scanq s) < PS2_BUFF_SIZE ->
  valid_frame f ->
  Forall2 low_edge (frame_bits f) pinbs ->
  ps2_rx_state (rx s') = PS2_IDLE /\
  SREG_I (io s') = true /\
  scanq s' = scanq s /\ keyq s' = keyq s /\
  scan_contents (run_PCINT0 pinbs s')
  = scan_contents s ++ [byte_of_bits (data_bits f)].
Proof.
  intros Hsend Hwf Hroom Hf Hedges.
  destruct (ps2_send_effect byte s tr r s' tr' Hsend)
    as ((Hq & Hk & _) & Hrx & Hi).
  assert (ps2_rx_state (rx s') = PS2_IDLE) as Hidle by (rewrite Hrx; reflexivity).
  assert (scanq_wf s') as Hwf' by (unfold scanq_wf; rewrite Hq; exact Hwf).
  destruct (run_PCINT0_frame s' f pinbs Hidle Hwf' ltac:(rewrite Hq; exact Hroom)
              Hf Hedges) as (q & Hrun & Hc & _).
  repeat (split; [assumption |]).
  rewrite Hrun.
  change (scan_contents (with_rx _ (with_scanq q s')))
    with (scan_contents (with_scanq q s')).
  rewrite Hc. unfold scan_contents. rewrite Hq. reflexivity.
Qed.

(** X6, at a receiver latched in the parity error state: after the byte
    0xED is sent, the frame of 0xFA is received. *)
Lemma ps2_send_revives_receiver_witness :
  let stuck := with_rx (mk_ps2_receiver PS2_RX_ERR_PARITY 0x1C 8 3) initial_state in
  let s' := with_io (mk_io_regs 0x02 0x18 0 0x40 true) initial_state in
  ps2_send 0xED stuck (pulse_train (replicate 10 (0, 8)) ++ [0; 0; 8])
  = Some (0, s', []) /\
  ps2_rx_state (rx s') = PS2_IDLE /\
  SREG_I (io s') = true /\
  scanq s' = scanq stuck /\ keyq s' = keyq stuck /\
  scan_contents (run_PCINT0 [0; 0; 16; 0; 16; 16; 16; 16; 16; 16; 16] s')
  = scan_contents stuck ++ [0xFA].
Proof.
  intros stuck s'.
  assert (ps2_send 0xED stuck (pulse_train (replicate 10 (0, 8)) ++ [0; 0; 8])
          = Some (0, s', [])) as Hsend by (vm_compute; reflexivity).
  split; [exact Hsend |].
  apply (ps2_send_revives_receiver 0xED stuck _ 0 s' []
           (mk_frame false [false; true; false; true; true; true; true; true]
              true true) _ Hsend).
  - wf_by_computation.
  - vm_compute. reflexivity.
  - repeat split.
  - repeat constructor.
Defined.

(** ** A keyboard that does not answer *)

Lemma wait_clock_low_count (tr tr' : list Z) :
  wait_clock_low tr = Some tr' -> count_clock_low tr = S (count_clock_low tr').
Proof.
  revert tr'. induction tr as [| pinb tr IH]; intros tr' H; [discriminate |].
  cbn [wait_clock_low] in H. unfold count_clock_low. cbn [List.filter].
  destruct (Z.land pinb PS2_CLOCK =? 0); cbn [negb] in H.
  - injection H as <-. reflexivity.
  - apply IH in H. exact H.
Qed.

Lemma wait_clock_high_count (tr tr' : list Z) :
  wait_clock_high tr = Some tr' -> (count_clock_low tr' <= count_clock_low tr)%nat.
Proof.
  revert tr'. induction tr as [| pinb tr IH]; intros tr' H; [discriminate |].
  cbn [wait_clock_high] in H. unfold count_clock_low in *. cbn [List.filter].
  destruct (Z.land pinb PS2_CLOCK =? 0).
  - apply IH in H. cbn [length]. lia.
  - injection H as <-. lia.
Qed.

Lemma ps2_send_loop_count (fuel : nat) :
  forall (byte par cnt : Z) (s : state) (tr : list Z) (s' : state) (tr' : list Z),
    ps2_send_loop fuel byte par cnt s tr = Some (s', tr') ->
    0 <= cnt <= 10 ->
    (count_clock_low tr' + Z.to_nat (10 - cnt) <= count_clock_low tr)%nat.
Proof.
  induction fuel as [| fuel IH]; intros byte par cnt s tr s' tr' H Hcnt;
    cbn [ps2_send_loop] in H; destruct (Z.ltb_spec cnt 10); try discriminate;
    try (injection H as _ <-; lia).
  destruct (if cnt <? 8 then _ else _) as [bit par'].
  destruct (wait_clock_low tr) as [tr1 |] eqn:H1; [| discriminate].
  cbn [mbind option_bind] in H.
  destruct (wait_clock_high tr1) as [tr2 |] eqn:H2; [| discriminate].
  cbn [mbind option_bind] in H.
  apply IH in H; [| lia]. apply wait_clock_low_count in H1.
  apply wait_clock_high_count in H2. lia.
Qed.

Lemma ps2_send_needs_clock (byte : Z) (s : state) (tr : list Z) (r : Z)
    (s' : state) (tr' : list Z) :
  ps2_send byte s tr = Some (r, s', tr') -> (11 <= count_clock_low tr)%nat.
Proof.
  unfold ps2_send, ps2_send_frame, ps2_send_ack. intros H.
  destruct (ps2_send_loop _ _ _ _ _ _) as [[s1 tr1] |] eqn:Hloop; [| discriminate].
  apply ps2_send_loop_count in Hloop; [| lia].
  cbn [mbind option_bind] in H.
  destruct (wait_clock_low tr1) as [tr2 |] eqn:H1; [| discriminate].
  apply wait_clock_low_count in H1. clear H. lia.
Qed.

(** X7.  [ps2_send] needs the keyboard to pull the clock low eleven times
    (ten bits and the acknowledge).  On samples that show the clock low
    fewer than eleven times it never returns; a keyboard that leaves the
    clock high blocks the caller for good. *)
Theorem ps2_send_stalls_without_clock (byte : Z) (s : state) (tr : list Z) :
  (count_clock_low tr < 11)%nat -> ps2_send byte s tr = None.
Proof.
  intros Hlow. destruct (ps2_send byte s tr) as [[[r s'] tr'] |] eqn:H;
    [| reflexivity].
  apply ps2_send_needs_clock in H. lia.
Qed.

(** X7, at a keyboard that leaves the clock high, and at one that stops
    after the ten bits. *)
Lemma ps2_send_stalls_without_clock_witness :
  ps2_send 0xED initial_state (replicate 100 8) = None /\
  ps2_send 0xED initial_state (pulse_train (replicate 10 (0, 8)) ++ replicate 40 24)
  = None.
Proof.
  split.
  - apply ps2_send_stalls_without_clock. vm_compute. lia.
  - apply ps2_send_stalls_without_clock. vm_compute. lia.
Defined.

(** ** The invariant of the firmware *)

(** A property of all bytes, checked on each of the 256. *)
Lemma byte_cases (P : Z -> bool) :
  forallb P (map Z.of_nat (seq 0 256)) = true ->
  forall c : Z, 0 <= c < 256 -> P c = true.
Proof.
  intros H c Hc. rewrite forallb_forall in H. apply H.
  apply in_map_iff. exists (Z.to_nat c). split; [lia |]. apply in_seq. lia.
Qed.

(** What [main_filter] lets through is a normalized key code with the
    break flag of the scan code. *)
Lemma main_filter_key_code (c k : Z) :
  0 <= c < 256 -> main_filter c = Some k ->
  key_code_okb k = true /\ Z.testbit k 7 = Z.testbit c 7 /\ uint8 k = k.
Proof.
  intros Hc Hk.
  pose proof (byte_cases
                (fun c => match main_filter c with
                          | None => true
                          | Some k => key_code_okb k &&
                                      Bool.eqb (Z.testbit k 7) (Z.testbit c 7) &&
                                      (uint8 k =? k)
                          end) ltac:(vm_compute; reflexivity) c Hc) as H.
  cbv beta in H. rewrite Hk in H.
  apply andb_prop in H as [H H3]. apply andb_prop in H as [H1 H2].
  apply eqb_prop in H2. apply Z.eqb_eq in H3. auto.
Qed.

Lemma array_get_byte (a : list Z) (i : Z) : all_bytes a -> 0 <= array_get a i < 256.
Proof.
  intros Ha. unfold array_get. destruct (a !! Z.to_nat i) as [x |] eqn:E; cbn.
  - exact (Forall_lookup_1 _ _ _ _ Ha E).
  - lia.
Qed.

Lemma array_get_zero_or_key (a : list Z) (i : Z) :
  Forall zero_or_key a -> zero_or_key (array_get a i).
Proof.
  intros Ha. unfold array_get. destruct (a !! Z.to_nat i) as [x |] eqn:E; cbn.
  - exact (Forall_lookup_1 _ _ _ _ Ha E).
  - left. reflexivity.
Qed.

Lemma scan_side_only_refl (s : state) : scan_side_only s s.
Proof. repeat split. Qed.

Lemma scan_side_only_trans (s1 s2 s3 : state) :
  scan_side_only s1 s2 -> scan_side_only s2 s3 -> scan_side_only s1 s3.
Proof. unfold scan_side_only. intuition congruence. Qed.

(** The invariant does not look at the parts of the state that the scan
    side leaves alone, beyond their being the same. *)
Lemma firmware_ok_scan_side (s s' : state) :
  firmware_ok s -> scan_side_only s s' ->
  scanq_wf s' -> rx_wf s' -> all_bytes (ps2_scan_codes (scanq s')) ->
  firmware_ok s'.
Proof.
  intros (_ & Hk & _ & _ & Hc & Hu) (Ek & Ei & _ & _) Hq Hr Hb.
  unfold firmware_ok, keyq_wf. rewrite Ek, Ei. auto 10.
Qed.

Lemma PCINT0_scan_bytes (pinb : Z) (s : state) :
  rx_wf s -> all_bytes (ps2_scan_codes (scanq s)) ->
  all_bytes (ps2_scan_codes (scanq (PCINT0_vect pinb s))).
Proof.
  intros (_ & _ & Hbyte & _) Ha. unfold PCINT0_vect.
  destruct (Z.land pinb PS2_CLOCK =? 0); [| exact Ha].
  destruct (ps2_rx_state (rx s)); try exact Ha.
  - destruct (_ =? 0); exact Ha.
  - destruct (negb _); exact Ha.
  - destruct (_ =? 1); [| exact Ha].
    destruct (_ <? _); [| exact Ha].
    cbn. unfold array_set. apply Forall_insert; assumption.
Qed.

Lemma PCINT0_ok (pinb : Z) (s : state) :
  firmware_ok s -> firmware_ok (PCINT0_vect pinb s) /\ scan_side_only s (PCINT0_vect pinb s).
Proof.
  intros Hok.
  assert (scan_side_only s (PCINT0_vect pinb s)) as Hside
    by (destruct (PCINT0_other_fields pinb s) as (? & ? & ? & ?); repeat split; assumption).
  split; [| exact Hside].
  pose proof Hok as (Hq & _ & Hr & Hb & _).
  apply (firmware_ok_scan_side s _ Hok Hside).
  - apply PCINT0_scanq_wf. exact Hq.
  - apply PCINT0_rx_wf. exact Hr.
  - apply PCINT0_scan_bytes; assumption.
Qed.

Lemma ps2_recv_ok (s : state) :
  firmware_ok s ->
  firmware_ok (snd (ps2_recv s)) /\
  scan_side_only s (snd (ps2_recv s)) /\
  rx (snd (ps2_recv s)) = rx s /\
  (fst (ps2_recv s) = -1 \/ 0 <= fst (ps2_recv s) < 256).
Proof.
  intros Hok. pose proof Hok as (Hq & _ & Hr & Hb & _). unfold ps2_recv.
  destruct (Z.ltb_spec 0 (ps2_scan_code_count (scanq s))) as [Hpos |]; cbn [fst snd].
  - split; [| split; [repeat split | split; [reflexivity |]]].
    + apply (firmware_ok_scan_side s _ Hok); [repeat split | | exact Hr | exact Hb].
      exact (proj1 (ring_pop _ _ _ _ _ Hq Hpos)).
    + right. apply array_get_byte. exact Hb.
  - split; [exact Hok |]. split; [apply scan_side_only_refl |]. auto.
Qed.

Lemma ps2_recv_x_ok (tr : list Z) :
  forall (s : state) (r : Z) (s' : state) (tr' : list Z),
    firmware_ok s -> ps2_recv_x s tr = Some (r, s', tr') ->
    firmware_ok s' /\ scan_side_only s s' /\ 0 <= r < 256.
Proof.
  induction tr as [| pinb tr IH]; intros s r s' tr' Hok H; cbn [ps2_recv_x] in H;
    destruct (ps2_recv_ok s Hok) as (Hok1 & Hside1 & _ & Hres);
    destruct (ps2_recv s) as [res s1]; cbn [fst snd] in *;
    destruct (Z.eqb_spec res (-1)) as [E | E]; try discriminate;
    try (injection H as <- <- _; intuition lia).
  destruct (SREG_I (io s1)); [| discriminate].
  destruct (PCINT0_ok pinb s1 Hok1) as [Hok2 Hside2].
  destruct (IH _ _ _ _ Hok2 H) as (Hok' & Hside' & Hr).
  split; [exact Hok' |]. split; [| exact Hr].
  eauto using scan_side_only_trans.
Qed.

Lemma ps2_send_ok (byte : Z) (s : state) (tr : list Z) (r : Z) (s' : state)
    (tr' : list Z) :
  firmware_ok s -> ps2_send byte s tr = Some (r, s', tr') ->
  firmware_ok s' /\ kbd_lock_keys s' = kbd_lock_keys s /\
  command_in s' = command_in s.
Proof.
  intros (Hq & Hk & _ & Hb & Hc & Hu) H.
  destruct (ps2_send_effect byte s tr r s' tr' H)
    as ((Eq & Ek & Ec & El & Eu & _) & Hrx & _).
  split; [| auto].
  unfold firmware_ok, scanq_wf, keyq_wf, rx_wf. rewrite Eq, Ek, Eu, Hrx.
  cbn [ps2_rx_state ps2_rx_data_byte ps2_rx_bit_count ps2_rx_parity].
  repeat (split; [assumption || lia || discriminate |]). assumption.
Qed.

(** The three keyboard commands have one shape: a byte sent, a response
    awaited and, after an acknowledge, a second byte sent and a second
    response awaited.  One script proves the invariant for each. *)
Ltac command_keeps_invariant Hok H :=
  match type of H with
  | context [ps2_send ?cmd ?s ?tr] =>
      let r1 := fresh "r" in let s1 := fresh "s" in let tr1 := fresh "tr" in
      let H1 := fresh "Hsend" in
      destruct (ps2_send cmd s tr) as [[[r1 s1] tr1] |] eqn:H1; [| discriminate H];
      cbn [mbind option_bind] in H;
      let Hok1 := fresh "Hok" in let El1 := fresh "El" in let Ec1 := fresh "Ec" in
      destruct (ps2_send_ok _ _ _ _ _ _ Hok H1) as (Hok1 & El1 & Ec1);
      let r2 := fresh "r" in let s2 := fresh "s" in let tr2 := fresh "tr" in
      let H2 := fresh "Hrecv" in
      destruct (ps2_recv_x s1 tr1) as [[[r2 s2] tr2] |] eqn:H2; [| discriminate H];
      cbn [mbind option_bind] in H;
      let Hok2 := fresh "Hok" in let El2 := fresh "El" in let Ec2 := fresh "Ec" in
      let Hr2 := fresh "Hr" in
      destruct (ps2_recv_x_ok _ _ _ _ _ Hok1 H2) as (Hok2 & (_ & _ & Ec2 & El2) & Hr2);
      destruct (r2 =? PS2_KH_ACK);
      [ match type of H with
        | context [ps2_send ?param s2 tr2] =>
            let r3 := fresh "r" in let s3 := fresh "s" in let tr3 := fresh "tr" in
            let H3 := fresh "Hsend" in
            destruct (ps2_send param s2 tr2) as [[[r3 s3] tr3] |] eqn:H3;
              [| discriminate H];
            cbn [mbind option_bind] in H;
            let Hok3 := fresh "Hok" in let El3 := fresh "El" in let Ec3 := fresh "Ec" in
            destruct (ps2_send_ok _ _ _ _ _ _ Hok2 H3) as (Hok3 & El3 & Ec3);
            let Hok4 := fresh "Hok" in let El4 := fresh "El" in let Ec4 := fresh "Ec" in
            let Hr4 := fresh "Hr" in
            destruct (ps2_recv_x_ok _ _ _ _ _ Hok3 H) as (Hok4 & (_ & _ & Ec4 & El4) & Hr4);
            split; [exact Hok4 |]; split; [congruence |]; split; [congruence | exact Hr4]
        end
      | injection H as <- <- _;
        split; [exact Hok2 |]; split; [congruence |]; split; [congruence | exact Hr2] ]
  end.

Lemma main_e1_ok (scan_code : Z) (s : state) (tr : list Z) (r : option Z)
    (s' : state) (tr' : list Z) :
  firmware_ok s -> 0 <= scan_code < 256 ->
  main_e1 scan_code s tr = Some (r, s', tr') ->
  firmware_ok s' /\ scan_side_only s s' /\
  (forall c, r = Some c -> 0 <= c < 256).
Proof.
  intros Hok Hc H. unfold main_e1 in H. destruct (scan_code =? 0xe1).
  - destruct (ps2_recv_x s tr) as [[[b sb] trb] |] eqn:Hb; [| discriminate].
    cbn [mbind option_bind] in H.
    destruct (ps2_recv_x_ok _ _ _ _ _ Hok Hb) as (Hokb & Hsideb & Hrb).
    destruct (b =? 0x1d); [| destruct (b =? 0x9d)].
    + destruct (ps2_recv_x sb trb) as [[[c sc] trc] |] eqn:Hcx; [| discriminate].
      cbn [mbind option_bind] in H. injection H as <- <- _.
      destruct (ps2_recv_x_ok _ _ _ _ _ Hokb Hcx) as (Hokc & Hsidec & _).
      split; [exact Hokc |]. split; [eauto using scan_side_only_trans |].
      intros c0 E. discriminate E.
    + destruct (ps2_recv_x sb trb) as [[[c sc] trc] |] eqn:Hcx; [| discriminate].
      cbn [mbind option_bind] in H. injection H as <- <- _.
      destruct (ps2_recv_x_ok _ _ _ _ _ Hokb Hcx) as (Hokc & Hsidec & _).
      split; [exact Hokc |]. split; [eauto using scan_side_only_trans |].
      intros c0 E. discriminate E.
    + injection H as <- <- _. split; [exact Hokb |]. split; [exact Hsideb |].
      intros c0 E. injection E as <-. exact Hrb.
  - injection H as <- <- _. split; [exact Hok |].
    split; [apply scan_side_only_refl |].
    intros c0 E. injection E as <-. exact Hc.
Qed.

Lemma main_e0_ok (scan_code : Z) (s : state) (tr : list Z) (r : option Z)
    (s' : state) (tr' : list Z) :
  firmware_ok s -> 0 <= scan_code < 256 ->
  main_e0 scan_code s tr = Some (r, s', tr') ->
  firmware_ok s' /\ scan_side_only s s' /\
  (forall c, r = Some c -> 0 <= c < 256).
Proof.
  intros Hok Hc H. unfold main_e0 in H. destruct (scan_code =? 0xe0).
  - destruct (ps2_recv_x s tr) as [[[b sb] trb] |] eqn:Hb; [| discriminate].
    cbn [mbind option_bind] in H.
    destruct (ps2_recv_x_ok _ _ _ _ _ Hok Hb) as (Hokb & Hsideb & Hrb).
    destruct (e0_keep b); injection H as <- <- _;
      (split; [exact Hokb |]; split; [exact Hsideb |]);
      intros c0 E; [injection E as <-; exact Hrb | discriminate E].
  - injection H as <- <- _. split; [exact Hok |].
    split; [apply scan_side_only_refl |].
    intros c0 E. injection E as <-. exact Hc.
Qed.

Lemma translate_ok (scan_code : Z) (s : state) (tr : list Z) (r : option Z)
    (s' : state) (tr' : list Z) :
  firmware_ok s -> 0 <= scan_code < 256 ->
  translate scan_code s tr = Some (r, s', tr') ->
  firmware_ok s' /\ scan_side_only s s' /\
  (forall k, r = Some k -> key_code_okb k = true /\ uint8 k = k).
Proof.
  intros Hok Hc H. unfold translate in H.
  destruct (main_e1 scan_code s tr) as [[[r1 s1] tr1] |] eqn:H1; [| discriminate].
  cbn [mbind option_bind] in H.
  destruct (main_e1_ok _ _ _ _ _ _ Hok Hc H1) as (Hok1 & Hside1 & Hr1).
  destruct r1 as [c1 |].
  - specialize (Hr1 c1 eq_refl).
    destruct (main_e0 c1 s1 tr1) as [[[r2 s2] tr2] |] eqn:H2; [| discriminate].
    cbn [mbind option_bind] in H.
    destruct (main_e0_ok _ _ _ _ _ _ Hok1 Hr1 H2) as (Hok2 & Hside2 & Hr2).
    destruct r2 as [c2 |]; injection H as <- <- _;
      (split; [exact Hok2 |]; split; [eauto using scan_side_only_trans |]).
    + intros k Hk. specialize (Hr2 c2 eq_refl).
      destruct (main_filter_key_code c2 k Hr2 Hk) as (? & _ & ?). auto.
    + intros k Hk. discriminate Hk.
  - injection H as <- <- _. split; [exact Hok1 |]. split; [exact Hside1 |].
    intros k Hk. discriminate Hk.
Qed.

Lemma write_key_ok (k : Z) (s : state) :
  firmware_ok s -> key_code_okb k = true ->
  firmware_ok (snd (write_key k s)) /\
  scanq (snd (write_key k s)) = scanq s /\ rx (snd (write_key k s)) = rx s /\
  io (snd (write_key k s)) = io s /\
  kbd_lock_keys (snd (write_key k s)) = kbd_lock_keys s /\
  command_in (snd (write_key k s)) = command_in s.
Proof.
  intros Hok Hkey. pose proof Hok as (Hq & Hk & Hr & Hb & Hc & Hu).
  unfold write_key.
  destruct (Z.ltb_spec (key_code_count (keyq s)) KEY_BUFF_SIZE) as [Hroom |];
    cbn [snd]; [| auto 10].
  split; [| auto 10].
  unfold firmware_ok. repeat (split; [assumption |]).
  split; [exact (proj1 (ring_push _ _ _ _ _ k Hk Hroom)) |].
  repeat (split; [assumption |]).
  split; [| exact Hu].
  cbn. unfold array_set. apply Forall_insert; [exact Hc | right; exact Hkey].
Qed.

Lemma kdb_led_ctrl_ok (state_bits : Z) (s : state) (tr : list Z) (r : Z)
    (s' : state) (tr' : list Z) :
  firmware_ok s -> kdb_led_ctrl state_bits s tr = Some (r, s', tr') ->
  firmware_ok s' /\ kbd_lock_keys s' = kbd_lock_keys s /\
  command_in s' = command_in s /\ 0 <= r < 256.
Proof.
  intros Hok. unfold kdb_led_ctrl. cbv zeta. intros H.
  command_keeps_invariant Hok H.
Qed.

Lemma kbd_typematic_set_ok (configuration : Z) (s : state) (tr : list Z) (r : Z)
    (s' : state) (tr' : list Z) :
  firmware_ok s -> kbd_typematic_set configuration s tr = Some (r, s', tr') ->
  firmware_ok s' /\ kbd_lock_keys s' = kbd_lock_keys s /\
  command_in s' = command_in s /\ 0 <= r < 256.
Proof.
  intros Hok. unfold kbd_typematic_set. cbv zeta. intros H.
  command_keeps_invariant Hok H.
Qed.

Lemma kbd_code_set_ok (set : Z) (s : state) (tr : list Z) (r : Z)
    (s' : state) (tr' : list Z) :
  firmware_ok s -> kbd_code_set set s tr = Some (r, s', tr') ->
  firmware_ok s' /\ kbd_lock_keys s' = kbd_lock_keys s /\
  command_in s' = command_in s /\ 0 <= r < 256.
Proof.
  intros Hok. unfold kbd_code_set.
  destruct ((set <? 1) || (3 <? set)); intros H.
  - injection H as <- <- _. unfold PS2_KH_RESEND. auto with zarith.
  - command_keeps_invariant Hok H.
Qed.

Lemma main_loop_body_ok (kdb_lock_state : Z) (s : state) (tr : list Z) (k' : Z)
    (s' : state) (tr' : list Z) :
  firmware_ok s ->
  main_loop_body kdb_lock_state s tr = Some (k', s', tr') ->
  firmware_ok s' /\ kbd_lock_keys s' = kbd_lock_keys s /\
  command_in s' = command_in s /\
  (kdb_lock_state = kbd_lock_keys s -> k' = kdb_lock_state /\ io s' = io s).
Proof.
  intros Hok. unfold main_loop_body.
  destruct (ps2_recv_ok s Hok) as (Hok1 & (Ek1 & Ei1 & Ec1 & El1) & _ & Hres).
  destruct (ps2_recv s) as [c s1]. cbn [fst snd] in Hok1, Ek1, Ei1, Ec1, El1, Hres.
  destruct (Z.eqb_spec c (-1)) as [-> | Hne]; cbn [negb].
  - destruct (Z.eqb_spec kdb_lock_state (kbd_lock_keys s1)) as [E | E]; cbn [negb].
    + intros H. injection H as <- <- _.
      split; [exact Hok1 |]. split; [exact El1 |]. split; [exact Ec1 |]. auto.
    + destruct (kdb_led_ctrl (uint8 (kbd_lock_keys s1)) s1 tr)
        as [[[r2 s2] tr2] |] eqn:Hcmd; cbn [mbind option_bind]; [| discriminate].
      intros H. injection H as _ <- _.
      destruct (kdb_led_ctrl_ok _ _ _ _ _ _ Hok1 Hcmd) as (Hok2 & El2 & Ec2 & _).
      split; [exact Hok2 |]. split; [congruence |]. split; [congruence |].
      intros E'. exfalso. apply E. congruence.
  - destruct Hres as [-> | Hc]; [contradiction |].
    destruct (translate c s1 tr) as [[[r2 s2] tr2] |] eqn:Ht;
      cbn [mbind option_bind]; [| discriminate].
    destruct (translate_ok _ _ _ _ _ _ Hok1 Hc Ht)
      as (Hok2 & (Ek2 & Ei2 & Ec2 & El2) & Hr2).
    destruct r2 as [k |].
    + destruct (Hr2 k eq_refl) as [Hkey Hu8]. rewrite Hu8.
      destruct (write_key_ok k s2 Hok2 Hkey) as (Hok3 & _ & _ & Ei3 & El3 & Ec3).
      destruct (write_key k s2) as [r3 s3]. cbn [snd] in Hok3, Ei3, El3, Ec3.
      intros H. injection H as <- <- _.
      split; [exact Hok3 |]. split; [congruence |]. split; [congruence |].
      intros _. split; [reflexivity | congruence].
    + intros H. injection H as <- <- _.
      split; [exact Hok2 |]. split; [congruence |]. split; [congruence |].
      intros _. split; [reflexivity | congruence].
Qed.

Lemma zero_or_key_byte (k : Z) : zero_or_key k -> 0 <= k < 256.
Proof.
  intros [-> | H]; [lia |]. unfold key_code_okb in H.
  repeat (apply andb_prop in H as [H ?]). lia.
Qed.

Lemma USI_OVF_keyq (s : state) :
  keyq_wf s -> Forall zero_or_key (key_codes (keyq s)) ->
  keyq_wf (USI_OVF_vect s) /\
  key_codes (keyq (USI_OVF_vect s)) = key_codes (keyq s) /\
  zero_or_key (USIDR (io (USI_OVF_vect s))).
Proof.
  intros Hk Hc. unfold USI_OVF_vect, read_key. cbn [keyq with_command_in].
  destruct (Z.ltb_spec 0 (key_code_count (keyq s))) as [Hpos |]; cbv beta iota zeta.
  - pose proof (array_get_zero_or_key (key_codes (keyq s)) (key_buffer_out (keyq s)) Hc)
      as Hget.
    pose proof (zero_or_key_byte _ Hget) as Hrange.
    destruct (Z.eqb_spec (array_get (key_codes (keyq s)) (key_buffer_out (keyq s))) (-1));
      [lia |].
    split; [exact (proj1 (ring_pop _ _ _ _ _ Hk Hpos)) |].
    split; [reflexivity |].
    cbn [io with_io with_USISR with_USIDR USIDR].
    unfold uint8. rewrite Z.mod_small by lia. exact Hget.
  - split; [exact Hk |]. split; [reflexivity | left; reflexivity].
Qed.

Lemma host_exchange_ok (h : Z) (s : state) :
  firmware_ok s ->
  firmware_ok (snd (host_exchange h s)) /\ zero_or_key (fst (host_exchange h s)).
Proof.
  intros (Hq & Hk & Hr & Hb & Hc & Hu). split; [| exact Hu].
  unfold host_exchange. cbn [snd].
  destruct (USI_OVF_other_fields (with_io (with_USIDR (uint8 h) (io s)) s))
    as (Eq & Er & _).
  destruct (USI_OVF_keyq (with_io (with_USIDR (uint8 h) (io s)) s) Hk Hc)
    as (Hk' & Ec & Hu').
  unfold firmware_ok, scanq_wf, rx_wf. rewrite Eq, Er, Ec.
  exact (conj Hq (conj Hk' (conj Hr (conj Hb (conj Hc Hu'))))).
Qed.

Lemma firmware_ok_initial : firmware_ok initial_state.
Proof.
  unfold firmware_ok. split; [wf_by_computation |]. split; [wf_by_computation |].
  split; [repeat split; cbn; (lia || discriminate) |].
  split; [apply Forall_replicate; lia |].
  split; [apply Forall_replicate; left; reflexivity | left; reflexivity].
Qed.

Lemma firmware_ok_scan_loaded (bytes : list Z) :
  all_bytes bytes -> (length bytes <= 32)%nat -> firmware_ok (scan_loaded bytes).
Proof.
  intros Hb Hlen. destruct firmware_ok_initial as (_ & Hk & Hr & _ & Hc & Hu).
  unfold firmware_ok. split; [| split; [exact Hk | split; [exact Hr |]]].
  - unfold scanq_wf, scan_loaded, ring_wf, PS2_BUFF_SIZE.
    cbn [scanq with_io with_scanq ps2_scan_codes ps2_buffer_out ps2_buffer_in
         ps2_scan_code_count].
    rewrite length_app, length_replicate.
    split; [lia |]. split; [lia |]. split; [lia | reflexivity].
  - split; [| split; [exact Hc | exact Hu]].
    cbn [scan_loaded scanq with_io with_scanq ps2_scan_codes].
    apply Forall_app. split; [exact Hb | apply Forall_replicate; lia].
Qed.

Lemma main_loop_ok (n : nat) :
  forall (kdb_lock_state : Z) (s : state) (tr : list Z) (k' : Z) (s' : state)
         (tr' : list Z),
    firmware_ok s ->
    main_loop n kdb_lock_state s tr = Some (k', s', tr') ->
    firmware_ok s' /\ kbd_lock_keys s' = kbd_lock_keys s /\
    command_in s' = command_in s /\
    (kdb_lock_state = kbd_lock_keys s -> k' = kdb_lock_state /\ io s' = io s).
Proof.
  induction n as [| n IH]; intros k s tr k' s' tr' Hok; cbn [main_loop].
  - intros H. injection H as <- <- _. auto.
  - destruct (main_loop_body k s tr) as [[[k1 s1] tr1] |] eqn:Hb;
      cbn [mbind option_bind]; [| discriminate].
    intros H.
    destruct (main_loop_body_ok _ _ _ _ _ _ Hok Hb) as (Hok1 & El1 & Ec1 & Hio1).
    destruct (IH _ _ _ _ _ _ Hok1 H) as (Hok2 & El2 & Ec2 & Hio2).
    split; [exact Hok2 |]. split; [congruence |]. split; [congruence |].
    intros E. destruct (Hio1 E) as [-> Ei1].
    destruct (Hio2 ltac:(congruence)) as [-> Ei2]. split; congruence.
Qed.

(** X8.  The main loop keeps the invariant of the firmware, whatever the
    keyboard sends and however long the loop runs: both rings stay well
    formed, the receiver's counters stay in range, and every cell of the key
    code array is 0 or a normalized key code.  The loop never writes the
    lock keys or the latched host command. *)
Theorem main_loop_keeps_invariant (n : nat) (kdb_lock_state : Z) (s : state)
    (tr : list Z) (k' : Z) (s' : state) (tr' : list Z) :
  firmware_ok s ->
  main_loop n kdb_lock_state s tr = Some (k', s', tr') ->
  firmware_ok s' /\
  kbd_lock_keys s' = kbd_lock_keys s /\
  command_in s' = command_in s.
Proof.
  intros Hok H.
  destruct (main_loop_ok n _ _ _ _ _ _ Hok H) as (H1 & H2 & H3 & _). auto.
Qed.

(** X8, with the lead byte 0xE1 waiting: the frames of 0x1D and 0x45 arrive
    during the blocking reads of the first iteration. *)
Lemma main_loop_keeps_invariant_witness :
  let tr := [0; 16; 0; 16; 16; 16; 0; 0; 0; 16; 16] ++
            [0; 16; 0; 16; 0; 0; 0; 16; 0; 0; 16] in
  exists s',
    main_loop 3 0 (scan_loaded [0xE1]) tr = Some (0, s', []) /\
    firmware_ok s' /\
    kbd_lock_keys s' = kbd_lock_keys (scan_loaded [0xE1]) /\
    command_in s' = command_in (scan_loaded [0xE1]).
Proof.
  intros tr. eexists. split; [vm_compute; reflexivity |].
  eapply (main_loop_keeps_invariant 3 0 (scan_loaded [0xE1]) tr 0 _ []).
  - apply firmware_ok_scan_loaded; [repeat constructor; lia | cbn; lia].
  - vm_compute. reflexivity.
Defined.

(** X9.  As long as the lock keys are as the loop last saw them, the main
    loop does not touch the registers: it never takes the keyboard lines
    and never disables interrupts, so it sends nothing to the keyboard. *)
Theorem main_loop_never_transmits (n : nat) (s : state) (tr : list Z) (k' : Z)
    (s' : state) (tr' : list Z) :
  firmware_ok s ->
  main_loop n (kbd_lock_keys s) s tr = Some (k', s', tr') ->
  io s' = io s /\ k' = kbd_lock_keys s'.
Proof.
  intros Hok H.
  destruct (main_loop_ok n _ _ _ _ _ _ Hok H) as (_ & El & _ & Hio).
  destruct (Hio eq_refl) as [-> Ei]. split; congruence.
Qed.

(** X9, with nine scan codes in the buffer and ten iterations. *)
Lemma main_loop_never_transmits_witness :
  let s := scan_loaded [0x1E; 0xE0; 0x50; 0x0F; 0xB6; 0xE1; 0x1D; 0x45; 0x9E] in
  exists s', main_loop 10 0 s [] = Some (0, s', []) /\ io s' = io s /\ 0 = kbd_lock_keys s'.
Proof.
  intros s. eexists. split; [vm_compute; reflexivity |].
  eapply (main_loop_never_transmits 10 s [] 0 _ []).
  - apply firmware_ok_scan_loaded; [repeat constructor; lia | cbn; lia].
  - vm_compute. reflexivity.
Defined.

Lemma run_PCINT0_ok (pinbs : list Z) :
  forall s : state, firmware_ok s -> firmware_ok (run_PCINT0 pinbs s).
Proof.
  induction pinbs as [| pinb pinbs IH]; intros s Hok; [exact Hok |].
  rewrite run_PCINT0_cons. apply IH. apply PCINT0_ok. exact Hok.
Qed.

Lemma host_exchanges_ok (hs : list Z) :
  forall s : state,
    firmware_ok s ->
    firmware_ok (snd (host_exchanges hs s)) /\
    Forall zero_or_key (fst (host_exchanges hs s)).
Proof.
  induction hs as [| h hs IH]; intros s Hok; [split; [exact Hok | constructor] |].
  rewrite host_exchanges_cons. cbn [fst snd].
  destruct (host_exchange_ok h s Hok) as [Hok1 Hfst].
  destruct (IH _ Hok1) as [Hok2 Hall].
  split; [exact Hok2 |]. constructor; [| exact Hall].
  destruct Hok as (_ & _ & _ & _ & _ & Hu). exact Hu.
Qed.

(** X10.  Both interrupt handlers keep the invariant of the firmware, for
    every sample of the pins and every byte of the host; and every byte
    the host receives in a transfer is 0 or a normalized key code: nonzero,
    low seven bits at most 0x50, not a discarded code and not code 54. *)
Theorem host_receives_key_codes (s : state) (pinbs hs : list Z) :
  firmware_ok s ->
  firmware_ok (run_PCINT0 pinbs s) /\
  firmware_ok (snd (host_exchanges hs s)) /\
  Forall zero_or_key (fst (host_exchanges hs s)).
Proof.
  intros Hok. split; [apply run_PCINT0_ok; exact Hok |].
  apply host_exchanges_ok. exact Hok.
Qed.

(** X10, after reset. *)
Lemma host_receives_key_codes_witness :
  firmware_ok (run_PCINT0 [0; 16; 8; 0] initial_state) /\
  firmware_ok (snd (host_exchanges [0x55; 0] initial_state)) /\
  Forall zero_or_key (fst (host_exchanges [0x55; 0] initial_state)).
Proof.
  apply (host_receives_key_codes initial_state [0; 16; 8; 0] [0x55; 0]).
  exact firmware_ok_initial.
Defined.

(** ** What the translator lets through *)

(** X11.  Whatever [main_filter] lets through is a normalized key code that
    keeps the break flag (bit 7) of the scan code; its low seven bits are
    those of the scan code, except that code 54 comes out as 42.  The scan
    code 0x80, code 0 with the break flag, is let through although 0x00 is
    not. *)
Theorem main_filter_normalizes (c k : Z) :
  0 <= c < 256 ->
  main_filter c = Some k ->
  key_code_okb k = true /\
  Z.testbit k 7 = Z.testbit c 7 /\
  Z.land k 0x7f = (if Z.land c 0x7f =? 54 then 42 else Z.land c 0x7f) /\
  main_filter 0x80 = Some 0x80 /\ main_filter 0x00 = None.
Proof.
  intros Hc Hk.
  destruct (main_filter_key_code c k Hc Hk) as (Hok & Hbit & _).
  split; [exact Hok |]. split; [exact Hbit |]. split; [| split; reflexivity].
  pose proof (byte_cases
                (fun c => match main_filter c with
                          | None => true
                          | Some k => Z.land k 0x7f
                                      =? (if Z.land c 0x7f =? 54 then 42
                                          else Z.land c 0x7f)
                          end) ltac:(vm_compute; reflexivity) c Hc) as H.
  cbv beta in H. rewrite Hk in H. apply Z.eqb_eq in H. exact H.
Qed.

(** X11, at the scan codes 0x9E (the A key released) and 0xB6. *)
Lemma main_filter_normalizes_witness :
  (key_code_okb 0x9E = true /\ Z.testbit 0x9E 7 = Z.testbit 0x9E 7 /\
   Z.land 0x9E 0x7f = (if Z.land 0x9E 0x7f =? 54 then 42 else Z.land 0x9E 0x7f) /\
   main_filter 0x80 = Some 0x80 /\ main_filter 0x00 = None) /\
  (key_code_okb 0xAA = true /\ Z.testbit 0xAA 7 = Z.testbit 0xB6 7 /\
   Z.land 0xAA 0x7f = (if Z.land 0xB6 0x7f =? 54 then 42 else Z.land 0xB6 0x7f) /\
   main_filter 0x80 = Some 0x80 /\ main_filter 0x00 = None).
Proof.
  split.
  - apply (main_filter_normalizes 0x9E 0x9E); [lia | reflexivity].
  - apply (main_filter_normalizes 0xB6 0xAA); [lia | reflexivity].
Defined.

(** ** The blocking read *)

(** The blocking read hands back the samples it did not use. *)
Lemma ps2_recv_x_suffix (tr : list Z) :
  forall (s : state) (r : Z) (s' : state) (tr' : list Z),
    ps2_recv_x s tr = Some (r, s', tr') ->
    exists used, tr = used ++ tr'.
Proof.
  induction tr as [| pinb tr IH]; intros s r s' tr' H; cbn [ps2_recv_x] in H;
    destruct (ps2_recv s) as [res s1]; destruct (res =? -1); try discriminate;
    try (injection H as _ _ <-; exists []; reflexivity).
  destruct (SREG_I (io s1)); [| discriminate].
  apply IH in H as (used & ->). exists (pinb :: used). reflexivity.
Qed.

Lemma ps2_recv_x_uses (s : state) (tr : list Z) (r : Z) (s' : state)
    (tr' : list Z) :
  all_bytes (ps2_scan_codes (scanq s)) ->
  ps2_recv_x s tr = Some (r, s', tr') ->
  (ps2_scan_code_count (scanq s) <= 0 -> tr' <> tr) /\
  (0 < ps2_scan_code_count (scanq s) -> tr' = tr).
Proof.
  intros Hb H. split; intros Hcount.
  - intros ->. destruct tr as [| pinb tr]; cbn [ps2_recv_x] in H;
      rewrite ps2_recv_empty in H by exact Hcount; cbn [Z.eqb Pos.eqb] in H;
      [discriminate |].
    destruct (SREG_I (io s)); [| discriminate].
    apply ps2_recv_x_length in H. cbn [length] in H. lia.
  - pose proof (array_get_byte _ (ps2_buffer_out (scanq s)) Hb) as Hget.
    destruct tr as [| pinb tr]; cbn [ps2_recv_x] in H; unfold ps2_recv in H;
      (destruct (Z.ltb_spec 0 (ps2_scan_code_count (scanq s))); [| lia]);
      (destruct (Z.eqb_spec (array_get (ps2_scan_codes (scanq s))
                               (ps2_buffer_out (scanq s))) (-1)); [lia |]);
      injection H as _ _ <-; reflexivity.
Qed.

(** X12.  When the blocking read [ps2_recv_x] returns, its result is a
    byte, never the -1 of an empty buffer.  With a scan code waiting it
    takes no sample of the pins; with the buffer empty it returns only after
    the handler has served at least one pin change.  It leaves the key code
    buffer and the registers alone and keeps the invariant. *)
Theorem ps2_recv_x_returns_byte (s : state) (tr : list Z) (r : Z) (s' : state)
    (tr' : list Z) :
  firmware_ok s ->
  ps2_recv_x s tr = Some (r, s', tr') ->
  0 <= r < 256 /\
  firmware_ok s' /\
  keyq s' = keyq s /\ io s' = io s /\
  (exists used, tr = used ++ tr') /\
  (ps2_scan_code_count (scanq s) <= 0 -> tr' <> tr) /\
  (0 < ps2_scan_code_count (scanq s) -> tr' = tr).
Proof.
  intros Hok H.
  destruct (ps2_recv_x_ok tr s r s' tr' Hok H) as (Hok' & (Ek & Ei & _) & Hr).
  split; [exact Hr |]. split; [exact Hok' |]. split; [exact Ek |].
  split; [exact Ei |]. split; [exact (ps2_recv_x_suffix tr s r s' tr' H) |].
  destruct Hok as (_ & _ & _ & Hb & _).
  exact (ps2_recv_x_uses s tr r s' tr' Hb H).
Qed.

(** X12, on an empty buffer with the frame of 0xFA on the wire, followed by
    two more samples. *)
Lemma ps2_recv_x_returns_byte_witness :
  let s := scan_loaded [] in
  let tr := [0; 0; 16; 0; 16; 16; 16; 16; 16; 16; 16] ++ [24; 8] in
  exists s',
    ps2_recv_x s tr = Some (0xFA, s', [24; 8]) /\
    0 <= 0xFA < 256 /\
    firmware_ok s' /\
    keyq s' = keyq s /\ io s' = io s /\
    (exists used, tr = used ++ [24; 8]) /\
    (ps2_scan_code_count (scanq s) <= 0 -> [24; 8] <> tr) /\
    (0 < ps2_scan_code_count (scanq s) -> [24; 8] = tr).
Proof.
  intros s tr. eexists. split; [vm_compute; reflexivity |].
  eapply (ps2_recv_x_returns_byte s tr 0xFA _ [24; 8]).
  - apply firmware_ok_scan_loaded; [constructor | cbn; lia].
  - vm_compute. reflexivity.
Defined.

(** ** The keyboard commands with a keyboard that answers *)

(** A byte sent and the response read: [ps2_send] returns on the pulses of
    the reply, and the blocking read returns the byte of its frame, with the
    scan code buffer empty again. *)
Lemma send_and_response (byte : Z) (s : state) (k : reply) (rest : list Z) :
  scanq_wf s -> ps2_scan_code_count (scanq s) = 0 -> reply_ok k ->
  exists r1 s1 s2,
    ps2_send byte s (reply_trace k ++ rest) = Some (r1, s1, reply_samples k ++ rest) /\
    ps2_recv_x s1 (reply_samples k ++ rest) = Some (reply_byte k, s2, rest) /\
    scanq_wf s2 /\ ps2_scan_code_count (scanq s2) = 0 /\
    keyq s2 = keyq s /\ ps2_rx_state (rx s2) = PS2_IDLE.
Proof.
  intros Hwf H0 (Hlen & Hps & Hlo & Hhi & Hf & Hedges).
  destruct (ps2_send_returns byte s (reply_clocks k) (reply_ack_low k) (reply_ack k)
              (reply_ack_high k) (reply_samples k ++ rest) Hlen Hps Hlo Hhi)
    as (s1 & Hsend & (Eq & Ek & _) & Hrx & Hi).
  assert (scanq_wf s1) as Hwf1 by (unfold scanq_wf; rewrite Eq; exact Hwf).
  destruct (ps2_recv_x_frame s1 (reply_frame k) (reply_samples k) rest)
    as (s2 & Hrecv & Hc & Hwf2 & Ek2 & Hidle); try assumption.
  { rewrite Hrx. reflexivity. }
  { rewrite Eq. exact H0. }
  exists (-1 * Z.land (reply_ack k) PS2_DATA), s1, s2.
  split.
  { unfold reply_trace. rewrite <- app_assoc. exact Hsend. }
  split; [exact Hrecv |]. split; [exact Hwf2 |].
  split; [| split; [congruence | exact Hidle]].
  destruct Hwf2 as (_ & _ & Hcnt & _).
  apply (ring_contents_nil_count _ _ _ _ (proj1 Hcnt) Hc).
Qed.




(** One script for the three commands on a reply that is no acknowledge. *)
Ltac command_refused s k1 rest Hwf H0 Hk1 Hnak :=
  let r1 := fresh "r" in let s1 := fresh "s" in let s2 := fresh "s" in
  let Hsend := fresh "Hsend" in let Hrecv := fresh "Hrecv" in
  let Hwf2 := fresh "Hwf" in let H02 := fresh "H0" in let Ek := fresh "Ek" in
  match goal with
  | |- context [ps2_send ?cmd s (reply_trace k1 ++ rest)] =>
      destruct (send_and_response cmd s k1 rest Hwf H0 Hk1)
        as (r1 & s1 & s2 & Hsend & Hrecv & Hwf2 & H02 & Ek & _);
      rewrite Hsend; cbn [mbind option_bind];
      rewrite Hrecv; cbn [mbind option_bind];
      rewrite Hnak;
      exists s2; split; [reflexivity |]; split; [exact H02 | exact Ek]
  end.

(** X14.  When the keyboard's response to the command byte is not the
    acknowledge 0xFA, each of the three commands returns that response at
    once: the parameter byte is not sent, and the samples after the response
    are left for later. *)
Theorem commands_stop_without_acknowledge (s : state) (k1 : reply)
    (rest : list Z) (arg : Z) :
  scanq_wf s -> ps2_scan_code_count (scanq s) = 0 ->
  reply_ok k1 -> reply_byte k1 <> 0xFA ->
  (exists s',
     kdb_led_ctrl arg s (reply_trace k1 ++ rest) = Some (reply_byte k1, s', rest) /\
     ps2_scan_code_count (scanq s') = 0 /\ keyq s' = keyq s) /\
  (exists s',
     kbd_typematic_set arg s (reply_trace k1 ++ rest) = Some (reply_byte k1, s', rest) /\
     ps2_scan_code_count (scanq s') = 0 /\ keyq s' = keyq s) /\
  (1 <= arg <= 3 ->
   exists s',
     kbd_code_set arg s (reply_trace k1 ++ rest) = Some (reply_byte k1, s', rest) /\
     ps2_scan_code_count (scanq s') = 0 /\ keyq s' = keyq s).
Proof.
  intros Hwf H0 Hk1 Hnak.
  assert ((reply_byte k1 =? PS2_KH_ACK) = false) as Hnak'
    by (apply Z.eqb_neq; exact Hnak).
  split; [| split].
  - unfold kdb_led_ctrl. cbv zeta. command_refused s k1 rest Hwf H0 Hk1 Hnak'.
  - unfold kbd_typematic_set. cbv zeta. command_refused s k1 rest Hwf H0 Hk1 Hnak'.
  - intros Hset. unfold kbd_code_set.
    destruct (Z.ltb_spec arg 1); [lia |]. destruct (Z.ltb_spec 3 arg); [lia |].
    cbn [orb]. command_refused s k1 rest Hwf H0 Hk1 Hnak'.
Qed.

(** X14, at a keyboard that answers the command byte with the resend code
    0xFE. *)
Lemma commands_stop_without_acknowledge_witness :
  let k1 := mk_reply (replicate 10 (0, 8)) 0 0 8
              (mk_frame false [false; true; true; true; true; true; true; true]
                 false true)
              [0; 0; 16; 16; 16; 16; 16; 16; 16; 0; 16] in
  (exists s',
     kdb_led_ctrl 2 initial_state (reply_trace k1 ++ [8; 0])
     = Some (0xFE, s', [8; 0]) /\
     ps2_scan_code_count (scanq s') = 0 /\ keyq s' = keyq initial_state) /\
  (exists s',
     kbd_typematic_set 2 initial_state (reply_trace k1 ++ [8; 0])
     = Some (0xFE, s', [8; 0]) /\
     ps2_scan_code_count (scanq s') = 0 /\ keyq s' = keyq initial_state) /\
  (1 <= 2 <= 3 ->
   exists s',
     kbd_code_set 2 initial_state (reply_trace k1 ++ [8; 0])
     = Some (0xFE, s', [8; 0]) /\
     ps2_scan_code_count (scanq s') = 0 /\ keyq s' = keyq initial_state).
Proof.
  intros k1.
  apply (commands_stop_without_acknowledge initial_state k1 [8; 0] 2).
  - wf_by_computation.
  - reflexivity.
  - unfold reply_ok. split; [reflexivity |].
    split; [repeat constructor; cbn; discriminate |].
    split; [reflexivity |]. split; [cbn; discriminate |].
    split; [repeat split | repeat constructor].
  - cbn. discriminate.
Defined.

(** ** The frame that [ps2_send] puts on the wire *)

(** The loop with the record of the wire is the loop of [ps2_send]. *)
Lemma ps2_send_loop_wire_erase (fuel : nat) :
  forall (byte par cnt : Z) (s : state) (tr : list Z),
    (fun '(s', tr', _) => (s', tr')) <$> ps2_send_loop_wire fuel byte par cnt s tr
    = ps2_send_loop fuel byte par cnt s tr.
Proof.
  induction fuel as [| fuel IH]; intros byte par cnt s tr;
    cbn [ps2_send_loop ps2_send_loop_wire]; destruct (cnt <? 10); try reflexivity.
  destruct (if cnt <? 8 then _ else _) as [bit par'].
  destruct (wait_clock_low tr) as [tr1 |]; [| reflexivity].
  cbn [mbind option_bind].
  destruct (wait_clock_high tr1) as [tr2 |]; [| reflexivity].
  cbn [mbind option_bind]. rewrite <- IH.
  destruct (ps2_send_loop_wire fuel _ _ _ _ _) as [[[s2 tr3] wire] |]; reflexivity.
Qed.

Lemma data_line_set (portb : Z) : data_line (uint8 (Z.lor portb PS2_DATA)) = true.
Proof.
  unfold data_line, uint8. change 256 with (2 ^ 8).
  rewrite Z.mod_pow2_bits_low, Z.lor_spec by lia.
  apply orb_true_r.
Qed.

Lemma data_line_clear (portb : Z) :
  data_line (uint8 (Z.land portb (Z.lnot PS2_DATA))) = false.
Proof.
  unfold data_line, uint8. change 256 with (2 ^ 8).
  rewrite Z.mod_pow2_bits_low, Z.land_spec by lia.
  apply andb_false_r.
Qed.

(** On ten pulses the loop ends, and the data line has taken the levels the
    loop computed. *)
Lemma ps2_send_loop_wire_pulses (ps : list (Z * Z)) :
  forall (byte par cnt : Z) (s : state) (rest : list Z),
    Forall good_pulse ps -> cnt + Z.of_nat (length ps) = 10 ->
    exists s' wire,
      ps2_send_loop_wire (length ps) byte par cnt s (pulse_train ps ++ rest)
      = Some (s', rest, wire) /\
      map data_line wire = ps2_tx_bits (length ps) byte par cnt.
Proof.
  induction ps as [| [lo hi] ps IH]; intros byte par cnt s rest Hps Hcnt.
  - cbn [length Z.of_nat] in Hcnt. assert (cnt = 10) as -> by lia.
    exists s, []. split; reflexivity.
  - apply Forall_cons in Hps as [[Hlo Hhi] Hps]. cbn [fst snd] in Hlo, Hhi.
    cbn [length] in Hcnt.
    cbn [length ps2_send_loop_wire ps2_tx_bits pulse_train flat_map app fst snd].
    fold (pulse_train ps).
    destruct (Z.ltb_spec cnt 10) as [_ |]; [| lia].
    destruct (if cnt <? 8 then _ else _) as [bit par'].
    rewrite (wait_clock_low_now lo _ Hlo). cbn [mbind option_bind].
    rewrite (wait_clock_high_now hi _ Hhi). cbn [mbind option_bind].
    match goal with
    | |- context [ps2_send_loop_wire _ ?b ?p ?c ?s1 _] =>
        destruct (IH b p c s1 rest Hps ltac:(lia)) as (s' & wire & Hrun & Hwire)
    end.
    rewrite Hrun. cbn [mbind option_bind].
    eexists _, _. split; [reflexivity |].
    cbn [map]. rewrite Hwire. f_equal.
    destruct (negb (bit =? 0)); cbn [io with_io with_PORTB PORTB];
      [apply data_line_set | apply data_line_clear].
Qed.

Lemma bits_eqb_eq (a : list bool) : forall b, bits_eqb a b = true -> a = b.
Proof.
  induction a as [| x a IH]; intros [| y b] H; try discriminate; [reflexivity |].
  cbn [bits_eqb] in H. apply andb_prop in H as [Hx H].
  apply eqb_prop in Hx. apply IH in H. congruence.
Qed.

(** The frame of a byte is valid and carries the byte, and it is what the
    loop of [ps2_send] computes after the start bit. *)
Lemma frame_of_byte_sent (byte : Z) :
  0 <= byte < 256 ->
  valid_frame (frame_of_byte byte) /\
  byte_of_bits (data_bits (frame_of_byte byte)) = byte /\
  ps2_tx_bits 10 byte 1 0 = tail (frame_bits (frame_of_byte byte)).
Proof.
  intros Hb.
  pose proof (byte_cases
                (fun c => odd_parity (frame_of_byte c) &&
                          (byte_of_bits (data_bits (frame_of_byte c)) =? c) &&
                          bits_eqb (ps2_tx_bits 10 c 1 0)
                            (tail (frame_bits (frame_of_byte c))))
                ltac:(vm_compute; reflexivity) byte Hb) as H.
  cbv beta in H. apply andb_prop in H as [H H3]. apply andb_prop in H as [H1 H2].
  apply bits_eqb_eq in H3. apply Z.eqb_eq in H2.
  split; [| split; assumption].
  unfold valid_frame.
  split; [reflexivity | split; [reflexivity | split; [exact H1 | reflexivity]]].
Qed.

(** X15.  For a byte and ten pulses of the clock, the loop of [ps2_send]
    ends, and the levels it gave the data line are the frame of the byte
    after its start bit: the eight data bits, least significant first, the
    bit that makes the parity odd, and the stop bit 1. *)
Theorem ps2_send_wire_frame (byte : Z) (s : state) (ps : list (Z * Z))
    (rest : list Z) :
  0 <= byte < 256 ->
  length ps = 10%nat ->
  Forall good_pulse ps ->
  exists s' wire,
    ps2_send_loop_wire 10 byte 1 0 s (pulse_train ps ++ rest) = Some (s', rest, wire) /\
    ps2_send_loop 10 byte 1 0 s (pulse_train ps ++ rest) = Some (s', rest) /\
    map data_line wire
    = bits_of_byte byte ++ [negb (Z.odd (count_ones (bits_of_byte byte))); true] /\
    Z.odd (count_ones (map data_line (take 9 wire))) = true /\
    byte_of_bits (bits_of_byte byte) = byte.
Proof.
  intros Hb Hlen Hps.
  destruct (ps2_send_loop_wire_pulses ps byte 1 0 s rest Hps ltac:(lia))
    as (s' & wire & Hrun & Hwire).
  rewrite Hlen in Hrun, Hwire.
  destruct (frame_of_byte_sent byte Hb) as ((_ & Hl & Hpar & _) & Hbyte & Hbits).
  exists s', wire. split; [exact Hrun |].
  split; [rewrite <- ps2_send_loop_wire_erase, Hrun; reflexivity |].
  rewrite Hwire, Hbits. split; [reflexivity |]. split; [| exact Hbyte].
  rewrite <- firstn_map, Hwire, Hbits.
  cbn [frame_bits frame_of_byte start_bit data_bits parity_bit stop_bit tail].
  cbn [data_bits frame_of_byte] in Hl.
  replace 9%nat with (length (bits_of_byte byte) + 1)%nat by (rewrite Hl; reflexivity).
  rewrite take_app_add. cbn [take].
  unfold odd_parity in Hpar. cbn [frame_of_byte data_bits parity_bit] in Hpar.
  clear -Hpar. revert Hpar. generalize (negb (Z.odd (count_ones (bits_of_byte byte)))).
  generalize (bits_of_byte byte). intros l b Hpar.
  replace (count_ones (l ++ [b])) with (count_ones l + Z.b2z b); [exact Hpar |].
  clear Hpar. induction l as [| x l IH]; cbn [app count_ones]; lia.
Qed.

(** X15, at the LED command byte 0xED. *)
Lemma ps2_send_wire_frame_witness :
  exists s' wire,
    ps2_send_loop_wire 10 0xED 1 0 initial_state
      (pulse_train (replicate 10 (0, 8)) ++ [0; 0; 8]) = Some (s', [0; 0; 8], wire) /\
    ps2_send_loop 10 0xED 1 0 initial_state
      (pulse_train (replicate 10 (0, 8)) ++ [0; 0; 8]) = Some (s', [0; 0; 8]) /\
    map data_line wire
    = bits_of_byte 0xED ++ [negb (Z.odd (count_ones (bits_of_byte 0xED))); true] /\
    Z.odd (count_ones (map data_line (take 9 wire))) = true /\
    byte_of_bits (bits_of_byte 0xED) = 0xED.
Proof.
  apply (ps2_send_wire_frame 0xED initial_state (replicate 10 (0, 8)) [0; 0; 8]).
  - lia.
  - reflexivity.
  - repeat constructor; cbn; discriminate.
Defined.

(** ** What [ps2_send] transmits is what [PCINT0_vect] accepts *)

Lemma low_edge_sample (bits : list bool) :
  Forall2 low_edge bits (map edge_sample bits).
Proof.
  induction bits as [| b bits IH]; cbn [map]; constructor; [| exact IH].
  destruct b; split; reflexivity.
Qed.

(** X16.  The sender and the receiver of the firmware agree on the frame:
    the levels the loop of [ps2_send] gives the data line for a byte, after
    the start bit 0 of the request to send, are a frame that [PCINT0_vect],
    sampling them at falling edges of the clock, accepts; it stores the byte
    that was sent and is idle again. *)
Theorem sent_frame_is_received (byte : Z) (s r : state) (ps : list (Z * Z))
    (rest : list Z) :
  0 <= byte < 256 ->
  length ps = 10%nat ->
  Forall good_pulse ps ->
  ps2_rx_state (rx r) = PS2_IDLE ->
  scanq_wf r ->
  ps2_scan_code_count (scanq r) < PS2_BUFF_SIZE ->
  exists s' wire,
    ps2_send_loop_wire 10 byte 1 0 s (pulse_train ps ++ rest) = Some (s', rest, wire) /\
    let r' := run_PCINT0 (map edge_sample (false :: map data_line wire)) r in
    scan_contents r' = scan_contents r ++ [byte] /\
    ps2_rx_state (rx r') = PS2_IDLE /\
    ps2_scan_code_count (scanq r') = ps2_scan_code_count (scanq r) + 1.
Proof.
  intros Hb Hlen Hps Hidle Hwf Hroom.
  destruct (ps2_send_loop_wire_pulses ps byte 1 0 s rest Hps ltac:(lia))
    as (s' & wire & Hrun & Hwire).
  rewrite Hlen in Hrun, Hwire.
  destruct (frame_of_byte_sent byte Hb) as (Hvalid & Hbyte & Hbits).
  exists s', wire. split; [exact Hrun |].
  rewrite Hwire, Hbits.
  change (false :: tail (frame_bits (frame_of_byte byte)))
    with (frame_bits (frame_of_byte byte)).
  destruct (run_PCINT0_frame r (frame_of_byte byte)
              (map edge_sample (frame_bits (frame_of_byte byte)))
              Hidle Hwf Hroom Hvalid (low_edge_sample _))
    as (q & Heq & Hc & Hcount & _).
  cbv zeta. rewrite Heq, Hbyte in *.
  split; [exact Hc |]. split; [reflexivity | exact Hcount].
Qed.

(** X16, at the byte 0xF3 sent with ten clean pulses and received by the
    firmware in its initial state. *)
Lemma sent_frame_is_received_witness :
  exists s' wire,
    ps2_send_loop_wire 10 0xF3 1 0 initial_state
      (pulse_train (replicate 10 (0, 8)) ++ [8]) = Some (s', [8], wire) /\
    let r' := run_PCINT0 (map edge_sample (false :: map data_line wire))
                initial_state in
    scan_contents r' = scan_contents initial_state ++ [0xF3] /\
    ps2_rx_state (rx r') = PS2_IDLE /\
    ps2_scan_code_count (scanq r') = ps2_scan_code_count (scanq initial_state) + 1.
Proof.
  apply (sent_frame_is_received 0xF3 initial_state initial_state
           (replicate 10 (0, 8)) [8]).
  - lia.
  - reflexivity.
  - repeat constructor; cbn; discriminate.
  - reflexivity.
  - wf_by_computation.
  - reflexivity.
Defined.

(** ** The lead byte 0xE1 before other codes *)

Lemma ps2_recv_x_ready (s s' : state) (tr : list Z) (x : Z) :
  ps2_recv s = (x, s') -> x <> -1 -> ps2_recv_x s tr = Some (x, s', tr).
Proof.
  intros H Hx. destruct tr; cbn [ps2_recv_x]; rewrite H;
    destruct (Z.eqb_spec x (-1)); (contradiction || reflexivity).
Qed.

(** X17.  The lead byte 0xE1 is only the start of a discarded sequence when
    0x1D or 0x9D follows.  Before any other byte it is dropped alone: the
    iteration of the loop of [main] does what it would do on the buffer
    without the 0xE1, so the byte after it is translated like any scan code
    (and a lead byte 0xE0 there still takes its second byte).  The one
    exception is a second 0xE1, which is dropped with the first instead of
    starting a sequence of its own. *)
Theorem pause_break_lead_dropped (kdb_lock_state : Z) (s : state) (tr : list Z)
    (b : Z) (rest : list Z) :
  scanq_wf s ->
  scan_contents s = 0xE1 :: b :: rest ->
  0 <= b < 256 -> b <> 0x1D -> b <> 0x9D ->
  scan_contents (snd (ps2_recv s)) = b :: rest /\
  (b <> 0xE1 ->
   main_loop_body kdb_lock_state s tr
   = main_loop_body kdb_lock_state (snd (ps2_recv s)) tr) /\
  (b = 0xE1 ->
   exists s',
     main_loop_body kdb_lock_state s tr = Some (kdb_lock_state, s', tr) /\
     scan_contents s' = rest /\ keyq s' = keyq s).
Proof.
  intros Hwf Hc Hbyte H1d H9d.
  destruct (ps2_recv_cons s _ _ Hwf Hc) as (q1 & H1 & Hc1 & Hwf1).
  destruct (ps2_recv_cons _ _ _ Hwf1 Hc1) as (q2 & H2 & Hc2 & Hwf2).
  assert (b <> -1) as Hb1 by lia.
  pose proof (ps2_recv_x_ready _ _ tr _ H2 Hb1) as Hx.
  rewrite H1. cbn [snd]. split; [exact Hc1 |].
  assert (main_e1 0xE1 (with_scanq q1 s) tr
          = Some (Some b, with_scanq q2 (with_scanq q1 s), tr)) as He1.
  { unfold main_e1. change (0xE1 =? 0xe1) with true. cbv iota.
    rewrite Hx. cbn [mbind option_bind].
    destruct (Z.eqb_spec b 0x1d); [contradiction |].
    destruct (Z.eqb_spec b 0x9d); [contradiction | reflexivity]. }
  split.
  - intros He.
    assert (main_e1 b (with_scanq q2 (with_scanq q1 s)) tr
            = Some (Some b, with_scanq q2 (with_scanq q1 s), tr)) as Hb.
    { unfold main_e1. destruct (Z.eqb_spec b 0xe1); [contradiction | reflexivity]. }
    unfold main_loop_body. rewrite H1, H2.
    change (negb (0xE1 =? -1)) with true.
    destruct (Z.eqb_spec b (-1)); [contradiction |]. cbn [negb]. cbv iota.
    unfold translate. rewrite He1, Hb. reflexivity.
  - intros ->. exists (with_scanq q2 (with_scanq q1 s)).
    split; [| split; [exact Hc2 | reflexivity]].
    unfold main_loop_body. rewrite H1.
    change (negb (0xE1 =? -1)) with true. cbv iota.
    unfold translate. rewrite He1. reflexivity.
Qed.

(** X17, at the bytes 0xE1, 0x1E, 0x45: the iteration stores the key code
    0x1E as it does on the bytes 0x1E, 0x45. *)
Lemma pause_break_lead_dropped_witness :
  scan_contents (snd (ps2_recv (scan_loaded [0xE1; 0x1E; 0x45]))) = [0x1E; 0x45] /\
  main_loop_body 0 (scan_loaded [0xE1; 0x1E; 0x45]) []
  = main_loop_body 0 (snd (ps2_recv (scan_loaded [0xE1; 0x1E; 0x45]))) [].
Proof.
  destruct (pause_break_lead_dropped 0 (scan_loaded [0xE1; 0x1E; 0x45]) []
              0x1E [0x45]) as (Hc & Hrun & _).
  - wf_by_computation.
  - reflexivity.
  - lia.
  - discriminate.
  - discriminate.
  - split; [exact Hc | apply Hrun; discriminate].
Defined.

(** ** From the keyboard wire to the host *)

(** X18.  The path of one key through the firmware.  With both buffers
    empty and the receiver idle, a valid frame whose byte the [switch] and
    the range test of [main] let through as [code] is stored by
    [PCINT0_vect]; the next iteration of the loop of [main] takes it from
    the scan code buffer and puts [code] into the key code buffer; and the
    host receives the byte staged before in its next transfer and [code] in
    the one after it, which leaves the key code buffer empty. *)
Theorem key_press_reaches_host (s : state) (f : frame) (pinbs tr : list Z)
    (kdb_lock_state h1 h2 code : Z) :
  ps2_rx_state (rx s) = PS2_IDLE ->
  scanq_wf s -> keyq_wf s ->
  ps2_scan_code_count (scanq s) = 0 ->
  key_code_count (keyq s) = 0 ->
  valid_frame f ->
  Forall2 low_edge (frame_bits f) pinbs ->
  main_filter (byte_of_bits (data_bits f)) = Some code ->
  exists s',
    main_loop_body kdb_lock_state (run_PCINT0 pinbs s) tr
    = Some (kdb_lock_state, s', tr) /\
    scan_contents (run_PCINT0 pinbs s) = [byte_of_bits (data_bits f)] /\
    scan_contents s' = [] /\
    key_contents s' = [code] /\
    fst (host_exchanges [h1; h2] s') = [USIDR (io s); code] /\
    key_contents (snd (host_exchanges [h1; h2] s')) = [].
Proof.
  intros Hidle Hwf Hkwf H0 Hk0 Hvalid Hedges Hfilter.
  set (c := byte_of_bits (data_bits f)) in *.
  assert (0 <= c < 256) as Hbyte.
  { pose proof (byte_of_bits_range (data_bits f)) as H.
    destruct Hvalid as (_ & Hl & _). rewrite Hl in H. exact H. }
  assert (c <> 0xE0) as Hne0 by (intros E; rewrite E in Hfilter; discriminate).
  assert (c <> 0xE1) as Hne1 by (intros E; rewrite E in Hfilter; discriminate).
  destruct (main_filter_key_code c code Hbyte Hfilter) as (_ & _ & Hu).
  destruct (run_PCINT0_frame s f pinbs Hidle Hwf ltac:(rewrite H0; reflexivity)
              Hvalid Hedges) as (q & Heq & Hc & _ & Hwf1).
  fold c in Heq, Hc.
  assert (scan_contents s = []) as Hempty
    by (unfold scan_contents; rewrite H0; reflexivity).
  rewrite Hempty in Hc. cbn [app] in Hc.
  rewrite Heq.
  set (s1 := with_rx _ (with_scanq q s)).
  assert (scanq_wf s1) as Hwf1' by exact Hwf1.
  assert (scan_contents s1 = [c]) as Hc1 by exact Hc.
  destruct (ps2_recv_cons s1 c [] Hwf1' Hc1) as (q2 & Hrecv & Hc2 & Hwf2).
  set (s2 := with_scanq q2 s1) in *.
  destruct (write_key_room code s2) as (q3 & Hw & Hkc & Hkwf3);
    [exact Hkwf | change (keyq s2) with (keyq s); rewrite Hk0; reflexivity |].
  change (key_contents s2) with (key_contents s) in Hkc.
  rewrite (key_contents_empty s Hk0) in Hkc. cbn [app] in Hkc.
  exists (with_keyq q3 s2).
  split.
  { unfold main_loop_body. rewrite Hrecv.
    destruct (Z.eqb_spec c (-1)); [lia |]. cbn [negb]. cbv iota.
    unfold translate, main_e1, main_e0.
    destruct (Z.eqb_spec c 0xe1); [contradiction |]. cbn [mbind option_bind].
    destruct (Z.eqb_spec c 0xe0); [contradiction |]. cbn [mbind option_bind].
    rewrite Hfilter, Hu, Hw. reflexivity. }
  split; [exact Hc1 |]. split; [exact Hc2 |]. split; [exact Hkc |].
  assert (all_bytes [code]) as Hbytes.
  { repeat constructor; unfold uint8 in Hu; rewrite <- Hu;
      apply Z.mod_pos_bound; lia. }
  destruct (staged_bytes_keys [code] [h1] (with_keyq q3 s2) Hkwf3 Hkc Hbytes eq_refl)
    as (Hst & Hcount).
  split.
  - rewrite (host_exchanges_staged [h1] h2), Hst. reflexivity.
  - apply key_contents_empty.
    rewrite (host_exchanges_app_snd [h1] [h2]).
    destruct (staged_bytes_empty [h2] (snd (host_exchanges [h1] (with_keyq q3 s2))))
      as (_ & ->); [lia | exact Hcount].
Qed.

(** X18, at the frame of the scan code 0x1E (the A key) on an idle
    firmware. *)
Lemma key_press_reaches_host_witness :
  let f := mk_frame false [false; true; true; true; true; false; false; false]
             true true in
  let pinbs := [0; 0; 16; 16; 16; 16; 0; 0; 0; 16; 16] in
  exists s',
    main_loop_body 0 (run_PCINT0 pinbs initial_state) [] = Some (0, s', []) /\
    scan_contents (run_PCINT0 pinbs initial_state) = [byte_of_bits (data_bits f)] /\
    scan_contents s' = [] /\
    key_contents s' = [0x1E] /\
    fst (host_exchanges [0; 0] s') = [USIDR (io initial_state); 0x1E] /\
    key_contents (snd (host_exchanges [0; 0] s')) = [].
Proof.
  intros f pinbs.
  apply (key_press_reaches_host initial_state f pinbs [] 0 0 0 0x1E).
  - reflexivity.
  - wf_by_computation.
  - wf_by_computation.
  - reflexivity.
  - reflexivity.
  - repeat split.
  - repeat constructor.
  - reflexivity.
Defined.

(** ** The start of [main] *)

(** The exchange the three commands share, with a keyboard that
    acknowledges the command byte. *)
Lemma command_exchange (cmd param : Z) (s : state) (p : reply * reply)
    (rest : list Z) :
  scanq_wf s -> ps2_scan_code_count (scanq s) = 0 -> command_acknowledged p ->
  exists s',
    ('(_, s1, tr) ← ps2_send cmd s (exchange_trace p ++ rest);
     '(temp_scan_code, s2, tr) ← ps2_recv_x s1 tr;
     if temp_scan_code =? PS2_KH_ACK then
       '(_, s3, tr) ← ps2_send param s2 tr;
       ps2_recv_x s3 tr
     else Some (temp_scan_code, s2, tr))
    = Some (reply_byte (snd p), s', rest) /\
    scanq_wf s' /\ ps2_scan_code_count (scanq s') = 0 /\ keyq s' = keyq s.
Proof.
  destruct p as [k1 k2]. unfold command_acknowledged, exchange_trace.
  cbn [fst snd]. intros Hwf H0 (Hk1 & Hk2 & Hack).
  rewrite <- app_assoc.
  destruct (send_and_response cmd s k1 (reply_trace k2 ++ rest) Hwf H0 Hk1)
    as (r1 & s1 & s2 & Hsend & Hrecv & Hwf2 & H02 & Ek & _).
  rewrite Hsend. cbn [mbind option_bind].
  rewrite Hrecv. cbn [mbind option_bind].
  rewrite Hack, Z.eqb_refl.
  destruct (send_and_response param s2 k2 rest Hwf2 H02 Hk2)
    as (r3 & s3 & s4 & Hsend' & Hrecv' & Hwf4 & H04 & Ek' & _).
  rewrite Hsend'. cbn [mbind option_bind].
  exists s4. split; [exact Hrecv' |]. split; [exact Hwf4 |].
  split; [exact H04 | congruence].
Qed.

Lemma led_commands_exchanges (args : list Z) :
  forall (ks : list (reply * reply)) (s : state) (rest : list Z),
    length ks = length args -> Forall command_acknowledged ks ->
    scanq_wf s -> ps2_scan_code_count (scanq s) = 0 ->
    exists s',
      led_commands args s (flat_map exchange_trace ks ++ rest) = Some (s', rest) /\
      scanq_wf s' /\ ps2_scan_code_count (scanq s') = 0 /\ keyq s' = keyq s.
Proof.
  induction args as [| arg args IH]; intros ks s rest Hlen Hks Hwf H0.
  - destruct ks; [| discriminate]. exists s. auto.
  - destruct ks as [| p ks]; [discriminate |].
    apply Forall_cons in Hks as [Hp Hks]. injection Hlen as Hlen.
    cbn [led_commands flat_map]. rewrite <- app_assoc.
    unfold kdb_led_ctrl. cbv zeta.
    destruct (command_exchange PS2_HK_LEDS (Z.land arg 0x07) s p
                (flat_map exchange_trace ks ++ rest) Hwf H0 Hp)
      as (s1 & -> & Hwf1 & H01 & Ek1).
    cbn [mbind option_bind].
    destruct (IH ks s1 rest Hlen Hks Hwf1 H01) as (s' & Hrun & Hwf' & H0' & Ek').
    exists s'. split; [exact Hrun |]. split; [exact Hwf' |].
    split; [exact H0' | congruence].
Qed.

Lemma kbd_test_led_commands (s : state) (tr : list Z) :
  kbd_test_led s tr
  = led_commands [PS2_HK_SCRLOCK; 0; PS2_HK_CAPSLOCK; 0; PS2_HK_NUMLOCK; 0;
                  PS2_HK_CAPSLOCK; 0; PS2_HK_SCRLOCK; 0] s tr.
Proof. unfold kbd_test_led. cbn [led_commands]. reflexivity. Qed.

(** A bind on a result, as a rewriting step. *)
Lemma bind_Some {A B : Type} (f : A -> option B) (x : A) : Some x ≫= f = f x.
Proof. reflexivity. Qed.

(** X19.  With a keyboard that acknowledges every command byte, the start
    of [main] runs to its end: the ten LED commands of the light test, the
    typematic setting and the code set selection each take the two replies
    of their exchange, whatever the keyboard answers to the parameter bytes
    (the responses are not looked at).  The loop is entered with interrupts
    on, the scan code buffer empty and the key code buffer untouched. *)
Theorem startup_completes (s : state) (leds : list (reply * reply))
    (typematic code_set : reply * reply) (rest : list Z) :
  scanq_wf s -> ps2_scan_code_count (scanq s) = 0 ->
  length leds = 10%nat ->
  Forall command_acknowledged (leds ++ [typematic; code_set]) ->
  exists s',
    main_startup s (flat_map exchange_trace (leds ++ [typematic; code_set]) ++ rest)
    = Some (s', rest) /\
    SREG_I (io s') = true /\
    scanq_wf s' /\ ps2_scan_code_count (scanq s') = 0 /\ keyq s' = keyq s.
Proof.
  intros Hwf H0 Hlen Hks.
  apply Forall_app in Hks as [Hleds Hks].
  apply Forall_cons in Hks as [Htm Hks]. apply Forall_cons in Hks as [Hcs _].
  rewrite flat_map_app, <- app_assoc. cbn [flat_map]. rewrite app_nil_r, <- !app_assoc.
  unfold main_startup. rewrite kbd_test_led_commands.
  match goal with
  | |- context [led_commands ?args s _] =>
      destruct (led_commands_exchanges args leds s
                  (exchange_trace typematic ++ exchange_trace code_set ++ rest)
                  Hlen Hleds Hwf H0) as (s1 & -> & Hwf1 & H01 & Ek1)
  end.
  rewrite bind_Some. cbv beta iota.
  unfold kbd_typematic_set. cbv zeta.
  destruct (command_exchange PS2_HK_TMDELAY (Z.land PS2_HK_TYPEMAT 0x7f) s1 typematic
              (exchange_trace code_set ++ rest) Hwf1 H01 Htm)
    as (s2 & -> & Hwf2 & H02 & Ek2).
  rewrite bind_Some. cbv beta iota.
  unfold kbd_code_set. change ((1 <? 1) || (3 <? 1)) with false. cbv iota.
  destruct (command_exchange PS2_HK_ALTCODE (uint8 1) s2 code_set rest Hwf2 H02 Hcs)
    as (s3 & -> & Hwf3 & H03 & Ek3).
  rewrite bind_Some. cbv beta iota.
  eexists. split; [reflexivity |]. split; [reflexivity |].
  split; [exact Hwf3 |]. split; [exact H03 |].
  cbn [keyq with_io]. congruence.
Qed.

Lemma clean_reply_ok (byte : Z) : 0 <= byte < 256 -> reply_ok (clean_reply byte).
Proof.
  intros Hb. destruct (frame_of_byte_sent byte Hb) as (Hvalid & _).
  unfold reply_ok, clean_reply.
  cbn [reply_clocks reply_ack_low reply_ack_high reply_frame reply_samples].
  split; [reflexivity |].
  split; [apply Forall_replicate; split; cbn; (reflexivity || discriminate) |].
  split; [reflexivity |]. split; [cbn; discriminate |].
  split; [exact Hvalid | apply low_edge_sample].
Qed.

Lemma clean_exchange_acknowledged (byte : Z) :
  0 <= byte < 256 -> command_acknowledged (clean_reply 0xFA, clean_reply byte).
Proof.
  intros Hb. unfold command_acknowledged. cbn [fst snd].
  split; [apply clean_reply_ok; lia |]. split; [apply clean_reply_ok; exact Hb |].
  reflexivity.
Qed.

(** X19, at a keyboard that acknowledges everything except the typematic
    parameter, which it answers with the resend code 0xFE. *)
Lemma startup_completes_witness :
  exists s',
    main_startup initial_state
      (flat_map exchange_trace
         (replicate 10 (clean_reply 0xFA, clean_reply 0xFA) ++
          [(clean_reply 0xFA, clean_reply 0xFE); (clean_reply 0xFA, clean_reply 0xFA)])
       ++ [8])
    = Some (s', [8]) /\
    SREG_I (io s') = true /\
    scanq_wf s' /\ ps2_scan_code_count (scanq s') = 0 /\
    keyq s' = keyq initial_state.
Proof.
  apply (startup_completes initial_state
           (replicate 10 (clean_reply 0xFA, clean_reply 0xFA))
           (clean_reply 0xFA, clean_reply 0xFE)
           (clean_reply 0xFA, clean_reply 0xFA) [8]).
  - wf_by_computation.
  - reflexivity.
  - reflexivity.
  - apply Forall_app. split.
    + apply Forall_replicate. apply clean_exchange_acknowledged. lia.
    + constructor; [apply clean_exchange_acknowledged; lia |].
      constructor; [apply clean_exchange_acknowledged; lia | constructor].
Defined.

(** ** The invariant over the whole of [main] *)

Lemma firmware_ok_sei (s : state) :
  firmware_ok s -> firmware_ok (with_io (with_SREG_I true (io s)) s).
Proof. intros H. exact H. Qed.

Lemma led_commands_ok (args : list Z) :
  forall (s : state) (tr : list Z) (s' : state) (tr' : list Z),
    firmware_ok s -> led_commands args s tr = Some (s', tr') ->
    firmware_ok s' /\ kbd_lock_keys s' = kbd_lock_keys s /\
    command_in s' = command_in s.
Proof.
  induction args as [| arg args IH]; intros s tr s' tr' Hok; cbn [led_commands].
  - intros H. injection H as <- _. auto.
  - destruct (kdb_led_ctrl arg s tr) as [[[r1 s1] tr1] |] eqn:H1; [| discriminate].
    rewrite bind_Some. cbv beta iota. intros H.
    destruct (kdb_led_ctrl_ok _ _ _ _ _ _ Hok H1) as (Hok1 & El1 & Ec1 & _).
    destruct (IH _ _ _ _ Hok1 H) as (Hok2 & El2 & Ec2).
    split; [exact Hok2 |]. split; congruence.
Qed.

Lemma main_startup_ok (s : state) (tr : list Z) (s' : state) (tr' : list Z) :
  firmware_ok s -> main_startup s tr = Some (s', tr') ->
  firmware_ok s' /\ kbd_lock_keys s' = kbd_lock_keys s /\
  command_in s' = command_in s /\ SREG_I (io s') = true.
Proof.
  intros Hok. unfold main_startup. rewrite kbd_test_led_commands.
  destruct (led_commands _ s tr) as [[s1 tr1] |] eqn:H1; [| discriminate].
  rewrite bind_Some. cbv beta iota.
  destruct (kbd_typematic_set PS2_HK_TYPEMAT s1 tr1) as [[[r2 s2] tr2] |] eqn:H2;
    [| discriminate].
  rewrite bind_Some. cbv beta iota.
  destruct (kbd_code_set 1 s2 tr2) as [[[r3 s3] tr3] |] eqn:H3; [| discriminate].
  rewrite bind_Some. cbv beta iota.
  intros H. injection H as <- _.
  destruct (led_commands_ok _ _ _ _ _ Hok H1) as (Hok1 & El1 & Ec1).
  destruct (kbd_typematic_set_ok _ _ _ _ _ _ Hok1 H2) as (Hok2 & El2 & Ec2 & _).
  destruct (kbd_code_set_ok _ _ _ _ _ _ Hok2 H3) as (Hok3 & El3 & Ec3 & _).
  split; [apply firmware_ok_sei; exact Hok3 |].
  cbn [kbd_lock_keys command_in with_io io SREG_I with_SREG_I].
  split; [congruence |]. split; [congruence | reflexivity].
Qed.

Lemma host_exchange_pins (h : Z) (s : state) :
  DDRB (io (snd (host_exchange h s))) = DDRB (io s) /\
  PORTB (io (snd (host_exchange h s))) = PORTB (io s) /\
  SREG_I (io (snd (host_exchange h s))) = SREG_I (io s).
Proof.
  unfold host_exchange, USI_OVF_vect, read_key. cbn [snd keyq with_command_in with_io].
  destruct (0 <? key_code_count (keyq s)); cbv beta iota zeta;
    destruct (_ =? -1); auto.
Qed.

(** The invariant over events, from a state in which the local copy of the
    lock keys is up to date and interrupts are on. *)
Lemma firmware_run_ok (evs : list event) :
  forall (k : Z) (s : state) (tr out : list Z) (k' : Z) (s' : state)
         (tr' : list Z),
    firmware_ok s -> k = kbd_lock_keys s -> SREG_I (io s) = true ->
    firmware_run evs k s tr = Some (out, k', s', tr') ->
    firmware_ok s' /\ Forall zero_or_key out /\
    k' = k /\ kbd_lock_keys s' = kbd_lock_keys s /\
    SREG_I (io s') = true /\
    DDRB (io s') = DDRB (io s) /\ PORTB (io s') = PORTB (io s).
Proof.
  induction evs as [| ev evs IH]; intros k s tr out k' s' tr' Hok Hk Hi.
  - cbn [firmware_run]. intros H. injection H as <- <- <- _.
    split; [exact Hok |]. split; [constructor | auto].
  - destruct ev as [pinb | h |]; cbn [firmware_run].
    + intros H.
      destruct (PCINT0_ok pinb s Hok) as (Hok1 & _).
      destruct (PCINT0_other_fields pinb s) as (_ & _ & El & Ei).
      assert (k = kbd_lock_keys (PCINT0_vect pinb s)) as Hk1 by congruence.
      assert (SREG_I (io (PCINT0_vect pinb s)) = true) as Hi1 by congruence.
      destruct (IH _ _ _ _ _ _ _ Hok1 Hk1 Hi1 H)
        as (Hok' & Hout & Ek' & El' & Hi' & Ed & Ep).
      rewrite Ei in Ed, Ep. rewrite El in El'. auto 8.
    + destruct (host_exchange_ok h s Hok) as (Hok1 & Hsent).
      destruct (host_exchange_pins h s) as (Ed1 & Ep1 & Ei1).
      assert (kbd_lock_keys (snd (host_exchange h s)) = kbd_lock_keys s) as El1
        by apply (USI_OVF_other_fields (with_io (with_USIDR (uint8 h) (io s)) s)).
      destruct (host_exchange h s) as [sent s1]. cbn [fst snd] in *.
      destruct (firmware_run evs k s1 tr) as [[[[out1 k1] s2] tr2] |] eqn:Hrun;
        [| discriminate].
      rewrite bind_Some. cbv beta iota. intros H. injection H as <- <- <- _.
      assert (k = kbd_lock_keys s1) as Hk1 by congruence.
      assert (SREG_I (io s1) = true) as Hi1 by congruence.
      destruct (IH _ _ _ _ _ _ _ Hok1 Hk1 Hi1 Hrun)
        as (Hok' & Hout & Ek' & El' & Hi' & Ed & Ep).
      split; [exact Hok' |]. split; [constructor; assumption |].
      split; [exact Ek' |]. split; [congruence |]. split; [exact Hi' |].
      split; congruence.
    + destruct (main_loop_body k s tr) as [[[k1 s1] tr1] |] eqn:Hb; [| discriminate].
      rewrite bind_Some. cbv beta iota. intros H.
      destruct (main_loop_body_ok _ _ _ _ _ _ Hok Hb) as (Hok1 & El1 & _ & Hio).
      destruct (Hio Hk) as [-> Ei1].
      assert (k = kbd_lock_keys s1) as Hk1 by congruence.
      assert (SREG_I (io s1) = true) as Hi1 by congruence.
      destruct (IH _ _ _ _ _ _ _ Hok1 Hk1 Hi1 H)
        as (Hok' & Hout & Ek' & El' & Hi' & Ed & Ep).
      rewrite Ei1 in Ed, Ep. rewrite El1 in El'. auto 8.
Qed.

(** X20.  Whatever the keyboard and the host send, and in whatever order the
    two interrupt handlers run between the iterations of the loop of [main],
    the state [main] reaches satisfies the invariant of the firmware, and
    every byte the host has received is 0 or a normalized key code.  The lock key state and the local copy of it
    are still 0, so after the start [main] never sends to the keyboard
    again: the port is as the start left it, interrupts are on, and the LEDs
    are never updated. *)
Theorem main_keeps_invariant (evs : list event) (tr out : list Z) (k : Z)
    (s : state) (tr' : list Z) :
  main evs tr = Some (out, k, s, tr') ->
  firmware_ok s /\ Forall zero_or_key out /\
  k = 0 /\ kbd_lock_keys s = 0 /\ SREG_I (io s) = true /\
  exists s0 tr0,
    main_startup initial_state tr = Some (s0, tr0) /\
    firmware_run evs 0 s0 tr0 = Some (out, k, s, tr') /\
    DDRB (io s) = DDRB (io s0) /\ PORTB (io s) = PORTB (io s0).
Proof.
  unfold main.
  destruct (main_startup initial_state tr) as [[s0 tr0] |] eqn:H0; [| discriminate].
  rewrite bind_Some. cbv beta iota. intros H.
  destruct (main_startup_ok _ _ _ _ firmware_ok_initial H0) as (Hok0 & El0 & _ & Hi0).
  change (kbd_lock_keys initial_state) with 0 in El0.
  destruct (firmware_run_ok evs _ _ _ _ _ _ _ Hok0 (eq_sym El0) Hi0 H)
    as (Hok & Hout & Ek & El & Hi & Ed & Ep).
  split; [exact Hok |]. split; [exact Hout |]. split; [exact Ek |].
  split; [congruence |]. split; [exact Hi |].
  exists s0, tr0. split; [reflexivity |]. split; [exact H |].
  split; [exact Ed | exact Ep].
Qed.

(** X20, with a keyboard that acknowledges the commands of the start and
    then sends the scan code 0x1E: the next iteration translates it, and
    the host receives it in its second transfer. *)
Lemma main_keeps_invariant_witness :
  let tr := flat_map exchange_trace
              (replicate 12 (clean_reply 0xFA, clean_reply 0xFA)) in
  let evs := map pin_change (map edge_sample (frame_bits (frame_of_byte 0x1E)))
             ++ [loop_iteration; host_transfer 0; host_transfer 0] in
  exists s,
    main evs tr = Some ([0; 0x1E], 0, s, []) /\
    firmware_ok s /\ Forall zero_or_key [0; 0x1E] /\
    0 = 0 /\ kbd_lock_keys s = 0 /\ SREG_I (io s) = true /\
    exists s0 tr0,
      main_startup initial_state tr = Some (s0, tr0) /\
      firmware_run evs 0 s0 tr0 = Some ([0; 0x1E], 0, s, []) /\
      DDRB (io s) = DDRB (io s0) /\ PORTB (io s) = PORTB (io s0).
Proof.
  intros tr evs. eexists. split; [vm_compute; reflexivity |].
  eapply (main_keeps_invariant evs tr [0; 0x1E] 0 _ []).
  vm_compute. reflexivity.
Defined.

(** ** A latched error and the blocking reads of [main] *)

(** With the receiver in an error state and the buffer empty, the blocking
    read returns on no input: the handler stores nothing any more. *)
Lemma ps2_recv_x_latched (tr : list Z) :
  forall s : state,
    is_error (ps2_rx_state (rx s)) = true ->
    ps2_scan_code_count (scanq s) <= 0 ->
    ps2_recv_x s tr = None.
Proof.
  induction tr as [| pinb tr IH]; intros s Herr He; cbn [ps2_recv_x];
    rewrite (ps2_recv_empty s He); cbn [Z.eqb Pos.eqb]; [reflexivity |].
  destruct (SREG_I (io s)); [| reflexivity].
  rewrite (PCINT0_error_latched pinb s Herr). apply IH; assumption.
Qed.

(** X21.  A reception error can stop the firmware for good.  When the
    receiver is latched in an error state and a lead byte 0xE0 or 0xE1 is
    the last byte in the scan code buffer, the iteration of the loop of
    [main] that takes the lead byte blocks in [ps2_recv_x] and never
    returns, whatever the keyboard sends: only [ps2_send] resets the
    receiver, and the loop does not get there. *)
Theorem latched_error_blocks_main (kdb_lock_state : Z) (s : state) (lead : Z)
    (tr : list Z) :
  scanq_wf s ->
  scan_contents s = [lead] ->
  lead = 0xE0 \/ lead = 0xE1 ->
  is_error (ps2_rx_state (rx s)) = true ->
  ps2_recv_x (snd (ps2_recv s)) tr = None /\
  main_loop_body kdb_lock_state s tr = None.
Proof.
  intros Hwf Hc Hlead Herr.
  destruct (ps2_recv_cons s lead [] Hwf Hc) as (q & Hrecv & Hc1 & Hwf1).
  assert (ps2_scan_code_count (scanq (with_scanq q s)) <= 0) as He.
  { destruct Hwf1 as (_ & _ & Hcnt & _).
    rewrite (ring_contents_nil_count _ _ _ _ (proj1 Hcnt) Hc1). lia. }
  pose proof (ps2_recv_x_latched tr (with_scanq q s) Herr He) as Hx.
  rewrite Hrecv. cbn [snd]. split; [exact Hx |].
  unfold main_loop_body. rewrite Hrecv.
  destruct Hlead as [-> | ->].
  - change (negb (0xE0 =? -1)) with true. cbv iota.
    unfold translate, main_e1. change (0xE0 =? 0xe1) with false. cbv iota.
    rewrite bind_Some. cbv beta iota.
    unfold main_e0. change (0xE0 =? 0xe0) with true. cbv iota.
    rewrite Hx. reflexivity.
  - change (negb (0xE1 =? -1)) with true. cbv iota.
    unfold translate, main_e1. change (0xE1 =? 0xe1) with true. cbv iota.
    rewrite Hx. reflexivity.
Qed.

(** X21, after the frame of the lead byte 0xE0 and a sample with the data
    line high where a start bit is due. *)
Lemma latched_error_blocks_main_witness :
  let s := run_PCINT0 (map edge_sample (frame_bits (frame_of_byte 0xE0)) ++ [16])
             (scan_loaded []) in
  let tr := map edge_sample (frame_bits (frame_of_byte 0x50)) in
  ps2_recv_x (snd (ps2_recv s)) tr = None /\ main_loop_body 0 s tr = None.
Proof.
  intros s tr. apply (latched_error_blocks_main 0 s 0xE0 tr).
  - wf_by_computation.
  - vm_compute. reflexivity.
  - left. reflexivity.
  - vm_compute. reflexivity.
Defined.
